(** * dddl: the SQL tokenizer and the CREATE TABLE parser

    A shallow embedding of [tokenizer.ts] and [parser.ts] and the properties
    of the design document stated over it.

    JavaScript strings are sequences of UTF-16 code units, while
    [Array.from(src)] splits a string into code points.  The tokenizer mixes
    both views (it indexes the code-point array and advances by
    [token.length]), so a string is modelled as the list of its code points
    and [String.prototype.length] as the number of UTF-16 units of that list. *)

From Stdlib Require Import List String Ascii NArith Arith Bool Lia.
Import ListNotations.

Set Implicit Arguments.
Set Warnings "-register-all".

(** ** JavaScript strings *)

Definition jschar := N.
Definition jsstring := list jschar.

(** Number of UTF-16 code units of one code point. *)
Definition units (c : jschar) : nat := if (c <? 65536)%N then 1 else 2.

(** [s.length] *)
Fixpoint jslength (s : jsstring) : nat :=
  match s with
  | [] => 0
  | c :: s' => units c + jslength s'
  end.

Definition chr (a : ascii) : jschar := N_of_ascii a.
Definition str (s : string) : jsstring := map chr (list_ascii_of_string s).

Fixpoint jseqb (a b : jsstring) : bool :=
  match a, b with
  | [], [] => true
  | x :: a', y :: b' => (x =? y)%N && jseqb a' b'
  | _, _ => false
  end.

(** [chars[i] === c], false when [chars[i]] is [undefined] *)
Definition charAt (chars : list jschar) (i : nat) (c : jschar) : bool :=
  match nth_error chars i with
  | Some x => (x =? c)%N
  | None => false
  end.

Definition TAB_CH : jschar := 9%N.
Definition LF_CH : jschar := 10%N.
Definition CR_CH : jschar := 13%N.
Definition DQUOTE_CH : jschar := 34%N.
Definition QUOTE_CH : jschar := 39%N.
Definition BACKSLASH_CH : jschar := 92%N.

(** ** Outcomes

    A call returns, throws, or (in the model only) runs out of fuel.  Loops
    of the source that are not structural are given a fuel argument; an
    outcome [OutOfFuel] for every fuel is a run that never returns. *)

Inductive outcome (E A : Type) : Type :=
| Ok (a : A)
| Throw (e : E)
| OutOfFuel.

Arguments Ok {E A} a.
Arguments Throw {E A} e.
Arguments OutOfFuel {E A}.

Definition bind {E A B} (m : outcome E A) (k : A -> outcome E B) : outcome E B :=
  match m with
  | Ok a => k a
  | Throw e => Throw e
  | OutOfFuel => OutOfFuel
  end.

Declare Scope outcome_scope.
Delimit Scope outcome_scope with outcome.
Notation "x <- m ;; k" := (bind m (fun x => k))
  (at level 61, m at next level, right associativity) : outcome_scope.
Notation "' p <- m ;; k" := (bind m (fun x => match x with p => k end))
  (at level 61, p pattern, m at next level, right associativity) : outcome_scope.
Open Scope outcome_scope.

(** ** tokenizer.ts *)

Module tk.

(** The class hierarchy under [Token].  [NewLine] extends [Whitespace];
    the two string literal classes with a prefix extend
    [NonCharcterStringLiteral], whose value is [prefix + content]. *)
Inductive Token : Type :=
| Whitespace (v : jsstring)
| NewLine (v : jsstring)
| Word (v : jsstring)
| SingleQuotedString (v : jsstring)
| Num (v : jsstring)
| LParen (v : jsstring)
| RParen (v : jsstring)
| Comma (v : jsstring)
| Cmmnt (v : jsstring)
| Operator (v : jsstring)
| Other (v : jsstring)
| NationalStringLiteral (content prefix : jsstring)
| HexStringLiteral (content prefix : jsstring).

Definition value (t : Token) : jsstring :=
  match t with
  | Whitespace v | NewLine v | Word v | SingleQuotedString v | Num v
  | LParen v | RParen v | Comma v | Cmmnt v | Operator v | Other v => v
  | NationalStringLiteral c p | HexStringLiteral c p => p ++ c
  end.

(** [token.length] *)
Definition length (t : Token) : nat := jslength (value t).

(** [token.content]: only [NonCharcterStringLiteral] declares the getter, on
    every other class the property read gives [undefined]. *)
Definition content (t : Token) : option jsstring :=
  match t with
  | NationalStringLiteral c _ | HexStringLiteral c _ => Some c
  | _ => None
  end.

Definition prefix (t : Token) : option jsstring :=
  match t with
  | NationalStringLiteral _ p | HexStringLiteral _ p => Some p
  | _ => None
  end.

(** [token instanceof Whitespace] *)
Definition isWhitespace (t : Token) : bool :=
  match t with
  | Whitespace _ | NewLine _ => true
  | _ => false
  end.

(** [token instanceof NewLine] *)
Definition isNewLine (t : Token) : bool :=
  match t with
  | NewLine _ => true
  | _ => false
  end.

Definition SPACE := Whitespace (str " ").
Definition TAB := Whitespace [TAB_CH].
Definition LF := NewLine [LF_CH].
Definition CRLF := NewLine [CR_CH; LF_CH].
Definition CR := NewLine [CR_CH].
Definition LPAREN := LParen (str "(").
Definition RPAREN := RParen (str ")").
Definition COMMA := Comma (str ",").
Definition CONCAT := Operator (str "||").
Definition EQ := Operator (str "=").
Definition RARROW := Operator (str "=>").
Definition PERIOD := Operator (str ".").
Definition PLUS := Operator (str "+").
Definition MINUS := Operator (str "-").
Definition DIV := Operator (str "/").
Definition MULT := Operator (str "*").
Definition MOD := Operator (str "%").
Definition NEQ := Operator (str "!=").
Definition DOUBLE_EXCLAMATION_MARK := Operator (str "!!").
Definition EXCLAMATION_MARK := Operator (str "!").
Definition LT := Operator (str "<").
Definition LTEQ := Operator (str "<=").
Definition NEQ2 := Operator (str "<>").
Definition SHIFT_LEFT := Operator (str "<<").
Definition GT := Operator (str ">").
Definition GTEQ := Operator (str ">=").
Definition SHIFT_RIGHT := Operator (str ">>").
Definition COLON := Operator (str ":").
Definition DOUBLE_COLON := Operator (str "::").
Definition SEMICOLON := Operator (str ";").
Definition BACKSLASH := Operator [BACKSLASH_CH].
Definition LBRACKET := Operator (str "[").
Definition RBRACKET := Operator (str "]").
Definition AMPERSAND := Operator (str "&").
Definition CARET := Operator (str "^").
Definition LBRACE := Operator (str "{").
Definition RBRACE := Operator (str "}").
Definition TILDE := Operator (str "~").
Definition HASH := Operator (str "#").
Definition ATSIGN := Operator (str "@").

Definition TOKENIZE_SINGLE_QUOTED_STRING_ERROR : jsstring :=
  str "Unterminated string literal".
Definition TOKENIZE_DELIMITED_STRING_ERROR : jsstring :=
  str "Expected close delimiter " ++ [DQUOTE_CH] ++ str " before EOF.".
Definition TOKENIZE_MULTI_LINE_COMMENT_ERROR : jsstring :=
  str "Unexpected EOF while in a multi-line comment".

Definition inRange (lo hi : ascii) (ch : jschar) : bool :=
  (chr lo <=? ch)%N && (ch <=? chr hi)%N.

Definition isDigit (ch : jschar) : bool := inRange "0" "9" ch.

Definition isDelimiteddIdentifierStart (ch : jschar) : bool := (ch =? DQUOTE_CH)%N.

Definition isIdentifierStart (ch : jschar) : bool :=
  existsb (N.eqb ch) (str "@#_") || inRange "A" "Z" ch || inRange "a" "z" ch.

Definition isIdentifierPart (ch : jschar) : bool :=
  existsb (N.eqb ch) (str "@$#_") || inRange "0" "9" ch
  || inRange "A" "Z" ch || inRange "a" "z" ch.

(** [~~b] on a boolean *)
Definition toInt (b : bool) : nat := if b then 1 else 0.

(** The callbacks receive [(ch, idx, chars)]. *)
Definition AdvanceBy := jschar -> nat -> list jschar -> nat.

(** The loop shared by [takeWhile] and [takeWhileOrError]:
    [while (i < chars.length && (by = advanceBy(chars[i], i, chars))) i += by].
    The result is the final [i]; [None] when the fuel is used up. *)
Fixpoint advance (fuel : nat) (chars : list jschar) (i : nat) (advanceBy : AdvanceBy)
  : option nat :=
  match nth_error chars i with
  | None => Some i
  | Some c =>
      match advanceBy c i chars with
      | 0 => Some i
      | by_ =>
          match fuel with
          | 0 => None
          | S fuel' => advance fuel' chars (i + by_) advanceBy
          end
      end
  end.

Definition takeWhile (chars : list jschar) (testStart : nat) (advanceBy : AdvanceBy)
  : outcome jsstring jsstring :=
  match advance (List.length chars) chars testStart advanceBy with
  | None => OutOfFuel
  | Some i => Ok (firstn (Nat.min i (List.length chars)) chars)
  end.

Definition takeWhileOrError (chars : list jschar) (testStart : nat)
  (advanceBy : AdvanceBy) (msg : jsstring) : outcome jsstring jsstring :=
  match advance (List.length chars) chars testStart advanceBy with
  | None => OutOfFuel
  | Some i =>
      if i =? List.length chars then Throw msg
      else Ok (firstn i chars)
  end.

Definition tokenizeSingleQuotedStringAdvanceBy : AdvanceBy :=
  fun c i chars =>
    if negb (charAt chars (i - 1) QUOTE_CH) then 1
    else if charAt chars (i - 1) QUOTE_CH && (c =? QUOTE_CH)%N then 2
    else 0.

Definition tokenizeSingleQuotedString (chars : list jschar) : outcome jsstring jsstring :=
  takeWhileOrError chars 2 tokenizeSingleQuotedStringAdvanceBy
    TOKENIZE_SINGLE_QUOTED_STRING_ERROR.

Definition tokenizeIdentifier (chars : list jschar) : outcome jsstring jsstring :=
  takeWhile chars 1 (fun c _ _ => toInt (isIdentifierPart c)).

(** [chars[0]] of a non-empty slice, as a string *)
Definition head0 (chars : list jschar) : jsstring := firstn 1 chars.

(** The keys of the [rule] table: the three class keys and the characters. *)
Inductive Key : Type :=
| ident
| delimitedIdent
| num
| char (c : jschar).

Definition RuleFn := list jschar -> outcome jsstring Token.

Definition constant (t : Token) : RuleFn := fun _ => Ok t.

Definition stringOrWord (mk : jsstring -> jsstring -> Token) : RuleFn :=
  fun chars =>
    if charAt chars 1 QUOTE_CH
    then s <- tokenizeSingleQuotedString (skipn 1 chars) ;; Ok (mk s (head0 chars))
    else s <- tokenizeIdentifier chars ;; Ok (Word s).

(** [rule[key]]: [None] is a key the table does not have. *)
Definition rule (key : Key) : option RuleFn :=
  match key with
  | ident => Some (fun chars => s <- tokenizeIdentifier chars ;; Ok (Word s))
  | delimitedIdent => Some (fun chars =>
      s <- takeWhileOrError chars 2
             (fun _ i chars => toInt (negb (charAt chars (i - 1) DQUOTE_CH)))
             TOKENIZE_DELIMITED_STRING_ERROR ;;
      Ok (Word s))
  | num => Some (fun chars =>
      s <- takeWhile chars 1 (fun c _ _ => toInt (isDigit c || (c =? chr ".")%N)) ;;
      Ok (Num s))
  | char c =>
      if (c =? chr " ")%N then Some (constant SPACE)
      else if (c =? TAB_CH)%N then Some (constant TAB)
      else if (c =? LF_CH)%N then Some (constant LF)
      else if (c =? CR_CH)%N then Some (fun chars => Ok (if charAt chars 1 LF_CH then CRLF else CR))
      else if (c =? chr "N")%N then Some (stringOrWord NationalStringLiteral)
      else if (c =? chr "X")%N then Some (stringOrWord HexStringLiteral)
      else if (c =? chr "x")%N then Some (stringOrWord HexStringLiteral)
      else if (c =? QUOTE_CH)%N then Some (fun chars =>
        s <- tokenizeSingleQuotedString chars ;; Ok (SingleQuotedString s))
      else if (c =? chr "(")%N then Some (constant LPAREN)
      else if (c =? chr ")")%N then Some (constant RPAREN)
      else if (c =? chr ",")%N then Some (constant COMMA)
      else if (c =? chr "-")%N then Some (fun chars =>
        if charAt chars 1 (chr "-")
        then s <- takeWhile chars 2 (fun c _ _ => toInt (negb (c =? LF_CH)%N)) ;; Ok (Cmmnt s)
        else Ok MINUS)
      else if (c =? chr "/")%N then Some (fun chars =>
        if charAt chars 1 (chr "*")
        then s <- takeWhileOrError chars 4
                    (fun _ i chars =>
                       toInt (negb (charAt chars (i - 2) (chr "*")
                                    && charAt chars (i - 1) (chr "/"))))
                    TOKENIZE_MULTI_LINE_COMMENT_ERROR ;;
             Ok (Cmmnt s)
        else Ok DIV)
      else if (c =? chr "+")%N then Some (constant PLUS)
      else if (c =? chr "*")%N then Some (constant MULT)
      else if (c =? chr "%")%N then Some (constant MOD)
      else if (c =? chr "|")%N then Some (fun chars =>
        Ok (if charAt chars 1 (chr "|") then CONCAT else Other (str "|")))
      else if (c =? chr "=")%N then Some (fun chars =>
        Ok (if charAt chars 1 (chr ">") then RARROW else EQ))
      else if (c =? chr ".")%N then Some (constant PERIOD)
      else if (c =? chr "!")%N then Some (fun chars =>
        Ok (if charAt chars 1 (chr "=") then NEQ
            else if charAt chars 1 (chr "!") then DOUBLE_EXCLAMATION_MARK
            else EXCLAMATION_MARK))
      else if (c =? chr "<")%N then Some (fun chars =>
        Ok (if charAt chars 1 (chr "=") then LTEQ
            else if charAt chars 1 (chr ">") then NEQ2
            else if charAt chars 1 (chr "<") then SHIFT_LEFT
            else LT))
      else if (c =? chr ">")%N then Some (fun chars =>
        Ok (if charAt chars 1 (chr "=") then GTEQ
            else if charAt chars 1 (chr ">") then SHIFT_RIGHT
            else GT))
      else if (c =? chr ":")%N then Some (fun chars =>
        Ok (if charAt chars 1 (chr ":") then DOUBLE_COLON else COLON))
      else if (c =? chr ";")%N then Some (constant SEMICOLON)
      else if (c =? BACKSLASH_CH)%N then Some (constant BACKSLASH)
      else if (c =? chr "[")%N then Some (constant LBRACKET)
      else if (c =? chr "]")%N then Some (constant RBRACKET)
      else if (c =? chr "&")%N then Some (constant AMPERSAND)
      else if (c =? chr "^")%N then Some (constant CARET)
      else if (c =? chr "{")%N then Some (constant LBRACE)
      else if (c =? chr "}")%N then Some (constant RBRACE)
      else if (c =? chr "~")%N then Some (constant TILDE)
      else if (c =? chr "#")%N then Some (constant HASH)
      else if (c =? chr "@")%N then Some (constant ATSIGN)
      else None
  end.

(** [wrapError(new TokenizeError('Tokenize error', row, col), err)]: the
    position of the token being scanned together with the message of the
    error caught. *)
Record TokenizeError : Type := mkTokenizeError {
  message : jsstring;
  row : nat;
  col : nat;
  cause : jsstring
}.

Definition TokenSet := list Token.

(** The dispatch key of the character at the cursor. *)
Definition keyOf (c : jschar) : Key :=
  if existsb (N.eqb c) (str "NXx") then char c
  else if isIdentifierStart c then ident
  else if isDelimiteddIdentifierStart c then delimitedIdent
  else if isDigit c then num
  else char c.

(** [rule[key]?.(chars.slice(i)) || new Other(key)]; a token is an object,
    hence truthy, so the alternative is taken only for a missing key, which
    is then the character itself. *)
Definition applyRule (c : jschar) (rest : list jschar) : outcome jsstring Token :=
  match rule (keyOf c) with
  | Some r => r rest
  | None => Ok (Other [c])
  end.

(** The [while (i < chars.length)] loop of [tokenize] with its state
    [i], [row], [col] and [tokens]. *)
Fixpoint tokenizeLoop (fuel : nat) (chars : list jschar) (i row col : nat)
  (tokens : TokenSet) : outcome TokenizeError TokenSet :=
  match nth_error chars i with
  | None => Ok tokens
  | Some c =>
      match fuel with
      | 0 => OutOfFuel
      | S fuel' =>
          match applyRule c (skipn i chars) with
          | Throw err => Throw (mkTokenizeError (str "Tokenize error") row col err)
          | OutOfFuel => OutOfFuel
          | Ok token =>
              if isNewLine token
              then tokenizeLoop fuel' chars (i + length token) (row + 1) 1
                     (tokens ++ [token])
              else tokenizeLoop fuel' chars (i + length token) row (col + length token)
                     (tokens ++ [token])
          end
      end
  end.

Definition tokenize (src : jsstring) : outcome TokenizeError TokenSet :=
  tokenizeLoop (List.length src) src 0 1 1 [].

(** [joinValues('')] without its special case for the empty array *)
Definition joinValues (tokens : TokenSet) : jsstring := List.concat (map value tokens).

End tk.

(** ** The collaborators of the parser

    [keywords.ts], [data-types.ts], [expressions.ts] and [column-options.ts]
    are imported by the parser; the value classes are plain constructors. *)

Module keywords.

(** Modelled from the spec: the keyword table is not part of the sources at
    hand; the parser needs "a predicate: is this word exactly this keyword"
    and "is this word one of this keyword set".  Exact comparison is also
    what the parser's own [equalToKeyword] does. *)
Definition isKeyword (word keyword : jsstring) : bool := jseqb word keyword.

Definition isOneOfKeywords (word : jsstring) (keywords : list jsstring) : bool :=
  existsb (isKeyword word) keywords.

End keywords.

Module types.

(** The result of [parseInt]: a natural number or [NaN].  (Digit strings
    beyond 2^53 are rounded by JavaScript; the model keeps them exact.) *)
Inductive JsInt : Type :=
| NaN
| Int (n : N).

(** Modelled from the spec: the data-type catalog is not part of the sources
    at hand.  A type name expects [(length)], an optional
    [(precision, scale)], an optional [(precision)] or no argument list, and
    each shape has a constructor per name; the value built records the name
    and the arguments. *)
Inductive DataType : Type :=
| ofLength (name : jsstring) (length : JsInt)
| ofOptPS (name : jsstring) (ps : option (JsInt * JsInt))
| ofOptP (name : jsstring) (p : option JsInt)
| ofNoArgs (name : jsstring).

Definition inDataTypeNameL (name : jsstring) : bool :=
  existsb (jseqb name) [str "CHAR"; str "VARCHAR"].

Definition inDataTypeNameOptPS (name : jsstring) : bool :=
  existsb (jseqb name) [str "DECIMAL"; str "NUMERIC"].

Definition inDataTypeNameOptP (name : jsstring) : bool :=
  existsb (jseqb name) [str "FLOAT"].

Definition inDataTypeNameNoArgs (name : jsstring) : bool :=
  existsb (jseqb name)
    [str "INT"; str "INTEGER"; str "SMALLINT"; str "BIGINT"; str "REAL";
     str "DOUBLE"; str "DOUBLE PRECISION"; str "BOOLEAN"; str "DATE";
     str "TIME"; str "TIMESTAMP"; str "TEXT"].

Definition mapperL (name : jsstring) (length : JsInt) : DataType := ofLength name length.
Definition mapperOptPS (name : jsstring) (ps : option (JsInt * JsInt)) : DataType :=
  ofOptPS name ps.
Definition mapperOptP (name : jsstring) (p : option JsInt) : DataType := ofOptP name p.
Definition mapperNoArgs (name : jsstring) : DataType := ofNoArgs name.

End types.

(** [parseInt(s)] on the value of a number token: the leading decimal
    digits, [NaN] when there is none. *)
Fixpoint digitsValue (s : jsstring) (acc : N) : N :=
  match s with
  | [] => acc
  | c :: s' =>
      if tk.isDigit c then digitsValue s' (10 * acc + (c - chr "0"))%N else acc
  end.

Definition parseInt (s : jsstring) : types.JsInt :=
  match s with
  | c :: _ => if tk.isDigit c then types.Int (digitsValue s 0) else types.NaN
  | [] => types.NaN
  end.

(** The classes of the parser's own AST that the expressions refer to. *)
Record Ident : Type := mkIdent {
  identValue : jsstring;
  quoteStyle : option jsstring
}.

Record ObjectName : Type := mkObjectName {
  objectNameValue : list Ident
}.

Inductive ReferencialActionName : Type :=
| RESTRICT
| CASCADE
| SET_NULL
| NO_ACTION
| SET_DEFAULT.

Record ReferencialAction : Type := mkReferencialAction {
  actionName : ReferencialActionName
}.

Module values.

Inductive Value : Type :=
| Boolean (v : jsstring)
| Null
| Number (v : jsstring)
| SingleQuotedString (content : option jsstring)
| NationalStringLiteral (content prefix : option jsstring)
| HexStringLiteral (content prefix : option jsstring).

End values.

Module exprs.

Inductive Expr : Type :=
| Identifier (ident : Ident)
| QualifiedWildcard (idents : list Ident)
| Wildcard
| Value (v : values.Value)
| TypedString (dataType : types.DataType) (value : option jsstring)
| UnaryOp (op : jsstring) (expr : Expr)
| BinaryOp (left : Expr) (op : jsstring) (right : Expr)
| IsNull (expr : Expr)
| IsNotNull (expr : Expr)
| Between (expr : Expr) (negated : bool) (low high : Expr)
| InList (expr : Expr) (list : list Expr) (negated : bool)
| Case (operand : option Expr) (conditions results : list Expr) (elseResult : option Expr)
| Cast (expr : Expr) (dataType : types.DataType)
| Collate (expr : Expr) (collation : ObjectName)
| Exists
| Extract
| ListAgg
| Function
| Subquery.

End exprs.

Module colOpts.

Inductive ColumnOption : Type :=
| NotNull
| Null
| Default (expr : exprs.Expr)
| Unique (isPrimary : bool)
| Foreign (foreignTable : ObjectName) (referredColumns : list Ident)
    (onDelete onUpdate : option ReferencialAction)
| Check (expr : exprs.Expr)
| DiarectSpecific (name : jsstring).

End colOpts.

(** ** parser.ts: the AST *)

Record ColumnOptionDef : Type := mkColumnOptionDef {
  optionName : option Ident;
  option_ : colOpts.ColumnOption
}.

Record ColumnDef : Type := mkColumnDef {
  columnName : Ident;
  dataType : types.DataType;
  collation : option ObjectName;
  options : list ColumnOptionDef
}.

Inductive TableConstraint : Type :=
| Unique (name : option Ident) (columns : list Ident) (isPrimary : bool)
| ForeignKey (name : option Ident) (columns : list Ident)
    (foreignTable : ObjectName) (referredColumns : list Ident)
| Check (name : option Ident) (expr : exprs.Expr).

Inductive SqlOption : Type := mkSqlOption.

(** [external], [fileFormat], [location] and [query] are always
    [false] and [undefined]. *)
Record CreateTableStatement : Type := mkCreateTableStatement {
  name : ObjectName;
  columns : list ColumnDef;
  constraints : list TableConstraint;
  withOptions : list SqlOption;
  orReplace : bool;
  ifNotExists : bool;
  withoutRowid : bool;
  external : bool
}.

(** What a call of the parser can throw: a [ParseError], the plain
    [new Error()] of [parse], or the error of the tokenizer. *)
Inductive Exception : Type :=
| ParseError (msg : jsstring)
| Error
| TokenizeFailure (e : tk.TokenizeError).

(** A cursor is a JavaScript number: an index or [Infinity], which
    [nextMeaningfulToken] returns at the end of the input. *)
Inductive number : Type :=
| Fin (n : nat)
| Infinity.

Coercion Fin : nat >-> number.

Definition ParseResult (T : Type) : Type := (number * T)%type.

(** [Token|Eof] *)
Inductive NextTokenResult : Type :=
| Tok (t : tk.Token)
| EOF.

(** [token.value], ['EOF'] for the sentinel *)
Definition valueOf (t : NextTokenResult) : jsstring :=
  match t with
  | Tok t => tk.value t
  | EOF => str "EOF"
  end.

Definition Result (T : Type) : Type := outcome Exception T.

(** [a <= b] and [a < b] on cursors *)
Definition leb (a : nat) (b : number) : bool :=
  match b with
  | Fin n => a <=? n
  | Infinity => true
  end.

Definition ltb (a : number) (b : nat) : bool :=
  match a with
  | Fin n => n <? b
  | Infinity => false
  end.

(** Truthiness of a [number|undefined] *)
Definition truthy (o : option number) : bool :=
  match o with
  | Some (Fin 0) => false
  | Some _ => true
  | None => false
  end.

(** [a || b] *)
Definition orElse (o : option number) (d : number) : number :=
  match o with
  | Some n => if truthy o then n else d
  | None => d
  end.

(** ** parser.ts: tokens under the cursor *)

Definition TokenSet := tk.TokenSet.

Definition token_eqb (a b : tk.Token) : bool :=
  match a, b with
  | tk.Whitespace x, tk.Whitespace y
  | tk.NewLine x, tk.NewLine y
  | tk.Word x, tk.Word y
  | tk.SingleQuotedString x, tk.SingleQuotedString y
  | tk.Num x, tk.Num y
  | tk.LParen x, tk.LParen y
  | tk.RParen x, tk.RParen y
  | tk.Comma x, tk.Comma y
  | tk.Cmmnt x, tk.Cmmnt y
  | tk.Operator x, tk.Operator y
  | tk.Other x, tk.Other y => jseqb x y
  | tk.NationalStringLiteral c p, tk.NationalStringLiteral c' p'
  | tk.HexStringLiteral c p, tk.HexStringLiteral c' p' => jseqb c c' && jseqb p p'
  | _, _ => false
  end.

(** [token === constant] and [[...].includes(token)].  The tokenizer hands
    out its module constants for the punctuation and operator classes, so
    identity with a constant is equality of class and value. *)
Definition identical (token : NextTokenResult) (constant : tk.Token) : bool :=
  match token with
  | Tok t => token_eqb t constant
  | EOF => false
  end.

Definition includes (constants : list tk.Token) (token : NextTokenResult) : bool :=
  existsb (identical token) constants.

(** [token instanceof tk.Word] *)
Definition isWord (token : NextTokenResult) : bool :=
  match token with
  | Tok (tk.Word _) => true
  | _ => false
  end.

(** [token instanceof tk.Operator] *)
Definition isOperator (token : NextTokenResult) : bool :=
  match token with
  | Tok (tk.Operator _) => true
  | _ => false
  end.

(** Modelled from the spec: [tk.WordIdent] is not declared by the tokenizer
    at hand.  A word token is "a bare identifier or keyword, in union with a
    quoted-identifier sub-variant"; the tokenizer builds a [Word] for all
    three, so every [Word] is a [WordIdent]. *)
Definition isWordIdent (token : NextTokenResult) : bool := isWord token.

(** Modelled from the spec: [tk.Number] is the "number literal" token, the
    class [Num] of the tokenizer at hand. *)
Definition isNumber (token : NextTokenResult) : bool :=
  match token with
  | Tok (tk.Num _) => true
  | _ => false
  end.

(** [token instanceof tk.SingleQuotedString] and its two siblings *)
Definition isSingleQuotedString (token : NextTokenResult) : bool :=
  match token with
  | Tok (tk.SingleQuotedString _) => true
  | _ => false
  end.

Definition isNationalStringLiteral (token : NextTokenResult) : bool :=
  match token with
  | Tok (tk.NationalStringLiteral _ _) => true
  | _ => false
  end.

Definition isHexStringLiteral (token : NextTokenResult) : bool :=
  match token with
  | Tok (tk.HexStringLiteral _ _) => true
  | _ => false
  end.

(** Modelled from the spec: [tk.StringLiteral] is not declared by the
    tokenizer at hand; the string literal tokens are the "single-quoted
    string" and the "national-string and hex-string literals". *)
Definition isStringLiteral (token : NextTokenResult) : bool :=
  isSingleQuotedString token || isNationalStringLiteral token || isHexStringLiteral token.

(** Modelled from the spec: [tk.PIPE] is not declared by the tokenizer at
    hand, which gives a lone bar the catch-all class; the precedence table
    places the bar between the comparison operators and the caret. *)
Definition PIPE : tk.Token := tk.Other (str "|").

(** [token.content] and [token.prefix] of a token that is not the sentinel *)
Definition contentOf (token : NextTokenResult) : option jsstring :=
  match token with
  | Tok t => tk.content t
  | EOF => None
  end.

Definition prefixOf (token : NextTokenResult) : option jsstring :=
  match token with
  | Tok t => tk.prefix t
  | EOF => None
  end.

(** Modelled from the spec: [tk.DelimitedIdent] is not declared by the
    tokenizer at hand, which builds a plain [Word] (quotes included in its
    value) for a delimited identifier; no token is an instance of it, and
    [toIdent] takes its second branch. *)
Definition toIdent (wordOrIdent : NextTokenResult) : Ident :=
  mkIdent (valueOf wordOrIdent) None.

Definition getError (expected : jsstring) (actual : NextTokenResult) : Exception :=
  ParseError (str "Expected: " ++ expected ++ str ", found: " ++ valueOf actual).

Definition unsupportedExprssion (token : NextTokenResult) : Exception :=
  ParseError (str "An unsupported expression found: " ++ valueOf token).

Definition equalToKeyword (token : NextTokenResult) (keyword : jsstring) : bool :=
  match token with
  | Tok (tk.Word v) => jseqb v keyword
  | _ => false
  end.

Definition inKeywords (token : NextTokenResult) (keywords : list jsstring) : bool :=
  existsb (equalToKeyword token) keywords.

(** [while (i < tokenSet.length && tokenSet[i] instanceof tk.Whitespace) i++]
    followed by the return of [nextMeaningfulToken], over the tokens from
    [i] on. *)
Fixpoint nextFrom (rest : list tk.Token) (i : nat) : ParseResult NextTokenResult :=
  match rest with
  | [] => (Infinity, EOF)
  | t :: rest' =>
      if tk.isWhitespace t then nextFrom rest' (S i) else (Fin (S i), Tok t)
  end.

Definition nextMeaningfulToken (tokenSet : TokenSet) (start : number)
  : ParseResult NextTokenResult :=
  match start with
  | Fin i => nextFrom (skipn i tokenSet) i
  | Infinity => (Infinity, EOF)
  end.

(** The same loop in [peekToken], which returns the token alone. *)
Fixpoint peekFrom (rest : list tk.Token) : NextTokenResult :=
  match rest with
  | [] => EOF
  | t :: rest' => if tk.isWhitespace t then peekFrom rest' else Tok t
  end.

Definition peekToken (tokenSet : TokenSet) (start : number) : NextTokenResult :=
  match start with
  | Fin i => peekFrom (skipn i tokenSet)
  | Infinity => EOF
  end.

Definition consumeToken (tokenSet : TokenSet) (start : number) (consumedToken : tk.Token)
  : option number :=
  let '(idx, token) := nextMeaningfulToken tokenSet start in
  match token with
  | Tok t => if jseqb (tk.value t) (tk.value consumedToken) then Some idx else None
  | EOF => None
  end.

Definition expectToken (tokenSet : TokenSet) (start : number) (expected : tk.Token)
  : Result number :=
  let '(idx, token) := nextMeaningfulToken tokenSet start in
  match token with
  | Tok t =>
      if jseqb (tk.value t) (tk.value expected) then Ok idx
      else Throw (getError (tk.value expected) token)
  | EOF => Throw (getError (tk.value expected) token)
  end.

Definition parseKeyword (tokenSet : TokenSet) (start : number) (keyword : jsstring)
  : ParseResult bool :=
  let token := peekToken tokenSet start in
  if equalToKeyword token keyword
  then (fst (nextMeaningfulToken tokenSet start), true)
  else (start, false).

(** The [for] loop of [parseKeywords] over the keywords from [j] on. *)
Fixpoint parseKeywordsFrom (tokenSet : TokenSet) (start idx : number)
  (keywords : list jsstring) : ParseResult bool :=
  match keywords with
  | [] => (idx, true)
  | keyword :: keywords' =>
      if ltb idx (List.length tokenSet)
      then
        let '(idx, found) := parseKeyword tokenSet idx keyword in
        if negb found then (start, false)
        else parseKeywordsFrom tokenSet start idx keywords'
      else (idx, true)
  end.

Definition parseKeywords (tokenSet : TokenSet) (start : number) (keywords : list jsstring)
  : ParseResult bool :=
  parseKeywordsFrom tokenSet start start keywords.

Definition expectKeyword (tokenSet : TokenSet) (start : number) (keyword : jsstring)
  : Result number :=
  let token := peekToken tokenSet start in
  if equalToKeyword token keyword then Ok (fst (nextMeaningfulToken tokenSet start))
  else Throw (getError keyword token).

(** [keywords.forEach(keyword => idx = expectKeyword(tokenSet, idx, keyword))] *)
Fixpoint expectKeywords (tokenSet : TokenSet) (start : number) (keywords : list jsstring)
  : Result number :=
  match keywords with
  | [] => Ok start
  | keyword :: keywords' =>
      idx <- expectKeyword tokenSet start keyword ;;
      expectKeywords tokenSet idx keywords'
  end.

Definition parseIdentifier (tokenSet : TokenSet) (start : number) : Result (ParseResult Ident) :=
  let '(idx, token) := nextMeaningfulToken tokenSet start in
  if isWordIdent token then Ok (idx, toIdent token)
  else Throw (getError (str "identifier") token).

(** The [do ... while (idx)] loop of [parseCommaSeparated]. *)
Fixpoint parseCommaSeparatedFrom {T : Type} (fuel : nat) (tokenSet : TokenSet)
  (idx : number) (callback : TokenSet -> number -> Result (ParseResult T))
  (values : list T) : Result (ParseResult (list T)) :=
  match fuel with
  | 0 => OutOfFuel
  | S fuel' =>
      result <- callback tokenSet idx ;;
      let values := values ++ [snd result] in
      let idx := consumeToken tokenSet (fst result) tk.COMMA in
      if truthy idx
      then parseCommaSeparatedFrom fuel' tokenSet (orElse idx (fst result)) callback values
      else Ok (orElse idx (fst result), values)
  end.

Definition parseCommaSeparated {T : Type} (fuel : nat) (tokenSet : TokenSet)
  (start : number) (callback : TokenSet -> number -> Result (ParseResult T))
  : Result (ParseResult (list T)) :=
  parseCommaSeparatedFrom fuel tokenSet start callback [].

(** The [do ... while (idx)] loop of [parseObjectName]. *)
Fixpoint parseObjectNameFrom (fuel : nat) (tokenSet : TokenSet) (idx : number)
  (idents : list Ident) : Result (ParseResult ObjectName) :=
  match fuel with
  | 0 => OutOfFuel
  | S fuel' =>
      result <- parseIdentifier tokenSet idx ;;
      let idents := idents ++ [snd result] in
      let idx := consumeToken tokenSet (fst result) tk.COLON in
      if truthy idx
      then parseObjectNameFrom fuel' tokenSet (orElse idx (fst result)) idents
      else Ok (orElse idx (fst result), mkObjectName idents)
  end.

Definition parseObjectName (fuel : nat) (tokenSet : TokenSet) (start : number)
  : Result (ParseResult ObjectName) :=
  parseObjectNameFrom fuel tokenSet start [].

Definition parseParenthesizedColumnList (fuel : nat) (tokenSet : TokenSet)
  (start : number) (isOptional : bool) : Result (ParseResult (list Ident)) :=
  let optIdx := consumeToken tokenSet start tk.LPAREN in
  if truthy optIdx then
    '(idx, idents) <- parseCommaSeparated fuel tokenSet (orElse optIdx start) parseIdentifier ;;
    idx <- expectToken tokenSet idx tk.RPAREN ;;
    Ok (idx, idents)
  else if isOptional then Ok (start, [])
  else Throw (getError (str "a list of columns in parentheses") (peekToken tokenSet start)).

(** [skipToClosingParen]: the [do ... while (lparenCounter)] loop. *)
Fixpoint skipToClosingParenFrom {T : Type} (fuel : nat) (tokenSet : TokenSet)
  (idx : number) (lparenCounter : nat) (dummy : T) : Result (ParseResult T) :=
  match fuel with
  | 0 => OutOfFuel
  | S fuel' =>
      let '(idx, token) := nextMeaningfulToken tokenSet idx in
      if identical token tk.RPAREN then
        match lparenCounter - 1 with
        | 0 => Ok (idx, dummy)
        | n => skipToClosingParenFrom fuel' tokenSet idx n dummy
        end
      else if identical token tk.LPAREN then
        skipToClosingParenFrom fuel' tokenSet idx (lparenCounter + 1) dummy
      else
        match token with
        | EOF => Throw (getError (str "')'") token)
        | Tok _ => skipToClosingParenFrom fuel' tokenSet idx lparenCounter dummy
        end
  end.

Definition skipToClosingParen {T : Type} (fuel : nat) (tokenSet : TokenSet)
  (start : number) (dummy : T) : Result (ParseResult T) :=
  skipToClosingParenFrom fuel tokenSet start 1 dummy.

(** ** parser.ts: data types and literals *)

Definition parseLiteralUint (tokenSet : TokenSet) (start : number)
  : Result (ParseResult types.JsInt) :=
  let '(idx, token) := nextMeaningfulToken tokenSet start in
  if isNumber token then Ok (idx, parseInt (valueOf token))
  else Throw (getError (str "literal int") token).

Definition parseLength (tokenSet : TokenSet) (start : number)
  : Result (ParseResult types.JsInt) :=
  idx <- expectToken tokenSet start tk.LPAREN ;;
  '(idx, length) <- parseLiteralUint tokenSet idx ;;
  idx <- expectToken tokenSet idx tk.RPAREN ;;
  Ok (idx, length).

Definition parseOptionalPrecisionScale (tokenSet : TokenSet) (start : number)
  : Result (ParseResult (option (types.JsInt * types.JsInt))) :=
  let optIdx := consumeToken tokenSet start tk.LPAREN in
  if truthy optIdx then
    '(idx, precision) <- parseLiteralUint tokenSet (orElse optIdx start) ;;
    idx <- expectToken tokenSet idx tk.COMMA ;;
    '(idx, scale) <- parseLiteralUint tokenSet idx ;;
    Ok (idx, Some (precision, scale))
  else Ok (start, None).

Definition parseOptionalPrecision (tokenSet : TokenSet) (start : number)
  : Result (ParseResult (option types.JsInt)) :=
  let optIdx := consumeToken tokenSet start tk.LPAREN in
  if truthy optIdx then
    '(idx, precision) <- parseLiteralUint tokenSet (orElse optIdx start) ;;
    idx <- expectToken tokenSet idx tk.RPAREN ;;
    Ok (idx, Some precision)
  else Ok (start, None).

Definition parseDataType (tokenSet : TokenSet) (start : number)
  : Result (ParseResult types.DataType) :=
  let '(idx, token) := nextMeaningfulToken tokenSet start in
  if isWord token then
    let value := valueOf token in
    if types.inDataTypeNameL value then
      '(idx, length) <- parseLength tokenSet idx ;;
      Ok (idx, types.mapperL value length)
    else if types.inDataTypeNameOptPS value then
      '(idx, ps) <- parseOptionalPrecisionScale tokenSet idx ;;
      Ok (idx, types.mapperOptPS value ps)
    else if types.inDataTypeNameOptP value then
      '(idx, p) <- parseOptionalPrecision tokenSet idx ;;
      Ok (idx, types.mapperOptP value p)
    else if equalToKeyword token (str "DOUBLE") then
      let '(idx, found) := parseKeyword tokenSet idx (str "PRECISION") in
      let dbl := if found then value ++ str " PRECISION" else value in
      Ok (idx, types.mapperNoArgs dbl)
    else if inKeywords token [str "TIME"; str "TIMESTAMP"] then
      let '(idx, found) := parseKeyword tokenSet idx (str "WITH") in
      let '(idx, withOrWithout) :=
        if found then (idx, true) else parseKeyword tokenSet idx (str "WITHOUT") in
      idx <- (if withOrWithout
              then expectKeywords tokenSet idx [str "TIME"; str "ZONE"]
              else Ok idx) ;;
      Ok (idx, types.mapperNoArgs value)
    else if types.inDataTypeNameNoArgs value then
      Ok (idx, types.mapperNoArgs value)
    else Throw (getError (str "a data type name") token)
  else Throw (getError (str "a data type name") token).

(** The [try ... catch] around [parseDataType]: a [ParseError] rewinds to
    [start], any other error is thrown again. *)
Definition tryParseDataType (tokenSet : TokenSet) (start : number)
  : Result (ParseResult (option types.DataType)) :=
  match parseDataType tokenSet start with
  | Ok (idx, dataType) => Ok (idx, Some dataType)
  | Throw (ParseError _) => Ok (start, None)
  | Throw err => Throw err
  | OutOfFuel => OutOfFuel
  end.

Definition expectValue (tokenSet : TokenSet) (start : number)
  : Result (ParseResult exprs.Expr) :=
  let '(idx, token) := nextMeaningfulToken tokenSet start in
  if isWord token then
    if keywords.isOneOfKeywords (valueOf token) [str "TRUE"; str "FALSE"]
    then Ok (idx, exprs.Value (values.Boolean (valueOf token)))
    else if keywords.isKeyword (valueOf token) (str "NULL")
    then Ok (idx, exprs.Value values.Null)
    else Throw (getError (str "a concrete value") token)
  else if isNumber token then Ok (idx, exprs.Value (values.Number (valueOf token)))
  else if isSingleQuotedString token
  then Ok (idx, exprs.Value (values.SingleQuotedString (contentOf token)))
  else if isNationalStringLiteral token
  then Ok (idx, exprs.Value (values.NationalStringLiteral (contentOf token) (prefixOf token)))
  else if isHexStringLiteral token
  then Ok (idx, exprs.Value (values.HexStringLiteral (contentOf token) (prefixOf token)))
  else Throw (getError (str "a value") token).

Definition expectLiteralString (tokenSet : TokenSet) (start : number)
  : Result (ParseResult (option jsstring)) :=
  let '(idx, token) := nextMeaningfulToken tokenSet start in
  if isSingleQuotedString token then Ok (idx, contentOf token)
  else Throw (getError (str "literal string") token).

(** ** parser.ts: the expression engine *)

Module PRECEDENCE.
Definition DEFAULT_0 := 0.
Definition OR_5 := 5.
Definition AND_10 := 10.
Definition UNARY_NOT_15 := 15.
Definition IS_17 := 17.
Definition BETWEEN_20 := 20.
Definition EQ_20 := 20.
Definition PIPE_21 := 21.
Definition CARET_22 := 22.
Definition AMPERSAND_23 := 23.
Definition PLUS_MINUS_30 := 30.
Definition MULT_40 := 40.
Definition DOUBLE_COLON_50 := 50.
End PRECEDENCE.

Definition Precedence := nat.

Definition getNextPrecedence (tokenSet : TokenSet) (start : number) : Precedence :=
  let '(idx, token) := nextMeaningfulToken tokenSet start in
  let ofOperator : Precedence :=
    match token with
    | Tok _ =>
        if includes [tk.EQ; tk.LT; tk.LTEQ; tk.NEQ; tk.NEQ2; tk.GT; tk.GTEQ] token
        then PRECEDENCE.EQ_20
        else if identical token PIPE then PRECEDENCE.PIPE_21
        else if includes [tk.CARET; tk.HASH; tk.SHIFT_RIGHT; tk.SHIFT_LEFT] token
        then PRECEDENCE.CARET_22
        else if identical token tk.AMPERSAND then PRECEDENCE.AMPERSAND_23
        else if includes [tk.PLUS; tk.MINUS] token then PRECEDENCE.PLUS_MINUS_30
        else if includes [tk.MULT; tk.MOD; tk.DIV; tk.CONCAT] token
        then PRECEDENCE.MULT_40
        else if includes [tk.DOUBLE_COLON; tk.EXCLAMATION_MARK] token
        then PRECEDENCE.DOUBLE_COLON_50
        else PRECEDENCE.DEFAULT_0
    | EOF => PRECEDENCE.DEFAULT_0
    end in
  if isWord token then
    if keywords.isKeyword (valueOf token) (str "OR") then PRECEDENCE.OR_5
    else if keywords.isKeyword (valueOf token) (str "AND") then PRECEDENCE.AND_10
    else if keywords.isKeyword (valueOf token) (str "NOT") then
      let '(_, token) := nextMeaningfulToken tokenSet idx in
      if inKeywords token [str "IN"; str "BETWEEN"; str "LIKE"]
      then PRECEDENCE.BETWEEN_20
      else PRECEDENCE.DEFAULT_0
    else if inKeywords token [str "IN"; str "BETWEEN"; str "LIKE"]
    then PRECEDENCE.BETWEEN_20
    else if keywords.isKeyword (valueOf token) (str "IS") then PRECEDENCE.IS_17
    else ofOperator
  else ofOperator.

Definition Expr := exprs.Expr.

(** [parseExpr] with the functions it is mutually recursive with.  Every
    call and every loop iteration takes one unit of fuel. *)
Fixpoint parseExpr (fuel : nat) (tokenSet : TokenSet) (start : number)
  (precedence : Precedence) {struct fuel} : Result (ParseResult Expr) :=
  match fuel with
  | 0 => OutOfFuel
  | S fuel' =>
      '(idx, expr) <- parsePrefix fuel' tokenSet start ;;
      parseExprFrom fuel' tokenSet idx expr precedence
  end

(** the [for (;;)] loop of [parseExpr] *)
with parseExprFrom (fuel : nat) (tokenSet : TokenSet) (idx : number) (expr : Expr)
  (precedence : Precedence) {struct fuel} : Result (ParseResult Expr) :=
  match fuel with
  | 0 => OutOfFuel
  | S fuel' =>
      let nextPrecedence := getNextPrecedence tokenSet idx in
      if nextPrecedence <=? precedence then Ok (idx, expr)
      else
        '(idx, expr) <- parseInfix fuel' tokenSet idx expr nextPrecedence ;;
        parseExprFrom fuel' tokenSet idx expr precedence
  end

with parsePrefix (fuel : nat) (tokenSet : TokenSet) (start : number) {struct fuel}
  : Result (ParseResult Expr) :=
  match fuel with
  | 0 => OutOfFuel
  | S fuel' =>
      '(idx, dataType) <- tryParseDataType tokenSet start ;;
      match dataType with
      | Some dataType =>
          '(idx, value) <- expectLiteralString tokenSet start ;;
          Ok (idx, exprs.TypedString dataType value)
      | None =>
          let prevIdx := idx in
          let '(idx, token) := nextMeaningfulToken tokenSet idx in
          (* the tests after the two on words, on [token] as it then stands *)
          let others (idx : number) (token : NextTokenResult) : Result (ParseResult Expr) :=
            if identical token tk.MULT then Ok (idx, exprs.Wildcard)
            else if identical token tk.PLUS || identical token tk.MINUS then
              '(idx, expr) <- parseExpr fuel' tokenSet idx PRECEDENCE.PLUS_MINUS_30 ;;
              Ok (idx, exprs.UnaryOp (valueOf token) expr)
            else if isNumber token || isStringLiteral token then
              expectValue tokenSet prevIdx
            else if identical token tk.LPAREN then
              skipToClosingParen fuel' tokenSet idx exprs.Subquery
            else Throw (getError (str "an expression") token) in
          (* [if (token instanceof tk.WordIdent)]: [token] becomes the token
             peeked after the word; the [while] loop over the periods leaves
             in its first iteration, by [break] or by [throw] *)
          let identifier (idx : number) (token : NextTokenResult) : Result (ParseResult Expr) :=
            if isWordIdent token then
              let word := token in
              let token := peekToken tokenSet idx in
              if identical token tk.LPAREN || identical token tk.PERIOD then
                let idents := [toIdent word] in
                let optIdx := consumeToken tokenSet idx tk.PERIOD in
                if truthy optIdx then
                  let '(idx, token) := nextMeaningfulToken tokenSet (orElse optIdx idx) in
                  if isWordIdent token
                  then Throw (getError (str "an identifier or a '*' after '.'") token)
                  else if identical token tk.MULT
                  then Ok (idx, exprs.QualifiedWildcard idents)
                  else Throw (getError (str "an identifier or a '*' after '.'") token)
                else
                  let optIdx := consumeToken tokenSet idx tk.LPAREN in
                  if truthy optIdx
                  then skipToClosingParen fuel' tokenSet idx exprs.Function
                  else Ok (idx, exprs.Identifier (toIdent word))
              else others idx token
            else others idx token in
          '(idx, expr) <-
            (if isWord token then
               let word := valueOf token in
               if keywords.isOneOfKeywords word [str "TRUE"; str "FALSE"; str "NULL"]
               then expectValue tokenSet prevIdx
               else if keywords.isKeyword word (str "CASE")
               then parseCase fuel' tokenSet idx
               else if keywords.isKeyword word (str "CAST")
               then parseCast fuel' tokenSet idx
               else if keywords.isKeyword word (str "EXISTS") then
                 idx <- expectToken tokenSet idx tk.LPAREN ;;
                 skipToClosingParen fuel' tokenSet idx exprs.Exists
               else if keywords.isKeyword word (str "EXTRACT") then
                 idx <- expectToken tokenSet idx tk.LPAREN ;;
                 skipToClosingParen fuel' tokenSet idx exprs.Extract
               else if keywords.isKeyword word (str "INTERVAL")
               then Throw (unsupportedExprssion (peekToken tokenSet idx))
               else if keywords.isKeyword word (str "LISTAGG") then
                 idx <- expectToken tokenSet idx tk.LPAREN ;;
                 skipToClosingParen fuel' tokenSet idx exprs.ListAgg
               else if keywords.isKeyword word (str "NOT") then
                 '(idx, expr) <- parseExpr fuel' tokenSet idx PRECEDENCE.DEFAULT_0 ;;
                 Ok (idx, exprs.UnaryOp (str "NOT") expr)
               else identifier idx token
             else identifier idx token) ;;
          let '(idx, found) := parseKeyword tokenSet idx (str "COLLATE") in
          if found then
            '(idx, collate) <- parseObjectName fuel' tokenSet idx ;;
            Ok (idx, exprs.Collate expr collate)
          else Ok (idx, expr)
      end
  end

with parseCast (fuel : nat) (tokenSet : TokenSet) (start : number) {struct fuel}
  : Result (ParseResult Expr) :=
  match fuel with
  | 0 => OutOfFuel
  | S fuel' =>
      idx <- expectToken tokenSet start tk.LPAREN ;;
      '(idx, expr) <- parseExpr fuel' tokenSet idx PRECEDENCE.DEFAULT_0 ;;
      idx <- expectKeyword tokenSet idx (str "AS") ;;
      '(idx, dataType) <- parseDataType tokenSet idx ;;
      idx <- expectToken tokenSet idx tk.RPAREN ;;
      Ok (idx, exprs.Cast expr dataType)
  end

with parseCase (fuel : nat) (tokenSet : TokenSet) (start : number) {struct fuel}
  : Result (ParseResult Expr) :=
  match fuel with
  | 0 => OutOfFuel
  | S fuel' =>
      let '(idx, found) := parseKeyword tokenSet start (str "WHEN") in
      '(idx, operand) <-
        (if negb found then
           '(idx, operand) <- parseExpr fuel' tokenSet idx PRECEDENCE.DEFAULT_0 ;;
           idx <- expectKeyword tokenSet idx (str "WHEN") ;;
           Ok (idx, Some operand)
         else Ok (idx, None)) ;;
      '(idx, (conditions, results)) <- parseCaseFrom fuel' tokenSet idx [] [] ;;
      let '(idx, found) := parseKeyword tokenSet idx (str "ELSE") in
      (* the cursor is not moved past the expression after ELSE *)
      elseResult <-
        (if found then
           '(_, elseResult) <- parseExpr fuel' tokenSet idx PRECEDENCE.DEFAULT_0 ;;
           Ok (Some elseResult)
         else Ok None) ;;
      idx <- expectKeyword tokenSet idx (str "END") ;;
      Ok (idx, exprs.Case operand conditions results elseResult)
  end

(** the [do ... while (found)] loop of [parseCase] *)
with parseCaseFrom (fuel : nat) (tokenSet : TokenSet) (idx : number)
  (conditions results : list Expr) {struct fuel}
  : Result (ParseResult (list Expr * list Expr)) :=
  match fuel with
  | 0 => OutOfFuel
  | S fuel' =>
      '(idx, expr) <- parseExpr fuel' tokenSet idx PRECEDENCE.DEFAULT_0 ;;
      let conditions := conditions ++ [expr] in
      idx <- expectKeyword tokenSet idx (str "WHEN") ;;
      '(idx, expr) <- parseExpr fuel' tokenSet idx PRECEDENCE.DEFAULT_0 ;;
      let results := results ++ [expr] in
      let '(idx, found) := parseKeyword tokenSet idx (str "WHEN") in
      if found then parseCaseFrom fuel' tokenSet idx conditions results
      else Ok (idx, (conditions, results))
  end

with parseInfix (fuel : nat) (tokenSet : TokenSet) (start : number) (expr : Expr)
  (precedence : Precedence) {struct fuel} : Result (ParseResult Expr) :=
  match fuel with
  | 0 => OutOfFuel
  | S fuel' =>
      let '(idx, token) := nextMeaningfulToken tokenSet start in
      match token with
      | EOF => Throw (ParseError (str "unexpected EOF while parsing infix"))
      | Tok _ =>
          if isOperator token || inKeywords token [str "AND"; str "OR"; str "LIKE"] then
            '(idx, right_) <- parseExpr fuel' tokenSet idx PRECEDENCE.DEFAULT_0 ;;
            Ok (idx, exprs.BinaryOp expr (valueOf token) right_)
          else
            let '(idx, found) := parseKeywords tokenSet idx [str "NOT"; str "LIKE"] in
            if found then
              '(idx, right_) <- parseExpr fuel' tokenSet idx precedence ;;
              Ok (idx, exprs.BinaryOp expr (str "NOT LIKE") right_)
            else
              let noInfixParser : Result (ParseResult Expr) :=
                Throw (ParseError (str "No infix parser for token " ++ valueOf token)) in
              if equalToKeyword token (str "IS") then
                let '(idx, found) := parseKeyword tokenSet idx (str "NULL") in
                if found then Ok (idx, exprs.IsNull expr)
                else
                  let '(idx, found) := parseKeywords tokenSet idx [str "NOT"; str "NULL"] in
                  if found then Ok (idx, exprs.IsNotNull expr)
                  else noInfixParser
              else if inKeywords token [str "NOT"; str "IN"; str "BETWEEN"] then
                let negated := equalToKeyword token (str "NOT") in
                let '(idx, found) := parseKeyword tokenSet idx (str "IN") in
                if found then parseIn fuel' tokenSet idx expr negated
                else
                  let '(idx, found) := parseKeyword tokenSet idx (str "BETWEEN") in
                  if found then parseBetween fuel' tokenSet idx expr negated
                  else Throw (getError (str "IN or BETWEEN after NOT") (peekToken tokenSet idx))
              else noInfixParser
      end
  end

with parseBetween (fuel : nat) (tokenSet : TokenSet) (start : number) (expr : Expr)
  (negated : bool) {struct fuel} : Result (ParseResult Expr) :=
  match fuel with
  | 0 => OutOfFuel
  | S fuel' =>
      '(idx, low) <- parseExpr fuel' tokenSet start PRECEDENCE.BETWEEN_20 ;;
      idx <- expectKeyword tokenSet idx (str "AND") ;;
      '(idx, high) <- parseExpr fuel' tokenSet idx PRECEDENCE.BETWEEN_20 ;;
      Ok (idx, exprs.Between expr negated low high)
  end

with parseIn (fuel : nat) (tokenSet : TokenSet) (start : number) (expr : Expr)
  (negated : bool) {struct fuel} : Result (ParseResult Expr) :=
  match fuel with
  | 0 => OutOfFuel
  | S fuel' =>
      idx <- expectToken tokenSet start tk.LPAREN ;;
      let '(idx, found) := parseKeywords tokenSet idx [str "SELECT"; str "WITH"] in
      if found
      then Throw (getError (str "columns (subquery is not supported)") (peekToken tokenSet idx))
      else
        '(idx, exs) <- parseCommaSeparated fuel' tokenSet idx
                         (fun tokenSet idx => parseExpr fuel' tokenSet idx PRECEDENCE.DEFAULT_0) ;;
        idx <- expectToken tokenSet idx tk.RPAREN ;;
        Ok (idx, exprs.InList expr exs negated)
  end.

(** ** parser.ts: columns, constraints and statements *)

Definition parseReferencialAction (tokenSet : TokenSet) (start : number)
  : Result (ParseResult ReferencialAction) :=
  let '(idx, found) := parseKeyword tokenSet start (str "RESTRICT") in
  if found then Ok (idx, mkReferencialAction RESTRICT) else
  let '(idx, found) := parseKeyword tokenSet idx (str "CASCADE") in
  if found then Ok (idx, mkReferencialAction CASCADE) else
  let '(idx, found) := parseKeywords tokenSet idx [str "SET"; str "NULL"] in
  if found then Ok (idx, mkReferencialAction SET_NULL) else
  let '(idx, found) := parseKeywords tokenSet idx [str "NO"; str "ACTION"] in
  if found then Ok (idx, mkReferencialAction NO_ACTION) else
  let '(idx, found) := parseKeywords tokenSet idx [str "SET"; str "DEFAULT"] in
  if found then Ok (idx, mkReferencialAction SET_DEFAULT) else
  Throw (getError (str "one of RESTRICT, CASCADE, SET NULL, NO ACTION or SET DEFAULT")
           (peekToken tokenSet idx)).

(** The [for (;;)] loop over the ON DELETE and ON UPDATE clauses of
    REFERENCES, with its state [idx], [onDelete] and [onUpdate]. *)
Fixpoint parseReferencesFrom (fuel : nat) (tokenSet : TokenSet) (idx : number)
  (onDelete onUpdate : option ReferencialAction)
  : Result (number * option ReferencialAction * option ReferencialAction) :=
  match fuel with
  | 0 => OutOfFuel
  | S fuel' =>
      match onDelete, onUpdate with
      | None, _ =>
          let '(idx, found) := parseKeywords tokenSet idx [str "ON"; str "DELETE"] in
          if found then
            '(idx, action) <- parseReferencialAction tokenSet idx ;;
            parseReferencesFrom fuel' tokenSet idx (Some action) onUpdate
          else parseReferencesFrom fuel' tokenSet idx onDelete onUpdate
      | Some _, None =>
          let '(idx, found) := parseKeywords tokenSet idx [str "ON"; str "UPDATE"] in
          if found then
            '(idx, action) <- parseReferencialAction tokenSet idx ;;
            parseReferencesFrom fuel' tokenSet idx onDelete (Some action)
          else parseReferencesFrom fuel' tokenSet idx onDelete onUpdate
      | Some _, Some _ => Ok (idx, onDelete, onUpdate)
      end
  end.

Definition parseOptionalColumnOption (fuel : nat) (tokenSet : TokenSet) (start : number)
  : Result (ParseResult (option colOpts.ColumnOption)) :=
  let '(idx, found) := parseKeywords tokenSet start [str "NOT"; str "NULL"] in
  if found then Ok (idx, Some colOpts.NotNull) else
  let '(idx, found) := parseKeyword tokenSet idx (str "NULL") in
  if found then Ok (idx, Some colOpts.Null) else
  let '(idx, found) := parseKeyword tokenSet idx (str "DEFAULT") in
  if found then
    '(idx, expr) <- parseExpr fuel tokenSet idx PRECEDENCE.DEFAULT_0 ;;
    Ok (idx, Some (colOpts.Default expr))
  else
  let '(idx, found) := parseKeywords tokenSet idx [str "PRIMARY"; str "KEY"] in
  if found then Ok (idx, Some (colOpts.Unique true)) else
  let '(idx, found) := parseKeyword tokenSet idx (str "UNIQUE") in
  if found then Ok (idx, Some (colOpts.Unique false)) else
  let '(idx, found) := parseKeyword tokenSet idx (str "REFERENCES") in
  if found then
    '(idx, foreignTable) <- parseObjectName fuel tokenSet idx ;;
    '(idx, referredColumns) <- parseParenthesizedColumnList fuel tokenSet idx true ;;
    '(idx, onDelete, onUpdate) <- parseReferencesFrom fuel tokenSet idx None None ;;
    Ok (idx, Some (colOpts.Foreign foreignTable referredColumns onDelete onUpdate))
  else
  let '(idx, found) := parseKeyword tokenSet idx (str "CHECK") in
  if found then
    idx <- expectToken tokenSet idx tk.LPAREN ;;
    '(idx, expr) <- parseExpr fuel tokenSet idx PRECEDENCE.DEFAULT_0 ;;
    idx <- expectToken tokenSet idx tk.RPAREN ;;
    Ok (idx, Some (colOpts.Check expr))
  else
  let '(idx, found) := parseKeyword tokenSet idx (str "AUTO_INCREMENT") in
  if found then Ok (idx, Some (colOpts.DiarectSpecific (str "AUTO_INCREMENT"))) else
  let '(idx, found) := parseKeyword tokenSet idx (str "AUTOINCREMENT") in
  if found then Ok (idx, Some (colOpts.DiarectSpecific (str "AUTOINCREMENT"))) else
  Ok (idx, None).

(** The [for (;;)] loop of [parseColumnDef] that collects the options. *)
Fixpoint parseColumnOptionsFrom (fuel : nat) (tokenSet : TokenSet) (idx : number)
  (options : list ColumnOptionDef) : Result (ParseResult (list ColumnOptionDef)) :=
  match fuel with
  | 0 => OutOfFuel
  | S fuel' =>
      let '(idx, found) := parseKeyword tokenSet idx (str "CONSTRAINT") in
      if found then
        '(idx, name) <- parseIdentifier tokenSet idx ;;
        '(idx, option) <- parseOptionalColumnOption fuel' tokenSet idx ;;
        match option with
        | Some option =>
            parseColumnOptionsFrom fuel' tokenSet idx
              (options ++ [mkColumnOptionDef (Some name) option])
        | None =>
            Throw (getError (str "constraint details after CONSTRAINT <name>")
                     (peekToken tokenSet idx))
        end
      else
        '(idx, option) <- parseOptionalColumnOption fuel' tokenSet idx ;;
        match option with
        | Some option =>
            parseColumnOptionsFrom fuel' tokenSet idx
              (options ++ [mkColumnOptionDef None option])
        | None => Ok (idx, options)
        end
  end.

Definition parseColumnDef (fuel : nat) (tokenSet : TokenSet) (start : number)
  : Result (ParseResult ColumnDef) :=
  '(idx, name) <- parseIdentifier tokenSet start ;;
  '(idx, dataType) <- parseDataType tokenSet idx ;;
  let '(idx, found) := parseKeyword tokenSet idx (str "COLLATE") in
  '(idx, collation) <-
    (if found then
       '(idx, collation) <- parseObjectName fuel tokenSet idx ;;
       Ok (idx, Some collation)
     else Ok (idx, None)) ;;
  '(idx, options) <- parseColumnOptionsFrom fuel tokenSet idx [] ;;
  Ok (idx, mkColumnDef name dataType collation options).

Definition parseOptionalTableConstraint (fuel : nat) (tokenSet : TokenSet) (start : number)
  : Result (ParseResult (option TableConstraint)) :=
  let '(idx, found) := parseKeyword tokenSet start (str "CONSTRAINT") in
  if negb found then Ok (start, None) else
  '(idx, name) <- parseIdentifier tokenSet idx ;;
  let '(idx, token) := nextMeaningfulToken tokenSet idx in
  let expected : Result (ParseResult (option TableConstraint)) :=
    Throw (getError (str "PRIMARY, UNIQUE, FOREIGN, or CHECK") (peekToken tokenSet idx)) in
  match token with
  | Tok _ =>
      if inKeywords token [str "PRIMARY"; str "UNIQUE"] then
        let isPrimary := equalToKeyword token (str "PRIMARY") in
        idx <- (if isPrimary then expectKeyword tokenSet idx (str "KEY") else Ok idx) ;;
        '(idx, columns) <- parseParenthesizedColumnList fuel tokenSet idx false ;;
        Ok (idx, Some (Unique (Some name) columns isPrimary))
      else if equalToKeyword token (str "FOREIGN") then
        idx <- expectKeyword tokenSet idx (str "KEY") ;;
        '(idx, columns) <- parseParenthesizedColumnList fuel tokenSet idx false ;;
        idx <- expectKeyword tokenSet idx (str "REFERENCES") ;;
        '(idx, foreignTable) <- parseObjectName fuel tokenSet idx ;;
        '(idx, referredColumns) <- parseParenthesizedColumnList fuel tokenSet idx false ;;
        Ok (idx, Some (ForeignKey (Some name) columns foreignTable referredColumns))
      else if equalToKeyword token (str "CHECK") then
        idx <- expectToken tokenSet idx tk.LPAREN ;;
        '(idx, expr) <- parseExpr fuel tokenSet idx PRECEDENCE.DEFAULT_0 ;;
        idx <- expectToken tokenSet idx tk.RPAREN ;;
        Ok (idx, Some (Check (Some name) expr))
      else expected
  | EOF => expected
  end.

Definition ColumnsAndConstraints : Type := (list ColumnDef * list TableConstraint)%type.

(** The [do ... while (optIdxRParen)] loop of [parseColumns]; every
    iteration starts again from [start]. *)
Fixpoint parseColumnsFrom (fuel : nat) (tokenSet : TokenSet) (start : number)
  (columns : list ColumnDef) (constraints : list TableConstraint)
  : Result (ParseResult ColumnsAndConstraints) :=
  match fuel with
  | 0 => OutOfFuel
  | S fuel' =>
      '(idx, optConstraints) <- parseOptionalTableConstraint fuel' tokenSet start ;;
      let constraints :=
        match optConstraints with
        | Some constraint => constraints ++ [constraint]
        | None => constraints
        end in
      let token := peekToken tokenSet idx in
      if isWordIdent token then
        '(idx, columnDef) <- parseColumnDef fuel' tokenSet idx ;;
        let columns := columns ++ [columnDef] in
        let optIdxComma := consumeToken tokenSet idx tk.COMMA in
        let optIdxRParen := consumeToken tokenSet (orElse optIdxComma idx) tk.RPAREN in
        if negb (truthy optIdxComma) && negb (truthy optIdxRParen)
        then Throw (getError (str "',' or ')' after column definition") token)
        else
          let idx := orElse optIdxRParen (orElse optIdxComma idx) in
          if truthy optIdxRParen
          then parseColumnsFrom fuel' tokenSet start columns constraints
          else Ok (idx, (columns, constraints))
      else Throw (getError (str "column name or constraint definition") token)
  end.

Definition parseColumns (fuel : nat) (tokenSet : TokenSet) (start : number)
  : Result (ParseResult ColumnsAndConstraints) :=
  if negb (truthy (consumeToken tokenSet start tk.LPAREN))
  then Ok (start, ([], []))
  else
    let optIdx := consumeToken tokenSet start tk.RPAREN in
    if truthy optIdx then Ok (orElse optIdx start, ([], []))
    else parseColumnsFrom fuel tokenSet start [] [].

Definition parseCreateTableStatement (fuel : nat) (tokenSet : TokenSet) (start : number)
  (orReplace : bool) : Result CreateTableStatement :=
  let '(idx, ifNotExists) := parseKeywords tokenSet start [str "IF"; str "NOT"; str "EXISTS"] in
  '(idx, tableName) <- parseObjectName fuel tokenSet idx ;;
  '(idx, (columns, constraints)) <- parseColumns fuel tokenSet idx ;;
  let '(idx, withoutRowid) := parseKeywords tokenSet idx [str "WITHOUT"; str "ROWID"] in
  let '(idx, withOptionsFound) := parseKeyword tokenSet idx (str "WITH") in
  '(idx, withOptions) <-
    (if withOptionsFound then
       idx <- expectToken tokenSet idx tk.LPAREN ;;
       '(idx, withOptions) <- skipToClosingParen fuel tokenSet idx [mkSqlOption] ;;
       idx <- expectToken tokenSet idx tk.RPAREN ;;
       Ok (idx, withOptions)
     else Ok (idx, [])) ;;
  let '(idx, asFound) := parseKeyword tokenSet idx (str "AS") in
  if asFound then Throw (unsupportedExprssion (peekToken tokenSet idx))
  else Ok (mkCreateTableStatement tableName columns constraints withOptions
             orReplace ifNotExists withoutRowid false).

Definition parseCreateStatement (fuel : nat) (tokenSet : TokenSet) (start : number)
  : Result CreateTableStatement :=
  let '(idx, found) := parseKeyword tokenSet start (str "CREATE") in
  if negb found then Throw (getError (str "a create statement") (peekToken tokenSet idx))
  else
    let '(idx, found) := parseKeywords tokenSet idx [str "OR"; str "REPLACE"] in
    let orReplace := found in
    parseCreateTableStatement fuel tokenSet idx orReplace.

(** The inner [for (;;)] of [parse], which skips the semicolons: the cursor
    and the flag after it. *)
Fixpoint skipSemicolons (fuel : nat) (tokenSet : TokenSet) (idx : number)
  (expectingStatementDelimiter : bool) : Result (number * bool) :=
  let optIdx := consumeToken tokenSet idx tk.SEMICOLON in
  if negb (truthy optIdx) then Ok (idx, expectingStatementDelimiter)
  else
    match fuel with
    | 0 => OutOfFuel
    | S fuel' => skipSemicolons fuel' tokenSet (orElse optIdx idx) false
    end.

(** The outer [for (;;)] of [parse] with its state; the value is the array
    [statements] when the loop is left. *)
Fixpoint parseFrom (fuel : nat) (tokenSet : TokenSet) (idx : number)
  (expectingStatementDelimiter : bool) (statements : list CreateTableStatement)
  : Result (list CreateTableStatement) :=
  match fuel with
  | 0 => OutOfFuel
  | S fuel' =>
      '(idx, expectingStatementDelimiter) <-
        skipSemicolons fuel' tokenSet idx expectingStatementDelimiter ;;
      if leb (List.length tokenSet) idx then Ok statements
      else if expectingStatementDelimiter then Throw Error
      else
        stmt <- parseCreateStatement fuel' tokenSet idx ;;
        parseFrom fuel' tokenSet idx expectingStatementDelimiter (statements ++ [stmt])
  end.

(** [parse] has no [return]: a call that comes back gives [undefined],
    whatever the array [statements] holds. *)
Definition parse (fuel : nat) (src : jsstring) : Result unit :=
  match tk.tokenize src with
  | Ok tokenSet =>
      statements <- parseFrom fuel tokenSet 0 false [] ;;
      Ok tt
  | Throw e => Throw (TokenizeFailure e)
  | OutOfFuel => OutOfFuel
  end.

(** ** Sample inputs and auxiliary notions of the properties *)

(** The token sequence of a source text, empty when the tokenizer throws. *)
Definition tokensOf (src : string) : TokenSet :=
  match tk.tokenize (str src) with
  | Ok tokenSet => tokenSet
  | _ => []
  end.

Definition sample_create : TokenSet :=
  [tk.Word (str "CREATE"); tk.SPACE; tk.Word (str "TABLE"); tk.SPACE;
   tk.Word (str "t"); tk.SPACE; tk.LPAREN; tk.Word (str "a"); tk.SPACE;
   tk.Word (str "INT"); tk.RPAREN].

Definition sample_references : TokenSet :=
  [tk.Word (str "REFERENCES"); tk.SPACE; tk.Word (str "b"); tk.COMMA].

Definition sample_references_update_first : TokenSet :=
  [tk.Word (str "REFERENCES"); tk.SPACE; tk.Word (str "b"); tk.SPACE;
   tk.Word (str "ON"); tk.SPACE; tk.Word (str "UPDATE"); tk.SPACE;
   tk.Word (str "CASCADE"); tk.SPACE;
   tk.Word (str "ON"); tk.SPACE; tk.Word (str "DELETE"); tk.SPACE;
   tk.Word (str "CASCADE"); tk.COMMA].

Definition example_source : string :=
  "CREATE TABLE t (id INT PRIMARY KEY, name VARCHAR(10) NOT NULL DEFAULT 'x')".

Definition example_tokens : TokenSet :=
  [tk.Word (str "CREATE"); tk.SPACE; tk.Word (str "TABLE"); tk.SPACE;
   tk.Word (str "t"); tk.SPACE; tk.LPAREN;
   tk.Word (str "id"); tk.SPACE; tk.Word (str "INT"); tk.SPACE;
   tk.Word (str "PRIMARY"); tk.SPACE; tk.Word (str "KEY"); tk.COMMA; tk.SPACE;
   tk.Word (str "name"); tk.SPACE; tk.Word (str "VARCHAR"); tk.LPAREN;
   tk.Num (str "10"); tk.RPAREN; tk.SPACE;
   tk.Word (str "NOT"); tk.SPACE; tk.Word (str "NULL"); tk.SPACE;
   tk.Word (str "DEFAULT"); tk.SPACE; tk.SingleQuotedString (str "'x'"); tk.RPAREN].

(** The text of a string literal between its quotes, every quote of the
    content doubled. *)
Fixpoint escapeQuotes (content : jsstring) : jsstring :=
  match content with
  | [] => []
  | c :: content' =>
      if (c =? QUOTE_CH)%N then QUOTE_CH :: QUOTE_CH :: escapeQuotes content'
      else c :: escapeQuotes content'
  end.

(** U+1F600, a character outside the Basic Multilingual Plane. *)
Definition GRINNING_FACE : jschar := 128512%N.

(** A token text [v] that is a prefix of the characters under the cursor,
    and not empty. *)
Definition startsWith (chars v : list jschar) : Prop :=
  v <> [] /\ exists tail, chars = v ++ tail.

(** Sources within the Basic Multilingual Plane: every character is one
    UTF-16 unit. *)
Definition bmp (s : jsstring) : bool := forallb (fun c => (c <? 65536)%N) s.

(** [length] counts the characters of the token text. *)
Definition lengthIsCharacters (token : tk.Token) : Prop :=
  tk.length token = List.length (tk.value token).

(** A token the statement loop steps over: whitespace, or a token whose
    text is the semicolon. *)
Definition skipped (t : tk.Token) : bool :=
  tk.isWhitespace t || jseqb (tk.value t) (tk.value tk.SEMICOLON).

(** The longest prefix of [l] whose characters satisfy [p]. *)
Fixpoint run (p : jschar -> bool) (l : list jschar) : list jschar :=
  match l with
  | [] => []
  | c :: l' => if p c then c :: run p l' else []
  end.

(** The constants of the tokenizer for whitespace, punctuation and
    operators. *)
Definition constants : list tk.Token :=
  [tk.SPACE; tk.TAB; tk.LF; tk.CRLF; tk.CR; tk.LPAREN; tk.RPAREN; tk.COMMA;
   tk.CONCAT; tk.EQ; tk.RARROW; tk.PERIOD; tk.PLUS; tk.MINUS; tk.DIV; tk.MULT;
   tk.MOD; tk.NEQ; tk.DOUBLE_EXCLAMATION_MARK; tk.EXCLAMATION_MARK; tk.LT;
   tk.LTEQ; tk.NEQ2; tk.SHIFT_LEFT; tk.GT; tk.GTEQ; tk.SHIFT_RIGHT; tk.COLON;
   tk.DOUBLE_COLON; tk.SEMICOLON; tk.BACKSLASH; tk.LBRACKET; tk.RBRACKET;
   tk.AMPERSAND; tk.CARET; tk.LBRACE; tk.RBRACE; tk.TILDE; tk.HASH; tk.ATSIGN].

(** What the tokenizer keeps for every token it builds: a token of a class
    that has constants is one of them, a token of the catch-all class holds
    one character, and the text of a token is never empty. *)
Definition wellFormed (token : tk.Token) : Prop :=
  tk.value token <> []
  /\ match token with
     | tk.Whitespace _ | tk.NewLine _ | tk.LParen _ | tk.RParen _ | tk.Comma _
     | tk.Operator _ => existsb (token_eqb token) constants = true
     | tk.Other v => List.length v = 1
     | _ => True
     end.

(** The three messages of the errors the tokenizer catches. *)
Definition lexicalFaults : list jsstring :=
  [tk.TOKENIZE_SINGLE_QUOTED_STRING_ERROR; tk.TOKENIZE_DELIMITED_STRING_ERROR;
   tk.TOKENIZE_MULTI_LINE_COMMENT_ERROR].

(** No asterisk immediately followed by a slash in [l]. *)
Fixpoint noClose (l : list jschar) : bool :=
  match l with
  | x :: (y :: _) as l' => negb ((x =? chr "*")%N && (y =? chr "/")%N) && noClose l'
  | _ => true
  end.

(** The order of the cursors: [before a b] when both are indices and [a] is
    the smaller, [notAfter a b] when [a] is at most [b] or both are
    [Infinity]. *)
Definition before (a b : number) : Prop :=
  match a, b with
  | Fin x, Fin y => x < y
  | _, _ => False
  end.

Definition notAfter (a b : number) : Prop :=
  match a, b with
  | Fin x, Fin y => x <= y
  | Infinity, Infinity => True
  | _, _ => False
  end.

(** The keywords [kws] as they stand in a source: each word after a run of
    whitespace tokens. *)
Fixpoint spaced (items : list (list tk.Token * jsstring)) : list tk.Token :=
  match items with
  | [] => []
  | (ws, kw) :: items' => ws ++ tk.Word kw :: spaced items'
  end.

(** The callback of the scan, as the rule writes it. *)
Definition delimitedAdvanceBy : tk.AdvanceBy :=
  fun _ i chars => tk.toInt (negb (charAt chars (i - 1) DQUOTE_CH)).

(** The callback of the scan, as the rule writes it. *)
Definition commentAdvanceBy : tk.AdvanceBy :=
  fun _ i chars =>
    tk.toInt (negb (charAt chars (i - 2) (chr "*") && charAt chars (i - 1) (chr "/"))).

(** What a function of the parser gives besides a result: a [ParseError]. *)
Definition parseErrorOnly {A : Type} (r : Result A) : Prop :=
  match r with
  | Ok _ | Throw (ParseError _) => True
  | _ => False
  end.

(** The depth of the parentheses after [tokens], read at depth [d]: one
    more after an opening parenthesis, one less after a closing one, and
    nothing when a closing parenthesis stands at depth 0. *)
Fixpoint depth (tokens : list tk.Token) (d : nat) : option nat :=
  match tokens with
  | [] => Some d
  | t :: tokens' =>
      if token_eqb t tk.RPAREN then
        match d with
        | 0 => None
        | S d' => depth tokens' d'
        end
      else if token_eqb t tk.LPAREN then depth tokens' (S d)
      else depth tokens' d
  end.

(** The only token whose text is the opening parenthesis is the constant
    [LPAREN]. *)
Definition opensAsConstant (t : tk.Token) : Prop :=
  jseqb (tk.value t) (tk.value tk.LPAREN) = true -> t = tk.LPAREN.

(** * Properties *)

(** ** The cursor helpers *)

Section Cursor.

Variable tokenSet : TokenSet.

Lemma peekFrom_nextFrom (rest : list tk.Token) (i : nat) :
  peekFrom rest = snd (nextFrom rest i).
Proof.
  revert i; induction rest as [|t rest IH]; intros i; simpl.
  - reflexivity.
  - destruct (tk.isWhitespace t); [apply IH | reflexivity].
Qed.

(** [peekToken] is the token of [nextMeaningfulToken]. *)
Lemma peekToken_nextMeaningfulToken (start : number) :
  peekToken tokenSet start = snd (nextMeaningfulToken tokenSet start).
Proof.
  destruct start as [i|]; simpl; [apply peekFrom_nextFrom | reflexivity].
Qed.

(** The cursor returned with a token is a successor, hence truthy. *)
Lemma nextFrom_token (rest : list tk.Token) (i : nat) (idx : number) (t : tk.Token) :
  nextFrom rest i = (idx, Tok t) -> exists n, idx = Fin (S n) /\ i <= n.
Proof.
  revert i; induction rest as [|t' rest IH]; intros i; simpl.
  - discriminate.
  - destruct (tk.isWhitespace t').
    + intros H. destruct (IH _ H) as (n & -> & Hn). exists n. split; [reflexivity | lia].
    + intros H. injection H as <- _. exists i. split; [reflexivity | lia].
Qed.

Lemma consumeToken_successor (start : number) (consumed : tk.Token) (idx : number) :
  consumeToken tokenSet start consumed = Some idx -> exists n, idx = Fin (S n).
Proof.
  unfold consumeToken, nextMeaningfulToken.
  destruct start as [i|]; [|discriminate].
  destruct (nextFrom (skipn i tokenSet) i) as [idx' [t|]] eqn:E; [|discriminate].
  destruct (jseqb _ _); [|discriminate].
  intros H; injection H as <-.
  destruct (nextFrom_token _ _ E) as (n & -> & _). now exists n.
Qed.

End Cursor.

Lemma skipn_app_length {A : Type} (pre rest : list A) :
  skipn (List.length pre) (pre ++ rest) = rest.
Proof. induction pre as [|x pre IH]; simpl; [reflexivity | exact IH]. Qed.

Lemma nextFrom_whitespace_then (ws : list tk.Token) (t : tk.Token) (rest : list tk.Token)
  (i : nat) :
  forallb tk.isWhitespace ws = true ->
  tk.isWhitespace t = false ->
  nextFrom (ws ++ t :: rest) i = (Fin (i + List.length ws + 1), Tok t).
Proof.
  revert i; induction ws as [|w ws IH]; intros i Hws Ht; simpl in *.
  - rewrite Ht. do 2 f_equal. f_equal. lia.
  - apply andb_true_iff in Hws as [Hw Hws]. rewrite Hw, (IH (S i) Hws Ht).
    do 2 f_equal. lia.
Qed.

Lemma nextFrom_whitespace_only (ws : list tk.Token) (i : nat) :
  forallb tk.isWhitespace ws = true -> nextFrom ws i = (Infinity, EOF).
Proof.
  revert i; induction ws as [|w ws IH]; intros i Hws; simpl in *.
  - reflexivity.
  - apply andb_true_iff in Hws as [Hw Hws]. rewrite Hw. now apply IH.
Qed.

(** C6, as the code has it: [nextMeaningfulToken] and [peekToken] advance
    past whitespace tokens only.  With the cursor after [pre], a run [ws] of
    whitespace tokens is skipped and the first token [t] that is not
    whitespace is returned, a comment token like any other ([isWhitespace]
    is false on [Cmmnt]), with the cursor just after it; when only
    whitespace is left the end-of-input sentinel is returned.  Hence a
    whitespace token inserted at the cursor does not change the token that
    is returned. *)
Theorem nextMeaningfulToken_skips_whitespace_only
  (pre ws : list tk.Token) (t : tk.Token) (rest : list tk.Token) :
  forallb tk.isWhitespace ws = true ->
  tk.isWhitespace t = false ->
  nextMeaningfulToken (pre ++ ws ++ t :: rest) (List.length pre)
    = (Fin (List.length pre + List.length ws + 1), Tok t)
  /\ peekToken (pre ++ ws ++ t :: rest) (List.length pre) = Tok t
  /\ nextMeaningfulToken (pre ++ ws) (List.length pre) = (Infinity, EOF)
  /\ peekToken (pre ++ ws) (List.length pre) = EOF
  /\ (forall v, tk.isWhitespace (tk.Cmmnt v) = false)
  /\ (forall w, tk.isWhitespace w = true ->
        snd (nextMeaningfulToken (pre ++ w :: ws ++ t :: rest) (List.length pre))
        = snd (nextMeaningfulToken (pre ++ ws ++ t :: rest) (List.length pre))).
Proof.
  intros Hws Ht.
  assert (H1 : nextMeaningfulToken (pre ++ ws ++ t :: rest) (List.length pre)
               = (Fin (List.length pre + List.length ws + 1), Tok t)).
  { simpl. rewrite skipn_app_length. now apply nextFrom_whitespace_then. }
  assert (H2 : nextMeaningfulToken (pre ++ ws) (List.length pre) = (Infinity, EOF)).
  { simpl. rewrite skipn_app_length. now apply nextFrom_whitespace_only. }
  repeat split.
  - exact H1.
  - now rewrite peekToken_nextMeaningfulToken, H1.
  - exact H2.
  - now rewrite peekToken_nextMeaningfulToken, H2.
  - intros w Hw. rewrite H1. simpl. rewrite skipn_app_length. simpl. rewrite Hw.
    now rewrite (nextFrom_whitespace_then ws t rest (S (List.length pre)) Hws Ht).
Qed.

Lemma nextMeaningfulToken_skips_whitespace_only_witness :
  nextMeaningfulToken
    ([tk.Word (str "CREATE")] ++ [tk.SPACE; tk.LF] ++ tk.Cmmnt (str "--c") :: [tk.Word (str "t")]) 1
  = (Fin 4, Tok (tk.Cmmnt (str "--c"))).
Proof.
  exact (proj1 (nextMeaningfulToken_skips_whitespace_only
                  [tk.Word (str "CREATE")] [tk.SPACE; tk.LF] (tk.Cmmnt (str "--c"))
                  [tk.Word (str "t")] eq_refl eq_refl)).
Defined.

(** C6, the counterexample: a comment token under the cursor is returned as
    the next token, by both helpers, and a comment between the keyword and
    the name turns a statement that parses into a syntax error. *)
Lemma comment_token_is_not_skipped :
  tk.tokenize (str "CREATE /*c*/ t")
    = Ok [tk.Word (str "CREATE"); tk.SPACE; tk.Cmmnt (str "/*c*/"); tk.SPACE;
          tk.Word (str "t")]
  /\ nextMeaningfulToken
       [tk.Word (str "CREATE"); tk.SPACE; tk.Cmmnt (str "/*c*/"); tk.SPACE;
        tk.Word (str "t")] 1
     = (Fin 3, Tok (tk.Cmmnt (str "/*c*/")))
  /\ peekToken
       [tk.Word (str "CREATE"); tk.SPACE; tk.Cmmnt (str "/*c*/"); tk.SPACE;
        tk.Word (str "t")] 1
     = Tok (tk.Cmmnt (str "/*c*/"))
  /\ parseCreateStatement 5
       [tk.Word (str "CREATE"); tk.SPACE; tk.Cmmnt (str "/*c*/"); tk.SPACE;
        tk.Word (str "t")] 0
     = Throw (ParseError (str "Expected: identifier, found: /*c*/"))
  /\ parseCreateStatement 5
       [tk.Word (str "CREATE"); tk.SPACE; tk.SPACE; tk.Word (str "t")] 0
     = Ok (mkCreateTableStatement (mkObjectName [mkIdent (str "t") None])
             [] [] [] false false true false).
Proof. vm_compute. repeat split. Qed.

(** ** Keyword sequences *)

Section Keywords.

Variable tokenSet : TokenSet.

(** A failed match rewinds to [start]. *)
Lemma parseKeywordsFrom_not_found (start cur idx : number) (kws : list jsstring) :
  parseKeywordsFrom tokenSet start cur kws = (idx, false) -> idx = start.
Proof.
  revert cur; induction kws as [|k kws IH]; intros cur; simpl.
  - discriminate.
  - destruct (ltb cur (List.length tokenSet)); [|discriminate].
    destruct (parseKeyword tokenSet cur k) as [idx' found].
    destruct found; simpl.
    + apply IH.
    + now intros H; injection H as <-.
Qed.

Lemma parseKeywords_not_found (start idx : number) (kws : list jsstring) :
  parseKeywords tokenSet start kws = (idx, false) -> idx = start.
Proof. apply parseKeywordsFrom_not_found. Qed.

Lemma parseKeywordsFrom_exhausted (start cur idx : number) (matched remaining : list jsstring) :
  parseKeywordsFrom tokenSet start cur matched = (idx, true) ->
  ltb idx (List.length tokenSet) = false ->
  parseKeywordsFrom tokenSet start cur (matched ++ remaining) = (idx, true).
Proof.
  revert cur; induction matched as [|k kws IH]; intros cur; simpl.
  - intros H Hend. injection H as ->.
    destruct remaining as [|k' rem]; simpl; [reflexivity | now rewrite Hend].
  - destruct (ltb cur (List.length tokenSet)) eqn:Hcur.
    + destruct (parseKeyword tokenSet cur k) as [idx' found].
      destruct found; simpl; [apply IH | discriminate].
    + intros H _. exact H.
Qed.

End Keywords.

(** C10, as the code has it: when the cursor is at or beyond the end of the
    token sequence before all keywords have been checked, [parseKeywords]
    reports a full match: with nothing matched ([matched] empty, [idx] the
    start) as well as after a proper prefix [matched] of the keywords has
    been matched up to the last token.  In particular a statement that ends
    immediately after the name the parser takes for the table name, as in
    [CREATE t], gets [withoutRowid = true] although the input has no
    WITHOUT ROWID. *)
Theorem parseKeywords_end_of_input_is_match
  (tokenSet : TokenSet) (start idx : number) (matched remaining : list jsstring) :
  parseKeywords tokenSet start matched = (idx, true) ->
  ltb idx (List.length tokenSet) = false ->
  parseKeywords tokenSet start (matched ++ remaining) = (idx, true)
  /\ tk.tokenize (str "CREATE t") = Ok [tk.Word (str "CREATE"); tk.SPACE; tk.Word (str "t")]
  /\ parseCreateStatement 1 [tk.Word (str "CREATE"); tk.SPACE; tk.Word (str "t")] 0
     = Ok (mkCreateTableStatement (mkObjectName [mkIdent (str "t") None])
             [] [] [] false false true false).
Proof.
  intros H Hend. split; [|split].
  - now apply parseKeywordsFrom_exhausted.
  - vm_compute. reflexivity.
  - vm_compute. reflexivity.
Qed.

Lemma parseKeywords_end_of_input_is_match_witness :
  parseKeywords [tk.Word (str "WITHOUT")] 0 ([str "WITHOUT"] ++ [str "ROWID"]) = (Fin 1, true)
  /\ parseKeywords [] 0 ([] ++ [str "WITHOUT"; str "ROWID"]) = (Fin 0, true).
Proof.
  split.
  - exact (proj1 (parseKeywords_end_of_input_is_match
                    [tk.Word (str "WITHOUT")] 0 [str "WITHOUT"] [str "ROWID"]
                    eq_refl eq_refl)).
  - exact (proj1 (parseKeywords_end_of_input_is_match
                    [] 0 [] [str "WITHOUT"; str "ROWID"] eq_refl eq_refl)).
Defined.

(** C10, the counterexample: on [CREATE TABLE t] the word TABLE is taken
    for the table name and [t] is left under the cursor, so the keywords
    WITHOUT ROWID are looked for, not found, and [withoutRowid] is false. *)
Lemma create_table_t_is_not_without_rowid :
  tk.tokenize (str "CREATE TABLE t")
    = Ok [tk.Word (str "CREATE"); tk.SPACE; tk.Word (str "TABLE"); tk.SPACE;
          tk.Word (str "t")]
  /\ parseCreateStatement 1
       [tk.Word (str "CREATE"); tk.SPACE; tk.Word (str "TABLE"); tk.SPACE;
        tk.Word (str "t")] 0
     = Ok (mkCreateTableStatement (mkObjectName [mkIdent (str "TABLE") None])
             [] [] [] false false false false).
Proof. vm_compute. split; reflexivity. Qed.

(** ** The statement loop of [parse] *)

Section StatementLoop.

Variable tokenSet : TokenSet.

Lemma skipSemicolons_none (fuel : nat) (idx : number) (flag : bool) :
  truthy (consumeToken tokenSet idx tk.SEMICOLON) = false ->
  skipSemicolons fuel tokenSet idx flag = Ok (idx, flag).
Proof. intros H. destruct fuel; simpl; now rewrite H. Qed.

(** After the semicolons have been skipped there is none under the cursor,
    and the flag is still unset. *)
Lemma skipSemicolons_result (fuel : nat) (idx idx' : number) (flag' : bool) :
  skipSemicolons fuel tokenSet idx false = Ok (idx', flag') ->
  truthy (consumeToken tokenSet idx' tk.SEMICOLON) = false /\ flag' = false.
Proof.
  revert idx; induction fuel as [|fuel IH]; intros idx; simpl;
    destruct (truthy (consumeToken tokenSet idx tk.SEMICOLON)) eqn:E; simpl;
    try discriminate.
  - intros H; injection H as <- <-. now split.
  - apply IH.
  - intros H; injection H as <- <-. now split.
Qed.

(** [parseCreateStatement] gives the statement and not the cursor after it,
    so an iteration that parses a statement leaves [idx] where it was: once
    a statement starts under the cursor the loop cannot be left by its
    [break]. *)
Lemma parseFrom_no_progress (idx : number) :
  truthy (consumeToken tokenSet idx tk.SEMICOLON) = false ->
  leb (List.length tokenSet) idx = false ->
  forall fuel statements result,
    parseFrom fuel tokenSet idx false statements <> Ok result.
Proof.
  intros Hsemi Hlen fuel; induction fuel as [|fuel IH]; intros statements result; simpl.
  - discriminate.
  - rewrite (skipSemicolons_none fuel idx false Hsemi). simpl. rewrite Hlen.
    destruct (parseCreateStatement fuel tokenSet idx) as [stmt|e|]; simpl;
      [apply IH | discriminate | discriminate].
Qed.

Lemma parseFrom_diverges (idx : number) :
  truthy (consumeToken tokenSet idx tk.SEMICOLON) = false ->
  leb (List.length tokenSet) idx = false ->
  (forall fuel e, parseCreateStatement fuel tokenSet idx <> Throw e) ->
  forall fuel statements, parseFrom fuel tokenSet idx false statements = OutOfFuel.
Proof.
  intros Hsemi Hlen Hok fuel; induction fuel as [|fuel IH]; intros statements; simpl.
  - reflexivity.
  - rewrite (skipSemicolons_none fuel idx false Hsemi). simpl. rewrite Hlen.
    destruct (parseCreateStatement fuel tokenSet idx) as [stmt|e|] eqn:E; simpl.
    + apply IH.
    + now elim (Hok fuel e).
    + reflexivity.
Qed.

(** Whenever the loop of [parse] is left normally, no statement has been
    collected: it is left only on input made of semicolons and whitespace
    before them. *)
Lemma parseFrom_returns_no_statement (fuel : nat) (idx : number)
  (result : list CreateTableStatement) :
  parseFrom fuel tokenSet idx false [] = Ok result -> result = [].
Proof.
  destruct fuel as [|fuel]; simpl; [discriminate|].
  destruct (skipSemicolons fuel tokenSet idx false) as [[idx' flag']|e|] eqn:E; simpl;
    try discriminate.
  destruct (skipSemicolons_result _ _ E) as [Hsemi ->].
  destruct (leb (List.length tokenSet) idx') eqn:Hlen.
  - now intros H; injection H as <-.
  - destruct (parseCreateStatement fuel tokenSet idx') as [stmt|e|]; simpl;
      try discriminate.
    intros H. now elim (parseFrom_no_progress idx' Hsemi Hlen fuel _ H).
Qed.

Lemma nextFrom_split (rest : list tk.Token) (i : nat) (idx : number) (t : tk.Token) :
  nextFrom rest i = (idx, Tok t) ->
  exists ws rest',
    rest = ws ++ t :: rest' /\ forallb tk.isWhitespace ws = true
    /\ idx = Fin (S (i + List.length ws)).
Proof.
  revert i; induction rest as [|t' rest IH]; intros i; simpl; [discriminate|].
  destruct (tk.isWhitespace t') eqn:E.
  - intros H. destruct (IH _ H) as (ws & rest' & -> & Hws & ->).
    exists (t' :: ws), rest'. simpl. rewrite E, Hws. repeat split. do 2 f_equal. lia.
  - intros H; injection H as <- <-. exists [], rest. repeat split. simpl. do 2 f_equal. lia.
Qed.

Lemma skipn_split {A : Type} (l pre rest : list A) (i : nat) :
  skipn i l = pre ++ rest -> skipn (i + List.length pre) l = rest.
Proof.
  intros H. rewrite Nat.add_comm, <- skipn_skipn, H. apply skipn_app_length.
Qed.

Lemma skipSemicolons_skipped (fuel : nat) (i : nat) (idx' : number) (flag flag' : bool) :
  skipSemicolons fuel tokenSet i flag = Ok (idx', flag') ->
  leb (List.length tokenSet) idx' = true ->
  forallb skipped (skipn i tokenSet) = true.
Proof.
  revert i flag; induction fuel as [|fuel IH]; intros i flag; simpl;
    destruct (truthy (consumeToken tokenSet i tk.SEMICOLON)) eqn:E; simpl;
    try discriminate.
  1, 3: intros H Hlen; injection H as <- <-; simpl in Hlen;
    apply Nat.leb_le in Hlen; now rewrite skipn_all2.
  unfold consumeToken, nextMeaningfulToken in *.
  destruct (nextFrom (skipn i tokenSet) i) as [idx [t|]] eqn:N; [|discriminate].
  destruct (jseqb (tk.value t) (tk.value tk.SEMICOLON)) eqn:V; [|discriminate].
  destruct (nextFrom_split _ _ N) as (ws & rest' & Hsplit & Hws & ->).
  simpl orElse. intros H Hlen. specialize (IH _ _ H Hlen).
  assert (Hrest : skipn (S (i + List.length ws)) tokenSet = rest').
  { replace (S (i + List.length ws)) with (i + List.length (ws ++ [t]))
      by (rewrite length_app; simpl; lia).
    apply skipn_split. now rewrite <- app_assoc. }
  rewrite Hrest in IH. rewrite Hsplit, forallb_app. simpl.
  unfold skipped at 2. rewrite V, orb_true_r, IH, andb_true_r. simpl.
  clear - Hws. induction ws as [|w ws IHws]; simpl in *; [reflexivity|].
  apply andb_true_iff in Hws as [Hw Hws]. unfold skipped at 1. now rewrite Hw, IHws.
Qed.

(** When the loop of [parse] is left normally, every token from the cursor
    on was whitespace or a semicolon: nothing else is left unconsumed. *)
Lemma parseFrom_returns_on_terminators_only (fuel : nat) (i : nat)
  (statements result : list CreateTableStatement) :
  parseFrom fuel tokenSet i false statements = Ok result ->
  forallb skipped (skipn i tokenSet) = true.
Proof.
  destruct fuel as [|fuel]; simpl; [discriminate|].
  destruct (skipSemicolons fuel tokenSet i false) as [[idx' flag']|e|] eqn:E; simpl;
    try discriminate.
  destruct (skipSemicolons_result _ _ E) as [Hsemi ->].
  destruct (leb (List.length tokenSet) idx') eqn:Hlen.
  - intros _. eapply skipSemicolons_skipped; eauto.
  - destruct (parseCreateStatement fuel tokenSet idx') as [stmt|e|]; simpl;
      try discriminate.
    intros H. now elim (parseFrom_no_progress idx' Hsemi Hlen fuel _ H).
Qed.

End StatementLoop.

(** ** The clause loop of REFERENCES *)

(** As long as [onDelete] is unset the loop looks for ON DELETE; when the
    keywords are not there nothing changes and the loop goes round again. *)
Lemma parseReferencesFrom_stuck (tokenSet : TokenSet) (idx : number)
  (onUpdate : option ReferencialAction) :
  snd (parseKeywords tokenSet idx [str "ON"; str "DELETE"]) = false ->
  forall fuel, parseReferencesFrom fuel tokenSet idx None onUpdate = OutOfFuel.
Proof.
  intros H fuel; induction fuel as [|fuel IH]; simpl; [reflexivity|].
  destruct (parseKeywords tokenSet idx [str "ON"; str "DELETE"]) as [idx' found] eqn:E.
  simpl in H; subst found.
  now rewrite (parseKeywords_not_found _ _ _ E).
Qed.


Lemma tokenize_sample_create :
  tk.tokenize (str "CREATE TABLE t (a INT)") = Ok sample_create.
Proof. vm_compute. reflexivity. Qed.

Lemma parseCreateStatement_sample_create (fuel : nat) :
  parseCreateStatement (S fuel) sample_create 0
  = Ok (mkCreateTableStatement (mkObjectName [mkIdent (str "TABLE") None])
          [] [] [] false false false false).
Proof. vm_compute. reflexivity. Qed.

(** C1, on the code: [parse] does not return on a source that holds a
    statement.  The cursor is not moved past the statement just parsed, so
    the loop parses it again and again; every amount of fuel runs out. *)
Theorem parse_never_returns_on_a_statement :
  forall fuel, parse fuel (str "CREATE TABLE t (a INT)") = OutOfFuel.
Proof.
  intros fuel. unfold parse. rewrite tokenize_sample_create.
  rewrite parseFrom_diverges; try reflexivity.
  intros [|f] e.
  - vm_compute. discriminate.
  - rewrite parseCreateStatement_sample_create. discriminate.
Qed.

(** [parse] comes back on the empty source and on a lone semicolon, with
    [undefined] and without any statement collected. *)
Lemma parse_returns_without_statements :
  parse 1 (str "") = Ok tt /\ parse 2 (str ";") = Ok tt
  /\ parseFrom 1 [] 0 false [] = Ok [].
Proof. vm_compute. repeat split. Qed.

Lemma parseOptionalColumnOption_references_diverges (tokenSet : TokenSet) :
  tokenSet = sample_references \/ tokenSet = sample_references_update_first ->
  forall fuel, parseOptionalColumnOption fuel tokenSet 0 = OutOfFuel.
Proof.
  intros H [|fuel].
  - destruct H as [-> | ->]; vm_compute; reflexivity.
  - unfold parseOptionalColumnOption.
    destruct H as [-> | ->]; cbv -[parseReferencesFrom];
      rewrite parseReferencesFrom_stuck; reflexivity.
Qed.

(** C2, on the code: the two loops named by the claim do not terminate.
    The statement loop of [parse] goes round for ever on [CREATE t], where
    a statement is parsed and the cursor stays on it; the clause loop of
    REFERENCES goes round for ever when ON DELETE does not follow (the
    column option [REFERENCES b,]), also when ON UPDATE comes first. *)
Theorem statement_and_references_loops_diverge :
  tk.tokenize (str "CREATE t") = Ok [tk.Word (str "CREATE"); tk.SPACE; tk.Word (str "t")]
  /\ (forall fuel, parse fuel (str "CREATE t") = OutOfFuel)
  /\ tk.tokenize (str "REFERENCES b,") = Ok sample_references
  /\ (forall fuel, parseOptionalColumnOption fuel sample_references 0 = OutOfFuel)
  /\ tk.tokenize (str "REFERENCES b ON UPDATE CASCADE ON DELETE CASCADE,")
     = Ok sample_references_update_first
  /\ (forall fuel,
        parseOptionalColumnOption fuel sample_references_update_first 0 = OutOfFuel).
Proof.
  assert (Htok : tk.tokenize (str "CREATE t")
                 = Ok [tk.Word (str "CREATE"); tk.SPACE; tk.Word (str "t")])
    by (vm_compute; reflexivity).
  split; [exact Htok|].
  split.
  { intros fuel. unfold parse. rewrite Htok.
    rewrite parseFrom_diverges; try reflexivity.
    intros [|f] e; vm_compute; discriminate. }
  split; [vm_compute; reflexivity|].
  split; [apply parseOptionalColumnOption_references_diverges; now left|].
  split; [vm_compute; reflexivity|].
  apply parseOptionalColumnOption_references_diverges; now right.
Qed.

(** ** Column lists *)

(** The loop of [parseColumns] starts every iteration at [start], the
    cursor in front of the opening parenthesis, so the first token it meets
    is the parenthesis: a column list that is not empty is always rejected. *)
Lemma parseColumns_rejects_open_paren (tokenSet : TokenSet) (start : number) (fuel : nat) :
  peekToken tokenSet start = Tok tk.LPAREN ->
  parseColumns (S fuel) tokenSet start
  = Throw (ParseError (str "Expected: column name or constraint definition, found: (")).
Proof.
  intros Hpeek.
  assert (Hnext : exists idx, nextMeaningfulToken tokenSet start = (idx, Tok tk.LPAREN)
                              /\ truthy (Some idx) = true).
  { rewrite peekToken_nextMeaningfulToken in Hpeek.
    destruct (nextMeaningfulToken tokenSet start) as [idx token] eqn:E.
    simpl in Hpeek; subst token. exists idx; split; [reflexivity|].
    destruct start as [i|]; simpl in E; [|discriminate].
    destruct (nextFrom_token _ _ E) as (n & -> & _). reflexivity. }
  destruct Hnext as (idx & Hnext & Htruthy).
  unfold parseColumns, consumeToken. rewrite Hnext. simpl jseqb. cbv iota beta.
  rewrite Htruthy. simpl.
  unfold parseOptionalTableConstraint, parseKeyword. rewrite Hpeek. simpl.
  rewrite Hpeek. reflexivity.
Qed.

Lemma tokenize_example : tk.tokenize (str example_source) = Ok example_tokens.
Proof. vm_compute. reflexivity. Qed.

(** Called with the cursor on each of the two column definitions of the
    example, [parseColumnDef] gives the columns the design document
    describes, except that the content of the string after DEFAULT is
    [undefined]. *)
Lemma example_columns_in_isolation (fuel : nat) :
  parseColumnDef (5 + fuel) example_tokens 7
  = Ok (Fin 14,
        mkColumnDef (mkIdent (str "id") None) (types.ofNoArgs (str "INT")) None
          [mkColumnOptionDef None (colOpts.Unique true)])
  /\ parseColumnDef (5 + fuel) example_tokens 15
     = Ok (Fin 30,
           mkColumnDef (mkIdent (str "name") None)
             (types.ofLength (str "VARCHAR") (types.Int 10)) None
             [mkColumnOptionDef None colOpts.NotNull;
              mkColumnOptionDef None
                (colOpts.Default (exprs.Value (values.SingleQuotedString None)))]).
Proof. split; vm_compute; reflexivity. Qed.

(** C3, on the code: for the example of the design document
    [parseCreateStatement] gives a statement named TABLE without any column
    (the word TABLE is taken for the name, and the name [t] that follows is
    not an opening parenthesis); [parse] itself does not return, and
    [parseColumns] with the cursor after [t] rejects the column list. *)
Theorem example_statement_has_no_columns :
  tk.tokenize (str example_source) = Ok example_tokens
  /\ (forall fuel,
        parseCreateStatement (S fuel) example_tokens 0
        = Ok (mkCreateTableStatement (mkObjectName [mkIdent (str "TABLE") None])
                [] [] [] false false false false))
  /\ (forall fuel, parse fuel (str example_source) = OutOfFuel)
  /\ (forall fuel,
        parseColumns (S fuel) example_tokens 5
        = Throw (ParseError
                   (str "Expected: column name or constraint definition, found: ("))).
Proof.
  assert (Hstmt : forall fuel,
             parseCreateStatement (S fuel) example_tokens 0
             = Ok (mkCreateTableStatement (mkObjectName [mkIdent (str "TABLE") None])
                     [] [] [] false false false false))
    by (intros fuel; vm_compute; reflexivity).
  split; [exact tokenize_example|].
  split; [exact Hstmt|].
  split.
  - intros fuel. unfold parse. rewrite tokenize_example.
    rewrite parseFrom_diverges; try reflexivity.
    intros [|f] e; [vm_compute; discriminate | rewrite Hstmt; discriminate].
  - intros fuel. now apply parseColumns_rejects_open_paren.
Qed.

(** ** Expressions *)

(** C4, on the code: the three expressions of the claim are rejected, since
    a plain identifier that is followed by an operator is not accepted by
    [parsePrefix] (the identifier is returned only inside the test for a
    following parenthesis or period).  On operands that are accepted, the
    right-hand side of a binary operator is parsed with the default
    threshold 0 and not with the precedence of the operator, so that
    [1 * 2 + 3] groups as [1 * (2 + 3)]. *)
Theorem identifiers_and_precedence_of_binary_operators :
  tk.tokenize (str "a OR b AND c")
    = Ok [tk.Word (str "a"); tk.SPACE; tk.Word (str "OR"); tk.SPACE;
          tk.Word (str "b"); tk.SPACE; tk.Word (str "AND"); tk.SPACE;
          tk.Word (str "c")]
  /\ (forall fuel,
        parseExpr (2 + fuel) (tokensOf "a OR b AND c") 0 PRECEDENCE.DEFAULT_0
        = Throw (ParseError (str "Expected: an expression, found: OR")))
  /\ (forall fuel,
        parseExpr (20 + fuel) (tokensOf "a + b * c") 0 PRECEDENCE.DEFAULT_0
        = Throw (ParseError (str "Expected: an expression, found: EOF")))
  /\ (forall fuel,
        parseExpr (2 + fuel) (tokensOf "a::int + 1") 0 PRECEDENCE.DEFAULT_0
        = Throw (ParseError (str "Expected: an expression, found: ::")))
  /\ (forall fuel,
        parseExpr (20 + fuel) (tokensOf "1 * 2 + 3") 0 PRECEDENCE.DEFAULT_0
        = Ok (Fin 9,
              exprs.BinaryOp (exprs.Value (values.Number (str "1"))) (str "*")
                (exprs.BinaryOp (exprs.Value (values.Number (str "2"))) (str "+")
                   (exprs.Value (values.Number (str "3")))))).
Proof.
  split; [vm_compute; reflexivity|].
  repeat split; intros fuel; vm_compute; reflexivity.
Qed.

(** On number operands the expressions of the claim group as it says. *)
Lemma precedence_on_literals (fuel : nat) :
  parseExpr (20 + fuel) (tokensOf "1 OR 2 AND 3") 0 PRECEDENCE.DEFAULT_0
  = Ok (Fin 9,
        exprs.BinaryOp (exprs.Value (values.Number (str "1"))) (str "OR")
          (exprs.BinaryOp (exprs.Value (values.Number (str "2"))) (str "AND")
             (exprs.Value (values.Number (str "3")))))
  /\ parseExpr (20 + fuel) (tokensOf "1 + 2 * 3") 0 PRECEDENCE.DEFAULT_0
     = Ok (Fin 9,
           exprs.BinaryOp (exprs.Value (values.Number (str "1"))) (str "+")
             (exprs.BinaryOp (exprs.Value (values.Number (str "2"))) (str "*")
                (exprs.Value (values.Number (str "3"))))).
Proof. split; vm_compute; reflexivity. Qed.

(** C5, on the code: both expressions of the claim are rejected, alone and
    inside CHECK, because of the identifier on the left.  With a literal on
    the left NOT BETWEEN gives the node of the claim, and BETWEEN without
    NOT is still rejected: [parseInfix] has consumed the word BETWEEN when
    it looks for it. *)
Theorem between_is_rejected :
  tk.tokenize (str "x BETWEEN 1 AND 10")
    = Ok [tk.Word (str "x"); tk.SPACE; tk.Word (str "BETWEEN"); tk.SPACE;
          tk.Num (str "1"); tk.SPACE; tk.Word (str "AND"); tk.SPACE;
          tk.Num (str "10")]
  /\ (forall fuel,
        parseExpr (2 + fuel) (tokensOf "x BETWEEN 1 AND 10") 0 PRECEDENCE.DEFAULT_0
        = Throw (ParseError (str "Expected: an expression, found: BETWEEN")))
  /\ (forall fuel,
        parseExpr (2 + fuel) (tokensOf "x NOT BETWEEN 1 AND 10") 0 PRECEDENCE.DEFAULT_0
        = Throw (ParseError (str "Expected: an expression, found: NOT")))
  /\ (forall fuel,
        parseOptionalColumnOption (2 + fuel) (tokensOf "CHECK (x BETWEEN 1 AND 10)") 0
        = Throw (ParseError (str "Expected: an expression, found: BETWEEN")))
  /\ (forall fuel,
        parseOptionalColumnOption (2 + fuel) (tokensOf "CHECK (x NOT BETWEEN 1 AND 10)") 0
        = Throw (ParseError (str "Expected: an expression, found: NOT")))
  /\ (forall fuel,
        parseExpr (20 + fuel) (tokensOf "5 BETWEEN 1 AND 10") 0 PRECEDENCE.DEFAULT_0
        = Throw (ParseError (str "Expected: IN or BETWEEN after NOT, found: 1")))
  /\ (forall fuel,
        parseExpr (20 + fuel) (tokensOf "5 NOT BETWEEN 1 AND 10") 0 PRECEDENCE.DEFAULT_0
        = Ok (Fin 11,
              exprs.Between (exprs.Value (values.Number (str "5"))) true
                (exprs.Value (values.Number (str "1")))
                (exprs.Value (values.Number (str "10"))))).
Proof.
  split; [vm_compute; reflexivity|].
  repeat split; intros fuel; vm_compute; reflexivity.
Qed.

(** ** The tokenizer: errors *)

(** C8, on the code: [takeWhileOrError] throws when its scan stops exactly
    at the end of the characters, whether or not the literal was closed
    there.  A closed string, delimited identifier or block comment that ends
    the source is reported as unterminated, and an opening quote, an opening
    delimiter or [/*] (also with one more character) that ends the source
    is not reported at all. *)
Theorem literal_at_end_of_source_throws :
  tk.tokenize (str "'x'")
    = Throw (tk.mkTokenizeError (str "Tokenize error") 1 1
               (str "Unterminated string literal"))
  /\ tk.tokenize (str "SELECT 'x'")
     = Throw (tk.mkTokenizeError (str "Tokenize error") 1 8
                (str "Unterminated string literal"))
  /\ tk.tokenize [DQUOTE_CH; chr "a"; DQUOTE_CH]
     = Throw (tk.mkTokenizeError (str "Tokenize error") 1 1
                tk.TOKENIZE_DELIMITED_STRING_ERROR)
  /\ tk.tokenize (str "/* */")
     = Throw (tk.mkTokenizeError (str "Tokenize error") 1 1
                (str "Unexpected EOF while in a multi-line comment"))
  /\ tk.tokenize (str "a '") = Ok [tk.Word (str "a"); tk.SPACE; tk.SingleQuotedString (str "'")]
  /\ tk.tokenize [chr "a"; DQUOTE_CH] = Ok [tk.Word (str "a"); tk.Word [DQUOTE_CH]]
  /\ tk.tokenize (str "a /*") = Ok [tk.Word (str "a"); tk.SPACE; tk.Cmmnt (str "/*")]
  /\ tk.tokenize (str "/*a") = Ok [tk.Cmmnt (str "/*a")].
Proof. vm_compute. repeat split. Qed.

(** The faults the design document names are reported when more than one
    character follows the opening, with the position of the token, and a
    character without a rule becomes a token of the catch-all class. *)
Lemma unterminated_literals_throw :
  tk.tokenize (str "CREATE TABLE t (a CHAR DEFAULT 'abc")
    = Throw (tk.mkTokenizeError (str "Tokenize error") 1 32
               (str "Unterminated string literal"))
  /\ tk.tokenize (str "a /* b")
     = Throw (tk.mkTokenizeError (str "Tokenize error") 1 3
                (str "Unexpected EOF while in a multi-line comment"))
  /\ tk.tokenize (str "a ? b")
     = Ok [tk.Word (str "a"); tk.SPACE; tk.Other (str "?"); tk.SPACE; tk.Word (str "b")].
Proof. vm_compute. repeat split. Qed.

(** ** The tokenizer: single-quoted strings *)

Lemma firstn_app_length {A : Type} (l1 l2 : list A) :
  firstn (List.length l1) (l1 ++ l2) = l1.
Proof. induction l1 as [|x l1 IH]; simpl; [reflexivity | now rewrite IH]. Qed.

Lemma nth_error_after {A : Type} (pre rest : list A) (k : nat) :
  nth_error (pre ++ rest) (List.length pre + k) = nth_error rest k.
Proof. induction pre as [|x pre IH]; simpl; [reflexivity | exact IH]. Qed.

Lemma charAt_after (pre rest : list jschar) (c : jschar) :
  charAt (pre ++ rest) (List.length pre + 1 - 1) c = charAt rest 0 c.
Proof.
  unfold charAt. replace (List.length pre + 1 - 1) with (List.length pre + 0) by lia.
  now rewrite nth_error_after.
Qed.

(** [lia] after the type synonyms have been unfolded, which otherwise keep
    two spellings of one length apart. *)
Ltac arith := unfold jsstring, jschar in *; lia.

Lemma advanceBy_after (pre : list jschar) (x : jschar) (rest : list jschar) (y : jschar) :
  tk.tokenizeSingleQuotedStringAdvanceBy y (List.length pre + 1) (pre ++ x :: rest)
  = if (x =? QUOTE_CH)%N then (if (y =? QUOTE_CH)%N then 2 else 0) else 1.
Proof.
  unfold tk.tokenizeSingleQuotedStringAdvanceBy.
  rewrite charAt_after. unfold charAt. simpl nth_error.
  destruct (x =? QUOTE_CH)%N; reflexivity.
Qed.





(** ** The tokenizer: length of a token and length of its text *)

(** C7, on the code: [tokenize] works on the code points of the source but
    moves its cursor by [token.length], which counts UTF-16 units.  The
    token of a character outside the Basic Multilingual Plane has length 2
    and holds one character, so the character after it is skipped: the
    values of the tokens do not give the source back. *)
Theorem astral_character_hides_the_next :
  tk.tokenize [GRINNING_FACE; chr "a"] = Ok [tk.Other [GRINNING_FACE]]
  /\ tk.joinValues [tk.Other [GRINNING_FACE]] <> [GRINNING_FACE; chr "a"]
  /\ tk.length (tk.Other [GRINNING_FACE]) = 2
  /\ List.length (tk.value (tk.Other [GRINNING_FACE])) = 1.
Proof.
  split; [vm_compute; reflexivity|].
  split; [discriminate|].
  split; reflexivity.
Qed.

(** ** The tokenizer: termination and the text of the tokens *)

Section Scan.

Variable advanceBy : tk.AdvanceBy.

(** The scan index never moves back. *)
Lemma advance_ge (fuel : nat) (chars : list jschar) (i j : nat) :
  tk.advance fuel chars i advanceBy = Some j -> i <= j.
Proof.
  revert i; induction fuel as [|fuel IH]; intros i; simpl;
    destruct (nth_error chars i) as [c|];
    try (intros H; injection H as <-; arith);
    destruct (advanceBy c i chars) as [|by_];
    try (intros H; injection H as <-; arith);
    try discriminate.
  intros H. apply IH in H. arith.
Qed.

(** The fuel [chars.length] is never used up: every round of the loop moves
    the index, and the loop stops at the end of the characters. *)
Lemma advance_total (fuel : nat) (chars : list jschar) (i : nat) :
  List.length chars <= fuel + i -> tk.advance fuel chars i advanceBy <> None.
Proof.
  revert i; induction fuel as [|fuel IH]; intros i Hlen; simpl;
    destruct (nth_error chars i) as [c|] eqn:E; try discriminate;
    destruct (advanceBy c i chars) as [|by_]; try discriminate.
  - assert (i < List.length chars) by (apply nth_error_Some; congruence). arith.
  - apply IH. arith.
Qed.

End Scan.

Lemma firstn_startsWith (chars : list jschar) (k : nat) :
  chars <> [] -> 1 <= k -> startsWith chars (firstn k chars).
Proof.
  intros Hne Hk. split.
  - destruct chars as [|c chars]; [congruence|].
    destruct k as [|k]; [arith | simpl; discriminate].
  - exists (skipn k chars). symmetry. apply firstn_skipn.
Qed.

Lemma takeWhile_startsWith (chars : list jschar) (testStart : nat) (f : tk.AdvanceBy)
  (s : jsstring) :
  chars <> [] -> 1 <= testStart ->
  tk.takeWhile chars testStart f = Ok s -> startsWith chars s.
Proof.
  intros Hne Hstart. unfold tk.takeWhile.
  destruct (tk.advance _ chars testStart f) as [i|] eqn:E; [|discriminate].
  intros H; injection H as <-. apply advance_ge in E.
  apply firstn_startsWith; [assumption|].
  destruct chars; [congruence | simpl List.length; arith].
Qed.

Lemma takeWhileOrError_startsWith (chars : list jschar) (testStart : nat)
  (f : tk.AdvanceBy) (msg s : jsstring) :
  chars <> [] -> 1 <= testStart ->
  tk.takeWhileOrError chars testStart f msg = Ok s -> startsWith chars s.
Proof.
  intros Hne Hstart. unfold tk.takeWhileOrError.
  destruct (tk.advance _ chars testStart f) as [i|] eqn:E; [|discriminate].
  destruct (i =? List.length chars); [discriminate|].
  intros H; injection H as <-. apply advance_ge in E.
  apply firstn_startsWith; [assumption | arith].
Qed.

Lemma takeWhile_fuel (chars : list jschar) (testStart : nat) (f : tk.AdvanceBy) :
  tk.takeWhile chars testStart f <> OutOfFuel.
Proof.
  unfold tk.takeWhile.
  destruct (tk.advance _ chars testStart f) eqn:E; [discriminate|].
  now apply advance_total in E; [|arith].
Qed.

Lemma takeWhileOrError_fuel (chars : list jschar) (testStart : nat) (f : tk.AdvanceBy)
  (msg : jsstring) :
  tk.takeWhileOrError chars testStart f msg <> OutOfFuel.
Proof.
  unfold tk.takeWhileOrError.
  destruct (tk.advance _ chars testStart f) as [i|] eqn:E.
  - destruct (i =? List.length chars); discriminate.
  - now apply advance_total in E; [|arith].
Qed.

Lemma charAt_1 (c : jschar) (rest : list jschar) (x : jschar) :
  charAt (c :: rest) 1 x = true -> exists rest', rest = x :: rest'.
Proof.
  unfold charAt; simpl. destruct rest as [|y rest]; simpl; [discriminate|].
  intros H. apply N.eqb_eq in H as ->. now exists rest.
Qed.

(** The three kinds of rule. *)
Lemma word_rule (chars : list jschar) (token : tk.Token) :
  chars <> [] ->
  (s <- tk.tokenizeIdentifier chars ;; Ok (tk.Word s)) = Ok token ->
  startsWith chars (tk.value token).
Proof.
  intros Hne. unfold tk.tokenizeIdentifier.
  destruct (tk.takeWhile chars 1 _) as [s| |] eqn:E; simpl; try discriminate.
  intros H; injection H as <-. simpl. eapply takeWhile_startsWith; eauto.
Qed.

Lemma stringOrWord_rule (mk : jsstring -> jsstring -> tk.Token) (c : jschar)
  (rest : list jschar) (token : tk.Token) :
  (forall content prefix, tk.value (mk content prefix) = prefix ++ content) ->
  tk.stringOrWord mk (c :: rest) = Ok token ->
  startsWith (c :: rest) (tk.value token).
Proof.
  intros Hmk. unfold tk.stringOrWord.
  destruct (charAt (c :: rest) 1 QUOTE_CH) eqn:E1.
  - destruct (charAt_1 _ _ _ E1) as [rest' ->].
    unfold tk.tokenizeSingleQuotedString. simpl skipn.
    destruct (tk.takeWhileOrError _ 2 _ _) as [s| |] eqn:E; simpl; try discriminate.
    intros H; injection H as <-. rewrite Hmk.
    apply takeWhileOrError_startsWith in E; [|discriminate | arith].
    destruct E as [_ [tail ->]]. split; [discriminate|].
    exists tail. reflexivity.
  - apply word_rule. discriminate.
Qed.

Ltac split_rule :=
  match goal with
  | |- context [if (?c =? ?k)%N then _ else _] => destruct (N.eqb_spec c k) as [->|?]
  | |- context [if charAt ?chars 1 ?k then _ else _] =>
      let E := fresh "E" in
      destruct (charAt chars 1 k) eqn:E;
      [apply charAt_1 in E; destruct E as [? ->]|]
  end.

Ltac solve_rule :=
  simpl; intros;
  match goal with
  | H : Ok _ = Ok _ |- _ =>
      injection H as <-; split; [discriminate | eexists; reflexivity]
  | H : tk.stringOrWord _ _ = Ok _ |- _ =>
      apply stringOrWord_rule in H; [exact H | reflexivity]
  | H : bind (tk.tokenizeIdentifier _) _ = Ok _ |- _ =>
      apply word_rule in H; [exact H | discriminate]
  end.

(** Every rule gives a token whose text is a prefix, not empty, of the
    characters it was given. *)
Lemma applyRule_startsWith (c : jschar) (rest : list jschar) (token : tk.Token) :
  tk.applyRule c (c :: rest) = Ok token ->
  startsWith (c :: rest) (tk.value token).
Proof.
  unfold tk.applyRule, tk.keyOf.
  destruct (existsb (N.eqb c) (str "NXx")); [|destruct (tk.isIdentifierStart c);
    [|destruct (tk.isDelimiteddIdentifierStart c); [|destruct (tk.isDigit c)]]].
  2: { solve_rule. }
  2: { simpl. destruct (tk.takeWhileOrError _ 2 _ _) as [s| |] eqn:E; simpl; try discriminate.
       intros H; injection H as <-. simpl.
       eapply takeWhileOrError_startsWith; [| | exact E]; [discriminate | arith]. }
  2: { simpl. destruct (tk.takeWhile _ 1 _) as [s| |] eqn:E; simpl; try discriminate.
       intros H; injection H as <-. simpl.
       eapply takeWhile_startsWith; [| | exact E]; [discriminate | arith]. }
  all: unfold tk.rule, tk.constant; repeat split_rule; try solve [solve_rule].
  all: simpl.
  all: try (destruct (tk.tokenizeSingleQuotedString _) as [s| |] eqn:E; simpl; try discriminate;
            intros H; injection H as <-; simpl;
            eapply takeWhileOrError_startsWith; [| | exact E]; [discriminate | arith]).
  all: try (destruct (tk.takeWhile _ 2 _) as [s| |] eqn:E; simpl; try discriminate;
            intros H; injection H as <-; simpl;
            eapply takeWhile_startsWith; [| | exact E]; [discriminate | arith]).
  all: try (destruct (tk.takeWhileOrError _ 4 _ _) as [s| |] eqn:E; simpl; try discriminate;
            intros H; injection H as <-; simpl;
            eapply takeWhileOrError_startsWith; [| | exact E]; [discriminate | arith]).
Qed.

Lemma bind_fuel {E A B : Type} (m : outcome E A) (k : A -> outcome E B) :
  m <> OutOfFuel -> (forall a, k a <> OutOfFuel) -> bind m k <> OutOfFuel.
Proof. destruct m; simpl; intros Hm Hk; [apply Hk | discriminate | congruence]. Qed.

Ltac solve_fuel :=
  simpl;
  repeat match goal with
         | |- bind _ _ <> OutOfFuel => apply bind_fuel; [|intros; discriminate]
         | |- tk.tokenizeIdentifier _ <> OutOfFuel => apply takeWhile_fuel
         | |- tk.tokenizeSingleQuotedString _ <> OutOfFuel => apply takeWhileOrError_fuel
         | |- tk.takeWhile _ _ _ <> OutOfFuel => apply takeWhile_fuel
         | |- tk.takeWhileOrError _ _ _ _ <> OutOfFuel => apply takeWhileOrError_fuel
         | |- context [if charAt ?chars 1 ?k then _ else _] => destruct (charAt chars 1 k)
         | |- Ok _ <> OutOfFuel => discriminate
         end.

(** No rule runs out of fuel. *)
Lemma applyRule_fuel (c : jschar) (chars : list jschar) :
  tk.applyRule c chars <> OutOfFuel.
Proof.
  unfold tk.applyRule, tk.keyOf.
  destruct (existsb (N.eqb c) (str "NXx")); [|destruct (tk.isIdentifierStart c);
    [|destruct (tk.isDelimiteddIdentifierStart c); [|destruct (tk.isDigit c)]]].
  2-4: solve_fuel.
  all: unfold tk.rule, tk.constant, tk.stringOrWord;
    repeat match goal with
           | |- context [if (?c =? ?k)%N then _ else _] => destruct (c =? k)%N
           end;
    solve_fuel.
Qed.

Lemma units_positive (c : jschar) : 1 <= units c.
Proof. unfold units. destruct (c <? 65536)%N; arith. Qed.

Lemma jslength_positive (s : jsstring) : s <> [] -> 1 <= jslength s.
Proof.
  destruct s as [|c s]; [congruence|]. intros _. simpl.
  pose proof (units_positive c). arith.
Qed.

Lemma skipn_nth_error {A : Type} (l : list A) (i : nat) (x : A) :
  nth_error l i = Some x -> skipn i l = x :: skipn (S i) l.
Proof.
  revert i; induction l as [|y l IH]; intros [|i]; simpl; try discriminate.
  - now intros H; injection H as <-.
  - apply IH.
Qed.

Lemma tokenizeLoop_total (fuel : nat) (chars : list jschar) (i row col : nat)
  (tokens : tk.TokenSet) :
  List.length chars <= fuel + i ->
  tk.tokenizeLoop fuel chars i row col tokens <> OutOfFuel.
Proof.
  revert i row col tokens; induction fuel as [|fuel IH]; intros i row col tokens Hlen;
    simpl; destruct (nth_error chars i) as [c|] eqn:E; try discriminate.
  - assert (i < List.length chars) by (apply nth_error_Some; congruence). arith.
  - destruct (tk.applyRule c (skipn i chars)) as [token|e|] eqn:R.
    + rewrite (skipn_nth_error _ _ E) in R.
      apply applyRule_startsWith in R. destruct R as [Hne _].
      pose proof (jslength_positive Hne) as Hpos. fold (tk.length token) in Hpos.
      destruct (tk.isNewLine token); apply IH; arith.
    + discriminate.
    + now elim (applyRule_fuel c (skipn i chars)).
Qed.

(** [tokenize] terminates on every source: it returns the tokens or throws. *)
Theorem tokenize_total (src : jsstring) : tk.tokenize src <> OutOfFuel.
Proof. apply tokenizeLoop_total. arith. Qed.

Lemma jslength_bmp (s : jsstring) : bmp s = true -> jslength s = List.length s.
Proof.
  induction s as [|c s IH]; simpl; [reflexivity|].
  intros H. apply andb_true_iff in H as [Hc Hs].
  unfold units. rewrite Hc, (IH Hs). reflexivity.
Qed.

Lemma joinValues_snoc (tokens : tk.TokenSet) (token : tk.Token) :
  tk.joinValues (tokens ++ [token]) = tk.joinValues tokens ++ tk.value token.
Proof.
  unfold tk.joinValues. rewrite map_app, concat_app. simpl. now rewrite app_nil_r.
Qed.

Lemma tokenizeLoop_lossless (fuel : nat) (chars : list jschar) :
  bmp chars = true ->
  forall (i row col : nat) (tokens result : tk.TokenSet),
    i <= List.length chars ->
    tk.joinValues tokens = firstn i chars ->
    Forall lengthIsCharacters tokens ->
    tk.tokenizeLoop fuel chars i row col tokens = Ok result ->
    tk.joinValues result = chars /\ Forall lengthIsCharacters result.
Proof.
  intros Hbmp. induction fuel as [|fuel IH]; intros i row col tokens result Hi Hjoin Hall;
    simpl; destruct (nth_error chars i) as [c|] eqn:E; try discriminate.
  1, 3: intros H; injection H as <-; split; [|assumption];
    rewrite Hjoin; apply firstn_all2; now apply nth_error_None.
  destruct (tk.applyRule c (skipn i chars)) as [token|e|] eqn:R; try discriminate.
  rewrite (skipn_nth_error _ _ E) in R. apply applyRule_startsWith in R.
  rewrite <- (skipn_nth_error _ _ E) in R. destruct R as [Hne [tail Htail]].
  assert (Hchars : chars = firstn i chars ++ tk.value token ++ tail).
  { rewrite <- Htail. symmetry. apply firstn_skipn. }
  assert (Hlen : tk.length token = List.length (tk.value token)).
  { unfold tk.length. apply jslength_bmp.
    rewrite Hchars in Hbmp. unfold bmp in Hbmp |- *.
    rewrite !forallb_app in Hbmp.
    apply andb_true_iff in Hbmp as [_ Hbmp]. now apply andb_true_iff in Hbmp as [Hbmp _]. }
  assert (Hfirst : List.length (firstn i chars) = i) by (apply firstn_length_le; exact Hi).
  pose proof (f_equal (@List.length jschar) Hchars) as Hsize.
  rewrite !length_app, Hfirst in Hsize.
  assert (Hi' : i + tk.length token <= List.length chars) by (rewrite Hlen; arith).
  assert (Hjoin' : tk.joinValues (tokens ++ [token]) = firstn (i + tk.length token) chars).
  { rewrite joinValues_snoc, Hjoin, Hlen.
    transitivity (firstn (i + List.length (tk.value token))
                    ((firstn i chars ++ tk.value token) ++ tail)).
    - replace (i + List.length (tk.value token))
        with (List.length (firstn i chars ++ tk.value token))
        by (rewrite length_app; arith).
      now rewrite firstn_app_length.
    - rewrite <- app_assoc. now rewrite <- Hchars. }
  assert (Hall' : Forall lengthIsCharacters (tokens ++ [token])).
  { apply Forall_app. split; [assumption | now constructor]. }
  destruct (tk.isNewLine token); apply IH; assumption.
Qed.

(** Within the Basic Multilingual Plane tokenization is lossless: when such
    a source tokenizes, the length of every token is the number of
    characters of its text and the texts, joined in order, are the source. *)
Theorem tokenize_lossless_bmp (src : jsstring) (tokens : tk.TokenSet) :
  bmp src = true ->
  tk.tokenize src = Ok tokens ->
  tk.joinValues tokens = src /\ Forall lengthIsCharacters tokens.
Proof.
  intros Hbmp H.
  eapply tokenizeLoop_lossless with (i := 0) (tokens := []);
    [exact Hbmp | arith | reflexivity | constructor | exact H].
Qed.

Lemma tokenize_lossless_bmp_example :
  tk.joinValues example_tokens = str example_source.
Proof. exact (proj1 (@tokenize_lossless_bmp (str example_source) _ eq_refl tokenize_example)). Qed.

(** * Further properties of the tokenizer *)

(** ** What every token satisfies *)

Lemma tokenizeLoop_Forall (P : tk.Token -> Prop) :
  (forall c rest token, tk.applyRule c (c :: rest) = Ok token -> P token) ->
  forall (fuel : nat) (chars : list jschar) (i row col : nat) (tokens result : tk.TokenSet),
    Forall P tokens ->
    tk.tokenizeLoop fuel chars i row col tokens = Ok result ->
    Forall P result.
Proof.
  intros HP fuel chars. induction fuel as [|fuel IH]; intros i row col tokens result Hall;
    simpl; destruct (nth_error chars i) as [c|] eqn:E; try discriminate.
  1, 3: now intros H; injection H as <-.
  destruct (tk.applyRule c (skipn i chars)) as [token|e|] eqn:R; try discriminate.
  rewrite (skipn_nth_error _ _ E) in R. apply HP in R.
  assert (Hall' : Forall P (tokens ++ [token])).
  { apply Forall_app. split; [assumption | now constructor]. }
  destruct (tk.isNewLine token); now apply IH.
Qed.

Lemma applyRule_wellFormed (c : jschar) (rest : list jschar) (token : tk.Token) :
  tk.applyRule c (c :: rest) = Ok token -> wellFormed token.
Proof.
  intros H. split; [exact (proj1 (applyRule_startsWith _ _ H))|].
  revert H. unfold tk.applyRule, tk.keyOf.
  destruct (existsb (N.eqb c) (str "NXx")); [|destruct (tk.isIdentifierStart c);
    [|destruct (tk.isDelimiteddIdentifierStart c); [|destruct (tk.isDigit c)]]].
  2-4: simpl;
    match goal with
    | |- bind ?m _ = _ -> _ => destruct m; simpl; try discriminate
    end; intros H; injection H as <-; exact I.
  all: unfold tk.rule, tk.constant, tk.stringOrWord;
    repeat match goal with
           | |- context [if (?c =? ?k)%N then _ else _] => destruct (c =? k)%N
           end;
    repeat match goal with
           | |- context [if charAt ?chars 1 ?k then _ else _] => destruct (charAt chars 1 k)
           end;
    simpl;
    try match goal with
        | |- bind ?m _ = _ -> _ => destruct m; simpl; try discriminate
        end;
    intros H; injection H as <-; try exact I; reflexivity.
Qed.

(** X3: every token that [tokenize] returns is well formed: its text is not
    empty; a whitespace, newline, parenthesis, comma or operator token is
    one of the constants of the tokenizer (so that comparing such a token
    with a constant by identity or by class and text is the same); a token
    of the catch-all class holds exactly one character. *)
Theorem tokenize_wellFormed (src : jsstring) (tokens : tk.TokenSet) :
  tk.tokenize src = Ok tokens -> Forall wellFormed tokens.
Proof.
  intros H. eapply tokenizeLoop_Forall; [exact applyRule_wellFormed | constructor | exact H].
Qed.

Lemma tokenize_wellFormed_witness :
  Forall wellFormed [tk.Word (str "a"); tk.NEQ2; tk.Other (str "?")].
Proof.
  exact (@tokenize_wellFormed (str "a<>?") [tk.Word (str "a"); tk.NEQ2; tk.Other (str "?")]
           eq_refl).
Defined.

(** ** The errors of the tokenizer *)

Lemma takeWhile_no_throw (chars : list jschar) (testStart : nat) (f : tk.AdvanceBy)
  (msg : jsstring) :
  tk.takeWhile chars testStart f <> Throw msg.
Proof. unfold tk.takeWhile. destruct (tk.advance _ _ _ _); discriminate. Qed.

Lemma takeWhileOrError_throw (chars : list jschar) (testStart : nat) (f : tk.AdvanceBy)
  (msg thrown : jsstring) :
  tk.takeWhileOrError chars testStart f msg = Throw thrown -> thrown = msg.
Proof.
  unfold tk.takeWhileOrError. destruct (tk.advance _ _ _ _) as [i|]; [|discriminate].
  destruct (i =? _); [|discriminate]. now intros H; injection H as <-.
Qed.

Ltac solve_throw :=
  simpl;
  repeat match goal with
         | |- context [if charAt ?chars 1 ?k then _ else _] => destruct (charAt chars 1 k)
         end;
  simpl; unfold tk.tokenizeIdentifier, tk.tokenizeSingleQuotedString;
  try discriminate;
  match goal with
  | |- bind ?m _ = Throw _ -> _ =>
      let E := fresh "E" in
      destruct m eqn:E; simpl; try discriminate;
      intros H; injection H as <-;
      first [ now elim (takeWhile_no_throw _ _ _ E)
            | apply takeWhileOrError_throw in E; subst; simpl; tauto ]
  end.

Lemma applyRule_throw (c : jschar) (chars : list jschar) (msg : jsstring) :
  tk.applyRule c chars = Throw msg -> In msg lexicalFaults.
Proof.
  unfold tk.applyRule, tk.keyOf.
  destruct (existsb (N.eqb c) (str "NXx")); [|destruct (tk.isIdentifierStart c);
    [|destruct (tk.isDelimiteddIdentifierStart c); [|destruct (tk.isDigit c)]]].
  2-4: solve_throw.
  all: unfold tk.rule, tk.constant, tk.stringOrWord;
    repeat match goal with
           | |- context [if (?c =? ?k)%N then _ else _] => destruct (c =? k)%N
           end;
    solve_throw.
Qed.

Lemma tokenizeLoop_throw (fuel : nat) (chars : list jschar) :
  forall (i row col : nat) (tokens : tk.TokenSet) (e : tk.TokenizeError),
    1 <= row -> 1 <= col ->
    tk.tokenizeLoop fuel chars i row col tokens = Throw e ->
    tk.message e = str "Tokenize error" /\ In (tk.cause e) lexicalFaults
    /\ 1 <= tk.row e /\ 1 <= tk.col e.
Proof.
  induction fuel as [|fuel IH]; intros i row col tokens e Hrow Hcol; simpl;
    destruct (nth_error chars i) as [c|]; try discriminate.
  destruct (tk.applyRule c (skipn i chars)) as [token|msg|] eqn:R; try discriminate.
  - destruct (tk.isNewLine token); apply IH; arith.
  - intros H; injection H as <-. simpl. repeat split; try assumption.
    exact (applyRule_throw _ _ R).
Qed.

(** X4: an error thrown by [tokenize] has the message [Tokenize error], a
    row and a column that are at least 1, and wraps one of the three errors
    of the scanners: the unterminated string, the missing close delimiter
    or the unterminated multi-line comment.  No other error is thrown. *)
Theorem tokenize_throws_lexical_faults_only (src : jsstring) (e : tk.TokenizeError) :
  tk.tokenize src = Throw e ->
  tk.message e = str "Tokenize error" /\ In (tk.cause e) lexicalFaults
  /\ 1 <= tk.row e /\ 1 <= tk.col e.
Proof. apply tokenizeLoop_throw; arith. Qed.

Lemma tokenize_throws_lexical_faults_only_witness :
  In (str "Unterminated string literal") lexicalFaults.
Proof.
  exact (proj1 (proj2 (@tokenize_throws_lexical_faults_only (str "a 'bc")
                         (tk.mkTokenizeError (str "Tokenize error") 1 3
                            (str "Unterminated string literal"))
                         eq_refl))).
Defined.

(** ** Runs of characters: words, numbers and line comments *)

Lemma run_prefix (p : jschar -> bool) (l : list jschar) :
  exists rest, l = run p l ++ rest.
Proof.
  induction l as [|c l [rest IH]]; simpl; [now exists []|].
  destruct (p c); [exists rest; simpl; now f_equal | now exists (c :: l)].
Qed.

(** A callback that looks at the current character only: the scan runs
    over the longest run of characters that satisfy [p]. *)
Lemma advance_run (p : jschar -> bool) (chars : list jschar) (fuel : nat) :
  forall i,
    List.length chars <= fuel + i ->
    tk.advance fuel chars i (fun c _ _ => tk.toInt (p c))
    = Some (i + List.length (run p (skipn i chars))).
Proof.
  induction fuel as [|fuel IH]; intros i Hlen; cbn [tk.advance];
    destruct (nth_error chars i) as [c|] eqn:E.
  - assert (i < List.length chars) by (apply nth_error_Some; congruence). arith.
  - rewrite skipn_all2 by (now apply nth_error_None). simpl. f_equal. arith.
  - rewrite (skipn_nth_error _ _ E). cbn [run]. destruct (p c); cbn [tk.toInt List.length].
    + rewrite IH by arith. replace (i + 1) with (S i) by arith. f_equal. arith.
    + f_equal. arith.
  - rewrite skipn_all2 by (now apply nth_error_None). simpl. f_equal. arith.
Qed.

Lemma takeWhile_run (p : jschar -> bool) (chars : list jschar) (testStart : nat) :
  testStart <= List.length chars ->
  tk.takeWhile chars testStart (fun c _ _ => tk.toInt (p c))
  = Ok (firstn testStart chars ++ run p (skipn testStart chars)).
Proof.
  intros Hstart. unfold tk.takeWhile. rewrite advance_run by arith. f_equal.
  destruct (run_prefix p (skipn testStart chars)) as [rest Hrest].
  pose proof (firstn_skipn testStart chars) as Hsplit.
  assert (Hfirst : List.length (firstn testStart chars) = testStart)
    by (now apply firstn_length_le).
  set (a := firstn testStart chars) in *.
  set (r := run p (skipn testStart chars)) in *.
  assert (Hchars : chars = (a ++ r) ++ rest) by (now rewrite <- app_assoc, <- Hrest).
  pose proof (f_equal (@List.length jschar) Hchars) as Hsize.
  rewrite !length_app, Hfirst in Hsize.
  rewrite Nat.min_l by arith.
  replace (testStart + List.length r) with (List.length (a ++ r))
    by (rewrite length_app; arith).
  rewrite Hchars. apply firstn_app_length.
Qed.

(** X5: a word token is its first character followed by the longest run of
    identifier characters (letters, digits, [_], [@], [#], [$]).  This holds
    for every character that starts an identifier, the letters N, X and x
    included when no quote follows them; the rule never throws. *)
Theorem word_is_longest_run (c : jschar) (rest : list jschar) :
  tk.isIdentifierStart c = true ->
  existsb (N.eqb c) (str "NXx") && charAt (c :: rest) 1 QUOTE_CH = false ->
  tk.applyRule c (c :: rest) = Ok (tk.Word (c :: run tk.isIdentifierPart rest)).
Proof.
  intros Hstart Hquote.
  assert (Hword : (s <- tk.tokenizeIdentifier (c :: rest) ;; Ok (tk.Word s))
                  = Ok (tk.Word (c :: run tk.isIdentifierPart rest)
                        : tk.Token) :> outcome jsstring tk.Token).
  { unfold tk.tokenizeIdentifier. rewrite takeWhile_run by (simpl; arith). reflexivity. }
  unfold tk.applyRule, tk.keyOf.
  destruct (existsb (N.eqb c) (str "NXx")) eqn:ENX; [|rewrite Hstart; exact Hword].
  cbn [andb] in Hquote.
  assert (Hc : c = chr "N" \/ c = chr "X" \/ c = chr "x").
  { simpl in ENX. repeat (apply orb_true_iff in ENX as [ENX|ENX]);
      try discriminate; apply N.eqb_eq in ENX; auto. }
  destruct Hc as [-> | [-> | ->]].
  - change (tk.rule (tk.char (chr "N")))
      with (Some (tk.stringOrWord tk.NationalStringLiteral)).
    unfold tk.stringOrWord. rewrite Hquote. exact Hword.
  - change (tk.rule (tk.char (chr "X")))
      with (Some (tk.stringOrWord tk.HexStringLiteral)).
    unfold tk.stringOrWord. rewrite Hquote. exact Hword.
  - change (tk.rule (tk.char (chr "x")))
      with (Some (tk.stringOrWord tk.HexStringLiteral)).
    unfold tk.stringOrWord. rewrite Hquote. exact Hword.
Qed.

Lemma word_is_longest_run_witness :
  tk.applyRule (chr "N") (str "Name_1 x") = Ok (tk.Word (str "Name_1")).
Proof. exact (word_is_longest_run (chr "N") (str "ame_1 x") eq_refl eq_refl). Defined.

(** X6: a number token is its first digit followed by the longest run of
    digits and periods, whatever the number of periods; the rule never
    throws. *)
Theorem number_is_longest_run (c : jschar) (rest : list jschar) :
  tk.isDigit c = true ->
  tk.applyRule c (c :: rest)
  = Ok (tk.Num (c :: run (fun c => tk.isDigit c || (c =? chr ".")%N) rest)).
Proof.
  intros Hdigit.
  assert (Hkey : tk.keyOf c = tk.num).
  { unfold tk.isDigit, tk.inRange in Hdigit.
    apply andb_true_iff in Hdigit as [Hlo Hhi].
    apply N.leb_le in Hlo, Hhi. change (chr "0") with 48%N in Hlo.
    change (chr "9") with 57%N in Hhi. unfold jschar in c.
    assert (Hc : (c = 48 \/ c = 49 \/ c = 50 \/ c = 51 \/ c = 52 \/ c = 53 \/ c = 54
                  \/ c = 55 \/ c = 56 \/ c = 57)%N) by lia.
    repeat (destruct Hc as [-> | Hc]; [reflexivity|]). subst c. reflexivity. }
  unfold tk.applyRule. rewrite Hkey. simpl.
  rewrite takeWhile_run by (simpl; arith). reflexivity.
Qed.

Lemma number_is_longest_run_witness :
  tk.applyRule (chr "1") (str "1.2.3)") = Ok (tk.Num (str "1.2.3")).
Proof. exact (@number_is_longest_run (chr "1") (str ".2.3)") eq_refl). Defined.

(** X7: two hyphens start a comment that runs up to the next line feed,
    which is left for the next token, or up to the end of the source; the
    rule never throws. *)
Theorem line_comment_runs_to_line_feed (rest : list jschar) :
  tk.applyRule (chr "-") (chr "-" :: chr "-" :: rest)
  = Ok (tk.Cmmnt (chr "-" :: chr "-" :: run (fun c => negb (c =? LF_CH)%N) rest)).
Proof.
  change (tk.applyRule (chr "-") (chr "-" :: chr "-" :: rest))
    with (s <- tk.takeWhile (chr "-" :: chr "-" :: rest) 2
                 (fun c _ _ => tk.toInt (negb (c =? LF_CH)%N)) ;;
          Ok (tk.Cmmnt s)).
  rewrite takeWhile_run by (simpl; arith). reflexivity.
Qed.

(** ** Literals that are closed: strings, delimited identifiers, comments *)

Lemma advance_over_closed_string (content : jsstring) :
  forall (pre : list jschar) (fuel : nat),
    List.length (escapeQuotes content) <= fuel ->
    tk.advance fuel (pre ++ escapeQuotes content ++ [QUOTE_CH])
      (List.length pre + 1) tk.tokenizeSingleQuotedStringAdvanceBy
    = Some (List.length pre + List.length (escapeQuotes content) + 1).
Proof.
  induction content as [|x content IH]; intros pre fuel Hfuel.
  - cbn [escapeQuotes app List.length].
    destruct fuel; cbn [tk.advance]; rewrite nth_error_after; cbn [nth_error];
      f_equal; arith.
  - cbn [escapeQuotes] in *. destruct (N.eqb_spec x QUOTE_CH) as [->|Hx].
    + cbn [List.length] in Hfuel. destruct fuel as [|fuel]; [arith|].
      cbn [tk.advance app]. rewrite nth_error_after. cbn [nth_error].
      rewrite advanceBy_after, !N.eqb_refl. cbv iota.
      replace (pre ++ QUOTE_CH :: QUOTE_CH :: escapeQuotes content ++ [QUOTE_CH])
        with ((pre ++ [QUOTE_CH; QUOTE_CH]) ++ escapeQuotes content ++ [QUOTE_CH])
        by (now rewrite <- app_assoc).
      replace (List.length pre + 1 + 2) with (List.length (pre ++ [QUOTE_CH; QUOTE_CH]) + 1)
        by (rewrite length_app; simpl; arith).
      rewrite IH by arith. rewrite length_app. cbn [List.length]. f_equal. arith.
    + cbn [List.length] in Hfuel. destruct fuel as [|fuel]; [arith|].
      assert (Hnext : exists y,
                 nth_error (pre ++ x :: escapeQuotes content ++ [QUOTE_CH])
                   (List.length pre + 1) = Some y).
      { rewrite nth_error_after. destruct (escapeQuotes content); simpl; eauto. }
      destruct Hnext as [y Hnext].
      cbn [tk.advance app]. rewrite Hnext. rewrite advanceBy_after.
      assert (E : (x =? QUOTE_CH)%N = false) by now apply N.eqb_neq.
      rewrite E. cbv iota.
      replace (pre ++ x :: escapeQuotes content ++ [QUOTE_CH])
        with ((pre ++ [x]) ++ escapeQuotes content ++ [QUOTE_CH])
        by (now rewrite <- app_assoc).
      replace (List.length pre + 1 + 1) with (List.length (pre ++ [x]) + 1)
        by (rewrite length_app; simpl; arith).
      rewrite IH by arith. rewrite length_app. cbn [List.length]. f_equal. arith.
Qed.

(** X8: a string literal whose closing quote is the last character of the
    characters under the cursor is reported as unterminated, whatever its
    content: the scan stops exactly at the end, which is the condition of
    the error. *)
Theorem closed_string_at_end_throws (content : jsstring) :
  tk.applyRule QUOTE_CH (QUOTE_CH :: escapeQuotes content ++ [QUOTE_CH])
  = Throw tk.TOKENIZE_SINGLE_QUOTED_STRING_ERROR.
Proof.
  change (tk.applyRule QUOTE_CH ?chars)
    with (s <- tk.tokenizeSingleQuotedString chars ;; Ok (tk.SingleQuotedString s)).
  unfold tk.tokenizeSingleQuotedString, tk.takeWhileOrError.
  pose proof (@advance_over_closed_string content [QUOTE_CH]
                (List.length (QUOTE_CH :: escapeQuotes content ++ [QUOTE_CH]))) as H.
  cbn [app List.length] in H. change (1 + 1) with 2 in H. cbn [List.length].
  rewrite H by (rewrite length_app; cbn [List.length]; arith).
  replace (1 + List.length (escapeQuotes content) + 1
           =? S (List.length (escapeQuotes content ++ [QUOTE_CH]))) with true
    by (symmetry; apply Nat.eqb_eq; rewrite length_app; cbn [List.length]; arith).
  reflexivity.
Qed.

Lemma advance_over_delimited (tail : list jschar) (body : list jschar) :
  forallb (fun c => negb (c =? DQUOTE_CH)%N) body = true ->
  forall (pre : list jschar) (fuel : nat),
    List.length body <= fuel ->
    tk.advance fuel (pre ++ body ++ DQUOTE_CH :: tail) (List.length pre + 1)
      delimitedAdvanceBy
    = Some (List.length pre + List.length body + 1).
Proof.
  induction body as [|x body IH]; intros Hbody pre fuel Hfuel.
  - cbn [app List.length].
    destruct fuel; cbn [tk.advance]; rewrite nth_error_after; cbn [nth_error];
      (destruct tail as [|c tail]; [f_equal; arith|]);
      unfold delimitedAdvanceBy; rewrite charAt_after; unfold charAt; cbn [nth_error];
      rewrite N.eqb_refl; cbn [negb tk.toInt]; f_equal; arith.
  - cbn [forallb] in Hbody. apply andb_true_iff in Hbody as [Hx Hbody].
    cbn [List.length] in Hfuel. destruct fuel as [|fuel]; [arith|].
    assert (Hnext : exists y,
               nth_error (pre ++ (x :: body) ++ DQUOTE_CH :: tail) (List.length pre + 1)
               = Some y).
    { rewrite nth_error_after. destruct body; simpl; eauto. }
    destruct Hnext as [y Hnext].
    cbn [tk.advance]. rewrite Hnext.
    unfold delimitedAdvanceBy at 1. cbn [app]. rewrite charAt_after.
    unfold charAt at 1. cbn [nth_error]. rewrite Hx. cbn [tk.toInt].
    replace (pre ++ x :: body ++ DQUOTE_CH :: tail)
      with ((pre ++ [x]) ++ body ++ DQUOTE_CH :: tail)
      by (now rewrite <- app_assoc).
    replace (List.length pre + 1 + 1) with (List.length (pre ++ [x]) + 1)
      by (rewrite length_app; simpl; arith).
    rewrite (IH Hbody) by arith. rewrite length_app. cbn [List.length]. f_equal. arith.
Qed.

(** X9: a delimited identifier is scanned from its opening double quote to
    the next double quote.  When a character follows the closing quote the
    token is a word whose text includes both quotes; when the closing quote
    is the last character the missing-delimiter error is thrown. *)
Theorem delimited_identifier_scan (body : list jschar) (c : jschar) (rest : list jschar) :
  forallb (fun c => negb (c =? DQUOTE_CH)%N) body = true ->
  tk.applyRule DQUOTE_CH (DQUOTE_CH :: body ++ DQUOTE_CH :: c :: rest)
  = Ok (tk.Word (DQUOTE_CH :: body ++ [DQUOTE_CH]))
  /\ tk.applyRule DQUOTE_CH (DQUOTE_CH :: body ++ [DQUOTE_CH])
     = Throw tk.TOKENIZE_DELIMITED_STRING_ERROR.
Proof.
  intros Hbody.
  assert (Hrule : forall chars,
             tk.applyRule DQUOTE_CH chars
             = (s <- tk.takeWhileOrError chars 2 delimitedAdvanceBy
                       tk.TOKENIZE_DELIMITED_STRING_ERROR ;;
                Ok (tk.Word s))) by reflexivity.
  rewrite !Hrule. unfold tk.takeWhileOrError. split.
  - pose proof (@advance_over_delimited (c :: rest) body Hbody [DQUOTE_CH]
                  (List.length (DQUOTE_CH :: body ++ DQUOTE_CH :: c :: rest))) as H.
    cbn [app List.length] in H. change (1 + 1) with 2 in H. cbn [List.length].
    rewrite H by (rewrite length_app; cbn [List.length]; arith).
    replace (1 + List.length body + 1 =? S (List.length (body ++ DQUOTE_CH :: c :: rest)))
      with false
      by (symmetry; apply Nat.eqb_neq; rewrite length_app; cbn [List.length]; arith).
    cbn [bind]. do 2 f_equal.
    replace (1 + List.length body + 1)
      with (List.length (DQUOTE_CH :: body ++ [DQUOTE_CH]))
      by (cbn [List.length]; rewrite length_app; cbn [List.length]; arith).
    replace (DQUOTE_CH :: body ++ DQUOTE_CH :: c :: rest)
      with ((DQUOTE_CH :: body ++ [DQUOTE_CH]) ++ c :: rest)
      by (cbn [app]; now rewrite <- app_assoc).
    apply firstn_app_length.
  - pose proof (@advance_over_delimited [] body Hbody [DQUOTE_CH]
                  (List.length (DQUOTE_CH :: body ++ [DQUOTE_CH]))) as H.
    cbn [app List.length] in H. change (1 + 1) with 2 in H. cbn [List.length].
    rewrite H by (rewrite length_app; cbn [List.length]; arith).
    replace (1 + List.length body + 1 =? S (List.length (body ++ [DQUOTE_CH])))
      with true
      by (symmetry; apply Nat.eqb_eq; rewrite length_app; cbn [List.length]; arith).
    reflexivity.
Qed.

Lemma delimited_identifier_scan_witness :
  tk.applyRule DQUOTE_CH (DQUOTE_CH :: str "my col" ++ DQUOTE_CH :: chr "," :: str " b")
  = Ok (tk.Word (DQUOTE_CH :: str "my col" ++ [DQUOTE_CH])).
Proof.
  exact (proj1 (@delimited_identifier_scan (str "my col") (chr ",") (str " b") eq_refl)).
Defined.

Lemma charAt_after2 (pre rest : list jschar) (c : jschar) :
  charAt (pre ++ rest) (List.length pre + 2 - 2) c = charAt rest 0 c
  /\ charAt (pre ++ rest) (List.length pre + 2 - 1) c = charAt rest 1 c.
Proof.
  unfold charAt.
  replace (List.length pre + 2 - 2) with (List.length pre + 0) by arith.
  replace (List.length pre + 2 - 1) with (List.length pre + 1) by arith.
  now rewrite !nth_error_after.
Qed.

Lemma advance_over_comment (tail : list jschar) (body : list jschar) :
  noClose body = true ->
  forall (pre : list jschar) (fuel : nat),
    List.length body <= fuel ->
    tk.advance fuel (pre ++ body ++ chr "*" :: chr "/" :: tail) (List.length pre + 2)
      commentAdvanceBy
    = Some (List.length pre + List.length body + 2).
Proof.
  induction body as [|x body IH]; intros Hbody pre fuel Hfuel.
  - cbn [app List.length].
    destruct fuel; cbn [tk.advance]; rewrite nth_error_after; cbn [nth_error];
      (destruct tail as [|c tail]; [f_equal; arith|]);
      unfold commentAdvanceBy;
      rewrite (proj1 (charAt_after2 _ _ _)), (proj2 (charAt_after2 _ _ _));
      unfold charAt; cbn [nth_error]; rewrite !N.eqb_refl; cbn [andb negb tk.toInt];
      f_equal; arith.
  - cbn [List.length] in Hfuel. destruct fuel as [|fuel]; [arith|].
    assert (Hnext : exists y,
               nth_error (pre ++ (x :: body) ++ chr "*" :: chr "/" :: tail)
                 (List.length pre + 2) = Some y).
    { rewrite nth_error_after. destruct body as [|? [|? ?]]; simpl; eauto. }
    destruct Hnext as [y Hnext].
    cbn [tk.advance]. rewrite Hnext.
    assert (Hstep : commentAdvanceBy y (List.length pre + 2)
                      (pre ++ (x :: body) ++ chr "*" :: chr "/" :: tail) = 1).
    { unfold commentAdvanceBy.
      rewrite (proj1 (charAt_after2 _ _ _)), (proj2 (charAt_after2 _ _ _)).
      unfold charAt. destruct body as [|z body]; cbn [app nth_error].
      - destruct (x =? chr "*")%N; reflexivity.
      - cbn [noClose] in Hbody. apply andb_true_iff in Hbody as [Hpair _].
        apply negb_true_iff in Hpair. now rewrite Hpair. }
    rewrite Hstep.
    assert (Hbody' : noClose body = true).
    { destruct body as [|z body]; [reflexivity|].
      cbn [noClose] in Hbody. now apply andb_true_iff in Hbody as [_ Hbody]. }
    replace (pre ++ (x :: body) ++ chr "*" :: chr "/" :: tail)
      with ((pre ++ [x]) ++ body ++ chr "*" :: chr "/" :: tail)
      by (cbn [app]; now rewrite <- app_assoc).
    replace (List.length pre + 2 + 1) with (List.length (pre ++ [x]) + 2)
      by (rewrite length_app; simpl; arith).
    rewrite (IH Hbody') by arith. rewrite length_app. cbn [List.length]. f_equal. arith.
Qed.

(** X10: a block comment is scanned from its opening to the first asterisk
    and slash after it.  When a character follows the close the token is a
    comment whose text runs from the opening through the close; when the
    close ends the characters the error of the unterminated comment is
    thrown. *)
Theorem block_comment_scan (body : list jschar) (c : jschar) (rest : list jschar) :
  noClose body = true ->
  tk.applyRule (chr "/") (chr "/" :: chr "*" :: body ++ chr "*" :: chr "/" :: c :: rest)
  = Ok (tk.Cmmnt (chr "/" :: chr "*" :: body ++ [chr "*"; chr "/"]))
  /\ tk.applyRule (chr "/") (chr "/" :: chr "*" :: body ++ [chr "*"; chr "/"])
     = Throw tk.TOKENIZE_MULTI_LINE_COMMENT_ERROR.
Proof.
  intros Hbody.
  assert (Hrule : forall chars,
             tk.applyRule (chr "/") (chr "/" :: chr "*" :: chars)
             = (s <- tk.takeWhileOrError (chr "/" :: chr "*" :: chars) 4 commentAdvanceBy
                       tk.TOKENIZE_MULTI_LINE_COMMENT_ERROR ;;
                Ok (tk.Cmmnt s))) by reflexivity.
  rewrite !Hrule. unfold tk.takeWhileOrError. split.
  - pose proof (@advance_over_comment (c :: rest) body Hbody [chr "/"; chr "*"]
                  (List.length (chr "/" :: chr "*" :: body ++ chr "*" :: chr "/" :: c :: rest)))
      as H.
    cbn [app List.length] in H. change (2 + 2) with 4 in H. cbn [List.length].
    rewrite H by (rewrite length_app; cbn [List.length]; arith).
    replace (2 + List.length body + 2
             =? S (S (List.length (body ++ chr "*" :: chr "/" :: c :: rest))))
      with false
      by (symmetry; apply Nat.eqb_neq; rewrite length_app; cbn [List.length]; arith).
    cbn [bind]. do 2 f_equal.
    replace (2 + List.length body + 2)
      with (List.length (chr "/" :: chr "*" :: body ++ [chr "*"; chr "/"]))
      by (cbn [List.length]; rewrite length_app; cbn [List.length]; arith).
    replace (chr "/" :: chr "*" :: body ++ chr "*" :: chr "/" :: c :: rest)
      with ((chr "/" :: chr "*" :: body ++ [chr "*"; chr "/"]) ++ c :: rest)
      by (cbn [app]; now rewrite <- app_assoc).
    apply firstn_app_length.
  - pose proof (@advance_over_comment [] body Hbody [chr "/"; chr "*"]
                  (List.length (chr "/" :: chr "*" :: body ++ [chr "*"; chr "/"]))) as H.
    cbn [app List.length] in H. change (2 + 2) with 4 in H. cbn [List.length].
    rewrite H by (rewrite length_app; cbn [List.length]; arith).
    replace (2 + List.length body + 2 =? S (S (List.length (body ++ [chr "*"; chr "/"]))))
      with true
      by (symmetry; apply Nat.eqb_eq; rewrite length_app; cbn [List.length]; arith).
    reflexivity.
Qed.

Lemma block_comment_scan_witness :
  tk.applyRule (chr "/") (chr "/" :: chr "*" :: str " a*b / " ++ chr "*" :: chr "/" :: chr "x" :: [])
  = Ok (tk.Cmmnt (chr "/" :: chr "*" :: str " a*b / " ++ [chr "*"; chr "/"])).
Proof.
  exact (proj1 (@block_comment_scan (str " a*b / ") (chr "x") [] eq_refl)).
Defined.

(** * Further properties of the parser *)

(** ** The cursor *)

Lemma nextFrom_found (rest : list tk.Token) (i : nat) (idx : number) (t : tk.Token) :
  nextFrom rest i = (idx, Tok t) ->
  exists ws rest',
    rest = ws ++ t :: rest' /\ forallb tk.isWhitespace ws = true
    /\ tk.isWhitespace t = false /\ idx = Fin (S (i + List.length ws)).
Proof.
  revert i; induction rest as [|t' rest IH]; intros i; simpl; [discriminate|].
  destruct (tk.isWhitespace t') eqn:E.
  - intros H. destruct (IH _ H) as (ws & rest' & -> & Hws & Ht & ->).
    exists (t' :: ws), rest'. simpl. rewrite E, Hws. repeat split; try assumption.
    do 2 f_equal. lia.
  - intros H; injection H as <- <-. exists [], rest. repeat split; try assumption.
    simpl. do 2 f_equal. lia.
Qed.

Lemma nextFrom_eof (rest : list tk.Token) (i : nat) (idx : number) :
  nextFrom rest i = (idx, EOF) -> idx = Infinity /\ forallb tk.isWhitespace rest = true.
Proof.
  revert i; induction rest as [|t' rest IH]; intros i; simpl.
  - intros H; injection H as <-. now split.
  - destruct (tk.isWhitespace t'); [apply IH | discriminate].
Qed.

(** X11: what [nextMeaningfulToken] returns at a cursor [start].  With a
    token, the cursor returned is one more than the index [j] of that token,
    [j] is at or after [start] and inside the token sequence, the token is
    not whitespace and every token between [start] and [j] is.  With the
    sentinel, the cursor is [Infinity] and only whitespace is left.  In both
    cases [peekToken] gives the same token. *)
Theorem nextMeaningfulToken_index (tokenSet : TokenSet) (start : nat) (idx : number)
  (token : NextTokenResult) :
  nextMeaningfulToken tokenSet start = (idx, token) ->
  peekToken tokenSet start = token
  /\ match token with
     | Tok t =>
         exists j, idx = Fin (S j) /\ start <= j < List.length tokenSet
                   /\ nth_error tokenSet j = Some t /\ tk.isWhitespace t = false
                   /\ forallb tk.isWhitespace (firstn (j - start) (skipn start tokenSet)) = true
     | EOF => idx = Infinity /\ forallb tk.isWhitespace (skipn start tokenSet) = true
     end.
Proof.
  intros H. split; [now rewrite peekToken_nextMeaningfulToken, H|].
  simpl in H. destruct token as [t|].
  - destruct (nextFrom_found _ _ H) as (ws & rest' & Hsplit & Hws & Ht & ->).
    exists (start + List.length ws).
    assert (Hnth : nth_error tokenSet (start + List.length ws) = Some t).
    { rewrite <- nth_error_skipn, Hsplit.
      replace (List.length ws) with (List.length ws + 0) by lia.
      now rewrite nth_error_after. }
    repeat split; try assumption; try lia.
    + apply nth_error_Some. congruence.
    + replace (start + List.length ws - start) with (List.length ws) by lia.
      now rewrite Hsplit, firstn_app_length.
  - now apply nextFrom_eof in H.
Qed.

Lemma nextMeaningfulToken_index_witness :
  peekToken [tk.Word (str "a"); tk.SPACE; tk.LF; tk.COMMA] 1 = Tok tk.COMMA.
Proof.
  exact (proj1 (@nextMeaningfulToken_index
                  [tk.Word (str "a"); tk.SPACE; tk.LF; tk.COMMA] 1 (Fin 4) (Tok tk.COMMA)
                  eq_refl)).
Defined.

Lemma nextMeaningfulToken_before (tokenSet : TokenSet) (start idx : number) (t : tk.Token) :
  nextMeaningfulToken tokenSet start = (idx, Tok t) -> before start idx.
Proof.
  destruct start as [i|]; simpl; [|discriminate].
  intros H. destruct (nextFrom_token _ _ H) as (n & -> & Hn). simpl. lia.
Qed.

Lemma consumeToken_cursor (tokenSet : TokenSet) (start : number) (token : tk.Token)
  (idx : number) :
  consumeToken tokenSet start token = Some idx ->
  before start idx /\ truthy (Some idx) = true.
Proof.
  intros H. destruct (consumeToken_successor _ _ _ H) as [n ->].
  split; [|reflexivity].
  unfold consumeToken in H.
  destruct (nextMeaningfulToken tokenSet start) as [idx' [t|]] eqn:E; [|discriminate].
  destruct (jseqb _ _); [|discriminate]. injection H as ->.
  exact (nextMeaningfulToken_before _ _ E).
Qed.

(** X12: [consumeToken] and [expectToken] agree: [expectToken] returns the
    cursor that [consumeToken] returns and throws, with the expected text
    and the token found, where [consumeToken] gives [undefined].  A cursor
    returned by [consumeToken] lies after [start] and is never 0, so the
    truthiness tests of its callers tell a match from [undefined]. *)
Theorem consumeToken_expectToken (tokenSet : TokenSet) (start : number) (token : tk.Token) :
  expectToken tokenSet start token
  = match consumeToken tokenSet start token with
    | Some idx => Ok idx
    | None => Throw (getError (tk.value token) (peekToken tokenSet start))
    end
  /\ (forall idx, consumeToken tokenSet start token = Some idx ->
        before start idx /\ truthy (Some idx) = true).
Proof.
  split.
  - rewrite peekToken_nextMeaningfulToken. unfold expectToken, consumeToken.
    destruct (nextMeaningfulToken tokenSet start) as [idx [t|]]; simpl; [|reflexivity].
    destruct (jseqb _ _); reflexivity.
  - intros idx H. exact (consumeToken_cursor _ _ _ H).
Qed.

Lemma consumeToken_expectToken_witness :
  before (Fin 0) (Fin 2) /\ truthy (Some (Fin 2)) = true.
Proof.
  exact (proj2 (@consumeToken_expectToken [tk.SPACE; tk.COMMA; tk.Word (str "a")] 0 tk.COMMA)
           (Fin 2) eq_refl).
Defined.

(** ** The order of the cursors *)

Lemma notAfter_refl (a : number) : notAfter a a.
Proof. destruct a; simpl; auto. Qed.

Lemma before_notAfter (a b : number) : before a b -> notAfter a b.
Proof. destruct a, b; simpl; try tauto. lia. Qed.

Lemma notAfter_trans (a b c : number) : notAfter a b -> notAfter b c -> notAfter a c.
Proof. destruct a, b, c; simpl; try tauto. lia. Qed.

Lemma before_trans_l (a b c : number) : before a b -> notAfter b c -> before a c.
Proof. destruct a, b, c; simpl; try tauto. lia. Qed.

Lemma before_trans_r (a b c : number) : notAfter a b -> before b c -> before a c.
Proof. destruct a, b, c; simpl; try tauto. lia. Qed.

Lemma before_trans (a b c : number) : before a b -> before b c -> before a c.
Proof. destruct a, b, c; simpl; try tauto. lia. Qed.

Create HintDb cursor.
#[local] Hint Resolve notAfter_refl before_notAfter : cursor.

(** ** Keywords *)

Lemma jseqb_refl (s : jsstring) : jseqb s s = true.
Proof. induction s as [|c s IH]; simpl; [reflexivity | now rewrite N.eqb_refl]. Qed.

Lemma parseKeyword_cursor (tokenSet : TokenSet) (start idx : number) (keyword : jsstring)
  (found : bool) :
  parseKeyword tokenSet start keyword = (idx, found) ->
  if found then before start idx else idx = start.
Proof.
  unfold parseKeyword. rewrite peekToken_nextMeaningfulToken.
  destruct (nextMeaningfulToken tokenSet start) as [idx' token] eqn:E. simpl.
  destruct (equalToKeyword token keyword) eqn:K; intros H; injection H as <- <-.
  - destruct token as [t|]; [|discriminate]. exact (nextMeaningfulToken_before _ _ E).
  - reflexivity.
Qed.

Lemma parseKeywordsFrom_notAfter (tokenSet : TokenSet) (start : number)
  (keywords : list jsstring) :
  forall cur idx,
    notAfter start cur ->
    parseKeywordsFrom tokenSet start cur keywords = (idx, true) -> notAfter start idx.
Proof.
  induction keywords as [|k kws IH]; intros cur idx Hcur; simpl.
  - now intros H; injection H as <-.
  - destruct (ltb cur (List.length tokenSet)); [|now intros H; injection H as <-].
    destruct (parseKeyword tokenSet cur k) as [idx' found] eqn:E.
    apply parseKeyword_cursor in E. destruct found; simpl; [|discriminate].
    apply IH. eapply notAfter_trans; eauto with cursor.
Qed.

(** X13: [parseKeywords] consumes all or nothing.  When it does not find
    the keywords, also after the first of them matched, the cursor it
    returns is [start]; when it finds them the cursor has not moved
    back. *)
Theorem parseKeywords_all_or_nothing (tokenSet : TokenSet) (start idx : number)
  (keywords : list jsstring) (found : bool) :
  parseKeywords tokenSet start keywords = (idx, found) ->
  if found then notAfter start idx else idx = start.
Proof.
  destruct found; intros H.
  - eapply parseKeywordsFrom_notAfter; [apply notAfter_refl | exact H].
  - exact (parseKeywords_not_found _ _ _ H).
Qed.

Lemma parseKeywords_all_or_nothing_witness :
  Fin 0 = Fin 0 :> number.
Proof.
  exact (@parseKeywords_all_or_nothing
           [tk.Word (str "NOT"); tk.SPACE; tk.Word (str "LIKE")] 0 (Fin 0)
           [str "NOT"; str "NULL"] false eq_refl).
Defined.

Lemma parseKeyword_spaced (pre ws : list tk.Token) (keyword : jsstring) (rest : list tk.Token) :
  forallb tk.isWhitespace ws = true ->
  parseKeyword (pre ++ ws ++ tk.Word keyword :: rest) (List.length pre) keyword
  = (Fin (List.length pre + List.length ws + 1), true).
Proof.
  intros Hws. unfold parseKeyword. rewrite peekToken_nextMeaningfulToken.
  assert (H : nextMeaningfulToken (pre ++ ws ++ tk.Word keyword :: rest) (List.length pre)
              = (Fin (List.length pre + List.length ws + 1), Tok (tk.Word keyword))).
  { simpl. rewrite skipn_app_length. now apply nextFrom_whitespace_then. }
  rewrite H. simpl. now rewrite jseqb_refl.
Qed.

Lemma parseKeywordsFrom_spaced (start : number) (rest : list tk.Token)
  (items : list (list tk.Token * jsstring)) :
  Forall (fun item => forallb tk.isWhitespace (fst item) = true) items ->
  forall pre,
    parseKeywordsFrom (pre ++ spaced items ++ rest) start (List.length pre) (map snd items)
    = (Fin (List.length (pre ++ spaced items)), true).
Proof.
  induction items as [|[ws kw] items IH]; intros Hitems pre.
  - simpl. now rewrite app_nil_r.
  - inversion Hitems as [|? ? Hws Hitems']; subst. simpl in Hws.
    cbn [spaced map snd parseKeywordsFrom].
    assert (Hlt : ltb (List.length pre)
                    (List.length (pre ++ (ws ++ tk.Word kw :: spaced items) ++ rest)) = true).
    { simpl. apply Nat.ltb_lt. rewrite !length_app. simpl. lia. }
    rewrite Hlt. rewrite <- (app_assoc ws). cbn [app].
    rewrite (parseKeyword_spaced pre ws kw (spaced items ++ rest) Hws). cbn [negb].
    replace (pre ++ ws ++ tk.Word kw :: spaced items ++ rest)
      with ((pre ++ ws ++ [tk.Word kw]) ++ spaced items ++ rest)
      by (rewrite <- !app_assoc; reflexivity).
    replace (List.length pre + List.length ws + 1)
      with (List.length (pre ++ ws ++ [tk.Word kw]))
      by (rewrite !length_app; simpl; lia).
    rewrite (IH Hitems'). do 2 f_equal. rewrite <- !app_assoc. reflexivity.
Qed.

(** X14: when the keywords stand under the cursor, each after any run of
    whitespace tokens, [parseKeywords] finds them and returns the cursor
    after the last of them, whatever follows. *)
Theorem parseKeywords_finds_spaced_keywords (pre rest : list tk.Token)
  (items : list (list tk.Token * jsstring)) :
  Forall (fun item => forallb tk.isWhitespace (fst item) = true) items ->
  parseKeywords (pre ++ spaced items ++ rest) (List.length pre) (map snd items)
  = (Fin (List.length (pre ++ spaced items)), true).
Proof. intros H. now apply parseKeywordsFrom_spaced. Qed.

Lemma parseKeywords_finds_spaced_keywords_witness :
  parseKeywords
    ([tk.Word (str "t")] ++ spaced [([tk.SPACE], str "WITHOUT"); ([tk.SPACE; tk.LF], str "ROWID")]
       ++ [tk.SEMICOLON])
    1 [str "WITHOUT"; str "ROWID"]
  = (Fin 6, true).
Proof.
  refine (@parseKeywords_finds_spaced_keywords [tk.Word (str "t")] [tk.SEMICOLON]
            [([tk.SPACE], str "WITHOUT"); ([tk.SPACE; tk.LF], str "ROWID")] _).
  repeat constructor.
Defined.

(** ** Lists of names *)

Lemma parseObjectNameFrom_extends (tokenSet : TokenSet) (fuel : nat) :
  forall (idx idx' : number) (idents : list Ident) (name : ObjectName),
    parseObjectNameFrom fuel tokenSet idx idents = Ok (idx', name) ->
    before idx idx'
    /\ exists more, more <> [] /\ objectNameValue name = idents ++ more.
Proof.
  induction fuel as [|fuel IH]; intros idx idx' idents name; simpl; [discriminate|].
  unfold parseIdentifier.
  destruct (nextMeaningfulToken tokenSet idx) as [i token] eqn:E.
  destruct (isWordIdent token) eqn:W; simpl; [|discriminate].
  destruct token as [t|]; [|discriminate].
  pose proof (nextMeaningfulToken_before _ _ E) as Hfirst.
  destruct (consumeToken tokenSet i tk.COLON) as [j|] eqn:C.
  - destruct (consumeToken_cursor _ _ _ C) as [Hj Htruthy].
    rewrite Htruthy. unfold orElse. rewrite Htruthy.
    intros H. destruct (IH _ _ _ _ H) as [Hlater (more & Hmore & Hname)]. split.
    + eapply before_trans; [exact Hfirst|]. eapply before_trans; eassumption.
    + exists (toIdent (Tok t) :: more). split; [discriminate|].
      now rewrite Hname, <- app_assoc.
  - simpl. intros H; injection H as <- <-. split; [exact Hfirst|].
    exists [toIdent (Tok t)]. split; [discriminate | reflexivity].
Qed.

(** ** Forward progress *)

Lemma nextMeaningfulToken_cursor (tokenSet : TokenSet) (start idx : number)
  (token : NextTokenResult) :
  nextMeaningfulToken tokenSet start = (idx, token) ->
  match token with
  | Tok _ => before start idx
  | EOF => idx = Infinity
  end.
Proof.
  destruct token as [t|]; [apply nextMeaningfulToken_before|].
  destruct start as [i|]; simpl.
  - intros H. now apply nextFrom_eof in H.
  - now intros H; injection H as <-.
Qed.

Lemma parseKeywords_cursor (tokenSet : TokenSet) (start idx : number)
  (keywords : list jsstring) (found : bool) :
  parseKeywords tokenSet start keywords = (idx, found) ->
  if found then notAfter start idx else idx = start.
Proof.
  destruct found; intros H.
  - eapply parseKeywordsFrom_notAfter; [apply notAfter_refl | exact H].
  - exact (parseKeywords_not_found _ _ _ H).
Qed.

(** Splits an equation [... = Ok _] along the binds, tests and pairs of
    its left-hand side. *)
Ltac crack :=
  repeat match goal with
         | H : Throw _ = Ok _ |- _ => discriminate H
         | H : OutOfFuel = Ok _ |- _ => discriminate H
         | H : bind _ _ = Ok _ |- _ => unfold bind at 1 in H
         | H : match ?x with _ => _ end = Ok _ |- _ =>
             let E := fresh "E" in destruct x eqn:E
         | H : match ?x with _ => _ end = (_, _) |- _ =>
             let E := fresh "E" in destruct x eqn:E
         end.

(** Closes a goal on cursors from the facts on cursors of the context. *)
Ltac cursor_solve :=
  subst; cbn beta iota in *;
  repeat match goal with
         | H : Ok _ = Ok _ |- _ => injection H as ?; subst
         | H : (_, _) = (_, _) |- _ => injection H as ?; subst
         | H : Some _ = Some _ |- _ => injection H as ?; subst
         | H : _ /\ _ |- _ => destruct H
         end;
  repeat match goal with
         | t : NextTokenResult |- _ => destruct t
         | H : (if ?b then _ else _) |- _ => destruct b
         end;
  repeat match goal with
         | n : number |- _ => destruct n
         end;
  unfold before, notAfter in *; cbn beta iota in *;
  try discriminate;
  repeat match goal with
         | H : Fin _ = Fin _ |- _ => injection H as H
         end;
  try tauto; try lia.

Lemma expectToken_before (tokenSet : TokenSet) (start idx : number) (token : tk.Token) :
  expectToken tokenSet start token = Ok idx -> before start idx.
Proof.
  unfold expectToken. intros H. crack.
  all: match goal with
       | E : nextMeaningfulToken _ _ = _ |- _ => apply nextMeaningfulToken_cursor in E
       end; cursor_solve.
Qed.

Lemma expectKeyword_before (tokenSet : TokenSet) (start idx : number) (keyword : jsstring) :
  expectKeyword tokenSet start keyword = Ok idx -> before start idx.
Proof.
  unfold expectKeyword. rewrite peekToken_nextMeaningfulToken. intros H.
  destruct (nextMeaningfulToken tokenSet start) as [i token] eqn:E. simpl in H.
  destruct token as [t|]; [|discriminate].
  apply nextMeaningfulToken_cursor in E. crack. cursor_solve.
Qed.

Lemma expectKeywords_notAfter (tokenSet : TokenSet) (keywords : list jsstring) :
  forall start idx,
    expectKeywords tokenSet start keywords = Ok idx -> notAfter start idx.
Proof.
  induction keywords as [|k kws IH]; intros start idx; simpl.
  - intros H; injection H as <-. apply notAfter_refl.
  - intros H. crack.
    match goal with
    | E : expectKeyword _ _ _ = _ |- _ => apply expectKeyword_before in E
    end.
    apply IH in H. cursor_solve.
Qed.

Lemma parseIdentifier_before (tokenSet : TokenSet) (start idx : number) (ident : Ident) :
  parseIdentifier tokenSet start = Ok (idx, ident) -> before start idx.
Proof.
  unfold parseIdentifier. intros H. crack.
  match goal with
  | E : nextMeaningfulToken _ _ = _ |- _ => apply nextMeaningfulToken_cursor in E
  end.
  cursor_solve.
Qed.

(** Turns the equations of the context on the functions below into facts on
    their cursors. *)
Ltac facts :=
  repeat match goal with
         | E : nextMeaningfulToken _ _ = (_, _) |- _ => apply nextMeaningfulToken_cursor in E
         | E : parseKeyword _ _ _ = (_, _) |- _ => apply parseKeyword_cursor in E
         | E : parseKeywords _ _ _ = (_, _) |- _ => apply parseKeywords_cursor in E
         | E : consumeToken _ _ _ = Some _ |- _ => apply consumeToken_cursor in E
         | E : expectToken _ _ _ = Ok _ |- _ => apply expectToken_before in E
         | E : expectKeyword _ _ _ = Ok _ |- _ => apply expectKeyword_before in E
         | E : expectKeywords _ _ _ = Ok _ |- _ => apply expectKeywords_notAfter in E
         | E : parseIdentifier _ _ = Ok (_, _) |- _ => apply parseIdentifier_before in E
         end.

Lemma parseLiteralUint_before (tokenSet : TokenSet) (start idx : number) (n : types.JsInt) :
  parseLiteralUint tokenSet start = Ok (idx, n) -> before start idx.
Proof. unfold parseLiteralUint. intros H. crack. facts. cursor_solve. Qed.

Lemma expectValue_before (tokenSet : TokenSet) (start idx : number) (e : Expr) :
  expectValue tokenSet start = Ok (idx, e) -> before start idx.
Proof. unfold expectValue. intros H. crack; facts; cursor_solve. Qed.

Lemma parseLength_before (tokenSet : TokenSet) (start idx : number) (n : types.JsInt) :
  parseLength tokenSet start = Ok (idx, n) -> before start idx.
Proof.
  unfold parseLength. intros H. crack. facts.
  match goal with
  | E : parseLiteralUint _ _ = _ |- _ => apply parseLiteralUint_before in E
  end.
  cursor_solve.
Qed.

Lemma parseOptionalPrecisionScale_notAfter (tokenSet : TokenSet) (start idx : number)
  (ps : option (types.JsInt * types.JsInt)) :
  parseOptionalPrecisionScale tokenSet start = Ok (idx, ps) -> notAfter start idx.
Proof.
  unfold parseOptionalPrecisionScale. intros H.
  destruct (consumeToken tokenSet start tk.LPAREN) as [i|] eqn:C;
    [destruct (consumeToken_cursor _ _ _ C) as [Hi Ht]; rewrite Ht in H; unfold orElse in H;
     rewrite Ht in H | simpl in H].
  - crack. facts.
    repeat match goal with
           | E : parseLiteralUint _ _ = _ |- _ => apply parseLiteralUint_before in E
           end.
    cursor_solve.
  - cursor_solve.
Qed.

Lemma parseOptionalPrecision_notAfter (tokenSet : TokenSet) (start idx : number)
  (p : option types.JsInt) :
  parseOptionalPrecision tokenSet start = Ok (idx, p) -> notAfter start idx.
Proof.
  unfold parseOptionalPrecision. intros H.
  destruct (consumeToken tokenSet start tk.LPAREN) as [i|] eqn:C;
    [destruct (consumeToken_cursor _ _ _ C) as [Hi Ht]; rewrite Ht in H; unfold orElse in H;
     rewrite Ht in H | simpl in H].
  - crack. facts.
    repeat match goal with
           | E : parseLiteralUint _ _ = _ |- _ => apply parseLiteralUint_before in E
           end.
    cursor_solve.
  - cursor_solve.
Qed.

Lemma parseDataType_before (tokenSet : TokenSet) (start idx : number)
  (dataType : types.DataType) :
  parseDataType tokenSet start = Ok (idx, dataType) -> before start idx.
Proof.
  unfold parseDataType. intros H. crack; facts;
    repeat match goal with
           | E : parseLength _ _ = _ |- _ => apply parseLength_before in E
           | E : parseOptionalPrecisionScale _ _ = _ |- _ =>
               apply parseOptionalPrecisionScale_notAfter in E
           | E : parseOptionalPrecision _ _ = _ |- _ =>
               apply parseOptionalPrecision_notAfter in E
           end;
    cursor_solve.
Qed.


Lemma bind_parseErrorOnly {A B : Type} (m : Result A) (k : A -> Result B) :
  parseErrorOnly m -> (forall a, parseErrorOnly (k a)) -> parseErrorOnly (bind m k).
Proof. destruct m as [a|[]|]; simpl; auto. Qed.

Ltac perr :=
  repeat match goal with
         | |- parseErrorOnly (bind _ _) => apply bind_parseErrorOnly; [|intros]
         | |- parseErrorOnly (match ?x with _ => _ end) => destruct x
         | |- parseErrorOnly (Ok _) => exact I
         | |- parseErrorOnly (Throw (getError _ _)) => exact I
         end.

Lemma expectToken_parseErrorOnly (tokenSet : TokenSet) (start : number) (token : tk.Token) :
  parseErrorOnly (expectToken tokenSet start token).
Proof. unfold expectToken. perr. Qed.

Lemma expectKeyword_parseErrorOnly (tokenSet : TokenSet) (start : number) (k : jsstring) :
  parseErrorOnly (expectKeyword tokenSet start k).
Proof. unfold expectKeyword. perr. Qed.

Lemma expectKeywords_parseErrorOnly (tokenSet : TokenSet) (kws : list jsstring) :
  forall start, parseErrorOnly (expectKeywords tokenSet start kws).
Proof.
  induction kws as [|k kws IH]; intros start; simpl; [exact I|].
  apply bind_parseErrorOnly; [apply expectKeyword_parseErrorOnly | intros; apply IH].
Qed.

Lemma parseLiteralUint_parseErrorOnly (tokenSet : TokenSet) (start : number) :
  parseErrorOnly (parseLiteralUint tokenSet start).
Proof. unfold parseLiteralUint. perr. Qed.

Lemma parseDataType_parseErrorOnly (tokenSet : TokenSet) (start : number) :
  parseErrorOnly (parseDataType tokenSet start).
Proof.
  unfold parseDataType, parseLength, parseOptionalPrecisionScale, parseOptionalPrecision.
  perr;
    auto using expectToken_parseErrorOnly, parseLiteralUint_parseErrorOnly,
      expectKeywords_parseErrorOnly.
Qed.

(** X15: [tryParseDataType] never throws and needs no fuel.  It returns a
    data type with a cursor after [start], or [undefined] with the cursor
    [start] itself: a failed attempt consumes nothing. *)
Theorem tryParseDataType_rewinds (tokenSet : TokenSet) (start : number) :
  exists idx dataType,
    tryParseDataType tokenSet start = Ok (idx, dataType)
    /\ match dataType with
       | Some _ => before start idx
       | None => idx = start
       end.
Proof.
  unfold tryParseDataType.
  pose proof (parseDataType_parseErrorOnly tokenSet start) as Hp.
  destruct (parseDataType tokenSet start) as [[idx dataType]|[msg| |e]|] eqn:E;
    simpl in Hp; try contradiction.
  - exists idx, (Some dataType). split; [reflexivity|]. exact (parseDataType_before _ _ E).
  - exists start, None. now split.
Qed.

(** X22: a typed string literal is never accepted.  When the tokens under
    the cursor are a data type, [parsePrefix] reads the string again from
    [start], finds the name of the type there and throws. *)
Theorem typed_string_is_rejected (fuel : nat) (tokenSet : TokenSet) (start idx : number)
  (dataType : types.DataType) :
  parseDataType tokenSet start = Ok (idx, dataType) ->
  parsePrefix (S fuel) tokenSet start
  = Throw (getError (str "literal string") (peekToken tokenSet start)).
Proof.
  intros H. simpl. unfold tryParseDataType. rewrite H. simpl.
  rewrite peekToken_nextMeaningfulToken.
  unfold parseDataType in H. unfold expectLiteralString.
  destruct (nextMeaningfulToken tokenSet start) as [i token].
  destruct token as [[]|]; simpl in *; try discriminate; reflexivity.
Qed.

Lemma typed_string_is_rejected_witness :
  parsePrefix 1 [tk.Word (str "DATE"); tk.SPACE; tk.SingleQuotedString (str "'2020-01-01'")] 0
  = Throw (ParseError (str "Expected: literal string, found: DATE")).
Proof.
  exact (@typed_string_is_rejected 0
           [tk.Word (str "DATE"); tk.SPACE; tk.SingleQuotedString (str "'2020-01-01'")]
           0 (Fin 1) (types.ofNoArgs (str "DATE")) eq_refl).
Defined.

Lemma tryParseDataType_cursor (tokenSet : TokenSet) (start idx : number)
  (dataType : option types.DataType) :
  tryParseDataType tokenSet start = Ok (idx, dataType) ->
  match dataType with
  | Some _ => before start idx
  | None => idx = start
  end.
Proof.
  unfold tryParseDataType.
  destruct (parseDataType tokenSet start) as [[i d]|[msg| |e]|] eqn:E; try discriminate.
  - intros H; injection H as <- <-. exact (parseDataType_before _ _ E).
  - now intros H; injection H as <- <-.
Qed.

Lemma expectLiteralString_before (tokenSet : TokenSet) (start idx : number)
  (s : option jsstring) :
  expectLiteralString tokenSet start = Ok (idx, s) -> before start idx.
Proof. unfold expectLiteralString. intros H. crack; facts; cursor_solve. Qed.

Lemma skipToClosingParenFrom_before {T : Type} (tokenSet : TokenSet) (fuel : nat) :
  forall (start idx : number) (counter : nat) (dummy result : T),
    skipToClosingParenFrom fuel tokenSet start counter dummy = Ok (idx, result) ->
    before start idx.
Proof.
  induction fuel as [|fuel IH]; intros start idx counter dummy result H; simpl in H;
    [discriminate|].
  crack; facts;
    try match goal with
        | H : skipToClosingParenFrom _ _ _ _ _ = Ok _ |- _ => apply IH in H
        end;
    cursor_solve.
Qed.

Lemma skipToClosingParen_before {T : Type} (tokenSet : TokenSet) (fuel : nat)
  (start idx : number) (dummy result : T) :
  skipToClosingParen fuel tokenSet start dummy = Ok (idx, result) -> before start idx.
Proof. apply skipToClosingParenFrom_before. Qed.

Lemma parseCommaSeparatedFrom_before {T : Type} (tokenSet : TokenSet)
  (callback : TokenSet -> number -> Result (ParseResult T)) :
  (forall start idx v, callback tokenSet start = Ok (idx, v) -> before start idx) ->
  forall (fuel : nat) (start idx : number) (values result : list T),
    parseCommaSeparatedFrom fuel tokenSet start callback values = Ok (idx, result) ->
    before start idx /\ exists more, more <> [] /\ result = values ++ more.
Proof.
  intros Hcb fuel. induction fuel as [|fuel IH]; intros start idx values result; simpl;
    [discriminate|].
  destruct (callback tokenSet start) as [[i v]|e|] eqn:E; simpl; try discriminate.
  apply Hcb in E.
  destruct (consumeToken tokenSet i tk.COMMA) as [j|] eqn:C.
  - destruct (consumeToken_cursor _ _ _ C) as [Hj Htruthy].
    rewrite Htruthy. unfold orElse. rewrite Htruthy.
    intros H. destruct (IH _ _ _ _ H) as [Hlater (more & Hmore & ->)]. split.
    + eapply before_trans; [exact E|]. eapply before_trans; eassumption.
    + exists (v :: more). split; [discriminate | now rewrite <- app_assoc].
  - simpl. intros H; injection H as <- <-. split; [exact E|].
    exists [v]. split; [discriminate | reflexivity].
Qed.

Lemma parseCommaSeparated_before {T : Type} (tokenSet : TokenSet)
  (callback : TokenSet -> number -> Result (ParseResult T)) (fuel : nat)
  (start idx : number) (result : list T) :
  (forall start idx v, callback tokenSet start = Ok (idx, v) -> before start idx) ->
  parseCommaSeparated fuel tokenSet start callback = Ok (idx, result) ->
  before start idx.
Proof.
  intros Hcb H.
  exact (proj1 (@parseCommaSeparatedFrom_before T tokenSet callback Hcb fuel start idx []
                  result H)).
Qed.

Lemma parseObjectName_before (tokenSet : TokenSet) (fuel : nat) (start idx : number)
  (name : ObjectName) :
  parseObjectName fuel tokenSet start = Ok (idx, name) -> before start idx.
Proof. intros H. exact (proj1 (parseObjectNameFrom_extends _ _ _ _ H)). Qed.

Lemma orElse_consumeToken (tokenSet : TokenSet) (start : number) (token : tk.Token) :
  truthy (consumeToken tokenSet start token) = true ->
  before start (orElse (consumeToken tokenSet start token) start).
Proof.
  destruct (consumeToken tokenSet start token) as [idx|] eqn:C; [|discriminate].
  destruct (consumeToken_cursor _ _ _ C) as [Hidx Htruthy].
  intros _. unfold orElse. now rewrite Htruthy.
Qed.

(** Names the cursor of a [consumeToken] that succeeded. *)
Ltac consumed :=
  repeat match goal with
         | E : truthy (consumeToken ?ts ?s ?t) = true |- _ =>
             apply orElse_consumeToken in E;
             let k := fresh "k" in
             let Hk := fresh "Hk" in
             remember (orElse (consumeToken ts s t) s) as k eqn:Hk; clear Hk
         end.

Ltac facts2 :=
  facts;
  repeat match goal with
         | E : tryParseDataType _ _ = Ok (_, _) |- _ => apply tryParseDataType_cursor in E
         | E : parseDataType _ _ = Ok (_, _) |- _ => apply parseDataType_before in E
         | E : expectValue _ _ = Ok (_, _) |- _ => apply expectValue_before in E
         | E : expectLiteralString _ _ = Ok (_, _) |- _ =>
             apply expectLiteralString_before in E
         | E : skipToClosingParen _ _ _ _ = Ok (_, _) |- _ =>
             apply skipToClosingParen_before in E
         | E : parseObjectName _ _ _ = Ok (_, _) |- _ => apply parseObjectName_before in E
         end.

(** Every function of the expression engine that returns has moved the
    cursor forward; the loop of [parseExpr] never moves it back. *)
Lemma expression_progress (fuel : nat) :
  (forall tokenSet start p idx e,
      parseExpr fuel tokenSet start p = Ok (idx, e) -> before start idx)
  /\ (forall tokenSet start e0 p idx e,
         parseExprFrom fuel tokenSet start e0 p = Ok (idx, e) -> notAfter start idx)
  /\ (forall tokenSet start idx e,
         parsePrefix fuel tokenSet start = Ok (idx, e) -> before start idx)
  /\ (forall tokenSet start idx e,
         parseCast fuel tokenSet start = Ok (idx, e) -> before start idx)
  /\ (forall tokenSet start idx e,
         parseCase fuel tokenSet start = Ok (idx, e) -> before start idx)
  /\ (forall tokenSet start cs rs idx r,
         parseCaseFrom fuel tokenSet start cs rs = Ok (idx, r) -> before start idx)
  /\ (forall tokenSet start e0 p idx e,
         parseInfix fuel tokenSet start e0 p = Ok (idx, e) -> before start idx)
  /\ (forall tokenSet start e0 negated idx e,
         parseBetween fuel tokenSet start e0 negated = Ok (idx, e) -> before start idx)
  /\ (forall tokenSet start e0 negated idx e,
         parseIn fuel tokenSet start e0 negated = Ok (idx, e) -> before start idx).
Proof.
  induction fuel as [|fuel (IHexpr & IHfrom & IHprefix & IHcast & IHcase & IHcaseFrom
                            & IHinfix & IHbetween & IHin)].
  - repeat split; intros; discriminate.
  - assert (Hcb : forall tokenSet start idx (v : Expr),
               (fun tokenSet idx => parseExpr fuel tokenSet idx PRECEDENCE.DEFAULT_0)
                 tokenSet start = Ok (idx, v) -> before start idx)
      by (intros ? ? ? ?; apply IHexpr).
    repeat split; intros;
      match goal with
      | H : _ = Ok _ |- _ => simpl in H; crack
      end;
      facts2; consumed;
      repeat match goal with
             | E : parseExpr fuel _ _ _ = Ok (_, _) |- _ => apply IHexpr in E
             | E : parseExprFrom fuel _ _ _ _ = Ok (_, _) |- _ => apply IHfrom in E
             | E : parsePrefix fuel _ _ = Ok (_, _) |- _ => apply IHprefix in E
             | E : parseCast fuel _ _ = Ok (_, _) |- _ => apply IHcast in E
             | E : parseCase fuel _ _ = Ok (_, _) |- _ => apply IHcase in E
             | E : parseCaseFrom fuel _ _ _ _ = Ok (_, _) |- _ => apply IHcaseFrom in E
             | E : parseInfix fuel _ _ _ _ = Ok (_, _) |- _ => apply IHinfix in E
             | E : parseBetween fuel _ _ _ _ = Ok (_, _) |- _ => apply IHbetween in E
             | E : parseIn fuel _ _ _ _ = Ok (_, _) |- _ => apply IHin in E
             | E : parseCommaSeparated fuel ?ts _ _ = Ok (_, _) |- _ =>
                 apply parseCommaSeparated_before in E; [|exact (Hcb ts)]
             end;
      cursor_solve.
Qed.

(** X21: the expression engine makes forward progress: whenever
    [parseExpr], [parsePrefix] or [parseInfix] returns, the cursor returned
    is an index after the cursor it was given (never [Infinity], never the
    same index), whatever the tokens and the threshold. *)
Theorem expression_parsing_advances (fuel : nat) (tokenSet : TokenSet) (start idx : number)
  (p : Precedence) (e0 e : Expr) :
  (parseExpr fuel tokenSet start p = Ok (idx, e) -> before start idx)
  /\ (parsePrefix fuel tokenSet start = Ok (idx, e) -> before start idx)
  /\ (parseInfix fuel tokenSet start e0 p = Ok (idx, e) -> before start idx).
Proof.
  destruct (expression_progress fuel) as (H1 & _ & H3 & _ & _ & _ & H7 & _).
  repeat split; intros H; [eapply H1 | eapply H3 | eapply H7]; exact H.
Qed.

Lemma expression_parsing_advances_witness :
  before (Fin 0) (Fin 9).
Proof.
  exact (proj1 (@expression_parsing_advances 20 (tokensOf "1 + 2 * 3") 0 (Fin 9)
                  PRECEDENCE.DEFAULT_0
                  exprs.Wildcard
                  (exprs.BinaryOp (exprs.Value (values.Number (str "1"))) (str "+")
                     (exprs.BinaryOp (exprs.Value (values.Number (str "2"))) (str "*")
                        (exprs.Value (values.Number (str "3"))))))
           eq_refl).
Defined.

(** ** Column options *)

Lemma parseExpr_before (fuel : nat) (tokenSet : TokenSet) (start idx : number)
  (p : Precedence) (e : Expr) :
  parseExpr fuel tokenSet start p = Ok (idx, e) -> before start idx.
Proof. apply (proj1 (expression_progress fuel)). Qed.



(** ** The end of the tokens *)

Lemma peekToken_end (tokenSet : TokenSet) (start : number) :
  ltb start (List.length tokenSet) = false -> peekToken tokenSet start = EOF.
Proof.
  destruct start as [i|]; simpl; [|reflexivity].
  intros H. apply Nat.ltb_ge in H. now rewrite skipn_all2.
Qed.

Lemma parseKeywords_end (tokenSet : TokenSet) (start : number) (keywords : list jsstring) :
  ltb start (List.length tokenSet) = false ->
  parseKeywords tokenSet start keywords = (start, true).
Proof.
  intros H. unfold parseKeywords. destruct keywords; simpl; [reflexivity | now rewrite H].
Qed.

Lemma parseKeyword_end (tokenSet : TokenSet) (start : number) (keyword : jsstring) :
  ltb start (List.length tokenSet) = false ->
  parseKeyword tokenSet start keyword = (start, false).
Proof. intros H. unfold parseKeyword. now rewrite (peekToken_end _ _ H). Qed.

(** X23: with the cursor at or beyond the end of the tokens, the column
    option parser reports NOT NULL and the action parser reports SET NULL,
    both without consuming anything, because [parseKeywords] counts the end
    of the tokens as a match; the loop that collects the options of a
    column then finds NOT NULL again and again and never returns. *)
Theorem end_of_tokens_reads_as_keywords (fuel : nat) (tokenSet : TokenSet) (start : number) :
  ltb start (List.length tokenSet) = false ->
  parseOptionalColumnOption fuel tokenSet start = Ok (start, Some colOpts.NotNull)
  /\ parseReferencialAction tokenSet start = Ok (start, mkReferencialAction SET_NULL)
  /\ (forall options, parseColumnOptionsFrom fuel tokenSet start options = OutOfFuel).
Proof.
  intros Hend.
  assert (Hoption : forall fuel,
             parseOptionalColumnOption fuel tokenSet start = Ok (start, Some colOpts.NotNull)).
  { intros f. unfold parseOptionalColumnOption. now rewrite (parseKeywords_end _ _ _ Hend). }
  split; [apply Hoption|]. split.
  - unfold parseReferencialAction.
    rewrite !(parseKeyword_end _ _ _ Hend). now rewrite (parseKeywords_end _ _ _ Hend).
  - induction fuel as [|f IH]; intros options; simpl; [reflexivity|].
    rewrite (parseKeyword_end _ _ _ Hend), Hoption. simpl. apply IH.
Qed.

Lemma end_of_tokens_reads_as_keywords_witness :
  parseColumnOptionsFrom 7 [tk.Word (str "id"); tk.SPACE; tk.Word (str "INT")] 3 []
  = OutOfFuel.
Proof.
  exact (proj2 (proj2 (@end_of_tokens_reads_as_keywords 7
                         [tk.Word (str "id"); tk.SPACE; tk.Word (str "INT")] 3 eq_refl)) []).
Defined.

(** ** Names *)

(** X16: an object name that [parseObjectName] returns holds at least one
    identifier, and the cursor returned lies after [start]. *)
Theorem parseObjectName_is_not_empty (fuel : nat) (tokenSet : TokenSet) (start idx : number)
  (name : ObjectName) :
  parseObjectName fuel tokenSet start = Ok (idx, name) ->
  objectNameValue name <> [] /\ before start idx.
Proof.
  intros H. destruct (parseObjectNameFrom_extends _ _ _ _ H) as [Hidx (more & Hmore & Hname)].
  split; [now rewrite Hname | exact Hidx].
Qed.

Lemma parseObjectName_is_not_empty_witness :
  [mkIdent (str "s") None; mkIdent (str "t") None] <> [] /\ before (Fin 0) (Fin 3).
Proof.
  exact (@parseObjectName_is_not_empty 3
           [tk.Word (str "s"); tk.COLON; tk.Word (str "t"); tk.SPACE; tk.LPAREN] 0 (Fin 3)
           (mkObjectName [mkIdent (str "s") None; mkIdent (str "t") None]) eq_refl).
Defined.

(** ** The statement loop and the column list *)

(** X18: [parse] comes back only on a source whose tokens are all
    whitespace or semicolons, and has then collected no statement: for
    every other source it throws or does not return. *)
Theorem parse_returns_only_without_statements (fuel : nat) (src : jsstring) :
  parse fuel src = Ok tt ->
  exists tokenSet,
    tk.tokenize src = Ok tokenSet
    /\ forallb skipped tokenSet = true
    /\ parseFrom fuel tokenSet 0 false [] = Ok [].
Proof.
  unfold parse. destruct (tk.tokenize src) as [tokenSet|e|]; try discriminate.
  destruct (parseFrom fuel tokenSet 0 false []) as [statements|e|] eqn:E; try discriminate.
  intros _. exists tokenSet. split; [reflexivity|]. split.
  - exact (parseFrom_returns_on_terminators_only _ _ _ _ E).
  - now rewrite (parseFrom_returns_no_statement _ _ _ E) in E.
Qed.

Lemma parse_returns_only_without_statements_witness :
  exists tokenSet,
    tk.tokenize (str " ; ;") = Ok tokenSet
    /\ forallb skipped tokenSet = true
    /\ parseFrom 4 tokenSet 0 false [] = Ok [].
Proof. exact (@parse_returns_only_without_statements 4 (str " ; ;") eq_refl). Defined.

(** X19: a column list is always rejected.  When the token under the cursor
    is the opening parenthesis, [parseColumns] throws on that parenthesis:
    its loop starts every iteration at [start], in front of the
    parenthesis, and an empty pair of parentheses is rejected as well. *)
Theorem column_list_is_rejected (fuel : nat) (tokenSet : TokenSet) (start : number) :
  peekToken tokenSet start = Tok tk.LPAREN ->
  parseColumns (S fuel) tokenSet start
  = Throw (ParseError (str "Expected: column name or constraint definition, found: (")).
Proof. apply parseColumns_rejects_open_paren. Qed.

Lemma column_list_is_rejected_witness :
  parseColumns 1 [tk.SPACE; tk.LPAREN; tk.RPAREN] 0
  = Throw (ParseError (str "Expected: column name or constraint definition, found: (")).
Proof. exact (@column_list_is_rejected 0 [tk.SPACE; tk.LPAREN; tk.RPAREN] 0 eq_refl). Defined.

(** ** Skipping to the closing parenthesis *)

Lemma skipn_tail {A : Type} (l rest : list A) (x : A) (i : nat) :
  skipn i l = x :: rest -> skipn (S i) l = rest.
Proof.
  intros H. change (S i) with (1 + i). rewrite <- skipn_skipn, H. reflexivity.
Qed.

Lemma nextMeaningfulToken_over_whitespace (tokenSet : TokenSet) (i : nat) (t : tk.Token)
  (rest : list tk.Token) :
  skipn i tokenSet = t :: rest -> tk.isWhitespace t = true ->
  nextMeaningfulToken tokenSet (Fin i) = nextMeaningfulToken tokenSet (Fin (S i)).
Proof.
  intros H Hws. unfold nextMeaningfulToken. rewrite (@skipn_tail _ _ _ _ _ H), H.
  cbn [nextFrom]. now rewrite Hws.
Qed.

Lemma nextMeaningfulToken_at_token (tokenSet : TokenSet) (i : nat) (t : tk.Token)
  (rest : list tk.Token) :
  skipn i tokenSet = t :: rest -> tk.isWhitespace t = false ->
  nextMeaningfulToken tokenSet (Fin i) = (Fin (S i), Tok t).
Proof.
  intros H Hws. unfold nextMeaningfulToken. rewrite H. cbn [nextFrom]. now rewrite Hws.
Qed.

Lemma skipToClosingParenFrom_more_fuel {T : Type} (tokenSet : TokenSet) (dummy : T)
  (fuel : nat) :
  forall (idx : number) (counter : nat) (r : Result (ParseResult T)),
    r <> OutOfFuel ->
    skipToClosingParenFrom fuel tokenSet idx counter dummy = r ->
    skipToClosingParenFrom (S fuel) tokenSet idx counter dummy = r.
Proof.
  induction fuel as [|fuel IH]; intros idx counter r Hr H; [now elim Hr|].
  revert H. cbn [skipToClosingParenFrom].
  destruct (nextMeaningfulToken tokenSet idx) as [idx' token].
  destruct (identical token tk.RPAREN).
  - destruct (counter - 1); [trivial | now apply IH].
  - destruct (identical token tk.LPAREN); [now apply IH|].
    destruct token; [now apply IH | trivial].
Qed.

Lemma skipToClosingParenFrom_over_whitespace {T : Type} (tokenSet : TokenSet) (dummy : T)
  (fuel i counter : nat) (t : tk.Token) (rest : list tk.Token) :
  skipn i tokenSet = t :: rest -> tk.isWhitespace t = true ->
  skipToClosingParenFrom fuel tokenSet (Fin i) counter dummy
  = skipToClosingParenFrom fuel tokenSet (Fin (S i)) counter dummy.
Proof.
  intros H Hws. destruct fuel; [reflexivity|]. cbn [skipToClosingParenFrom].
  now rewrite (@nextMeaningfulToken_over_whitespace _ _ _ _ H Hws).
Qed.

Lemma parenthesis_is_not_whitespace (t : tk.Token) :
  token_eqb t tk.RPAREN || token_eqb t tk.LPAREN = true -> tk.isWhitespace t = false.
Proof. destruct t; simpl; try discriminate; reflexivity. Qed.

Lemma skipToClosingParenFrom_over {T : Type} (tokenSet : TokenSet) (dummy : T)
  (inner : list tk.Token) :
  forall (i : nat) (rest : list tk.Token) (d d' c fuel : nat) (r : Result (ParseResult T)),
    skipn i tokenSet = inner ++ rest ->
    depth inner d = Some d' ->
    r <> OutOfFuel ->
    skipToClosingParenFrom fuel tokenSet (Fin (i + List.length inner)) (S c + d') dummy = r ->
    skipToClosingParenFrom (List.length inner + fuel) tokenSet (Fin i) (S c + d) dummy = r.
Proof.
  induction inner as [|t inner IH]; intros i rest d d' c fuel r Hskip Hdepth Hr H.
  - simpl in *. injection Hdepth as <-. now rewrite Nat.add_0_r in H.
  - cbn [List.length] in H. rewrite <- Nat.add_succ_comm in H.
    cbn [app] in Hskip. pose proof (@skipn_tail _ _ _ _ _ Hskip) as Htail.
    cbn [depth] in Hdepth. cbn [List.length Nat.add].
    destruct (token_eqb t tk.RPAREN) eqn:ER; [|destruct (token_eqb t tk.LPAREN) eqn:EL].
    + destruct d as [|d0]; [discriminate|].
      assert (Hws : tk.isWhitespace t = false)
        by (apply parenthesis_is_not_whitespace; now rewrite ER).
      cbn [skipToClosingParenFrom].
      rewrite (@nextMeaningfulToken_at_token _ _ _ _ Hskip Hws). cbn [identical]. rewrite ER.
      replace (S (c + S d0) - 1) with (S (c + d0)) by lia. cbv iota.
      exact (@IH _ _ _ _ _ _ _ Htail Hdepth Hr H).
    + assert (Hws : tk.isWhitespace t = false)
        by (apply parenthesis_is_not_whitespace; now rewrite EL, orb_true_r).
      cbn [skipToClosingParenFrom].
      rewrite (@nextMeaningfulToken_at_token _ _ _ _ Hskip Hws). cbn [identical]. rewrite ER, EL.
      replace (S (c + d) + 1) with (S c + S d) by lia.
      exact (@IH _ _ _ _ _ _ _ Htail Hdepth Hr H).
    + destruct (tk.isWhitespace t) eqn:Hws.
      * rewrite (@skipToClosingParenFrom_over_whitespace _ _ _ _ _ _ _ _ Hskip Hws).
        apply skipToClosingParenFrom_more_fuel; [exact Hr|].
        exact (@IH _ _ _ _ _ _ _ Htail Hdepth Hr H).
      * cbn [skipToClosingParenFrom].
        rewrite (@nextMeaningfulToken_at_token _ _ _ _ Hskip Hws). cbn [identical]. rewrite ER, EL.
        exact (@IH _ _ _ _ _ _ _ Htail Hdepth Hr H).
Qed.

(** X20: [skipToClosingParen] finds the parenthesis that matches.  When
    the tokens from the cursor on are [inner], in which every parenthesis
    opened is closed again and none is closed that was not opened, followed
    by a closing parenthesis, the cursor returned is the one after that
    parenthesis, whatever follows it; when they are such an [inner] that
    leaves [d] parentheses open, and nothing else, the skip throws on the
    end of the tokens.  Whitespace costs no iteration: one more iteration
    than [inner] has tokens is always enough. *)
Theorem skipToClosingParen_matches {T : Type} (dummy : T) (fuel : nat)
  (front inner rest : list tk.Token) (d : nat) :
  List.length inner < fuel ->
  (depth inner 0 = Some 0 ->
   skipToClosingParen fuel (front ++ inner ++ tk.RPAREN :: rest) (List.length front) dummy
   = Ok (Fin (List.length front + List.length inner + 1), dummy))
  /\ (depth inner 0 = Some d ->
      skipToClosingParen fuel (front ++ inner) (List.length front) dummy
      = Throw (getError (str "')'") EOF)).
Proof.
  intros Hfuel.
  replace fuel with (List.length inner + S (fuel - S (List.length inner))) by lia.
  unfold skipToClosingParen. split; intros Hdepth.
  - apply (@skipToClosingParenFrom_over T _ dummy inner _ (tk.RPAREN :: rest) 0 0 0);
      [apply skipn_app_length | exact Hdepth | discriminate |].
    cbn [skipToClosingParenFrom].
    rewrite (@nextMeaningfulToken_at_token _ _ tk.RPAREN rest); [| | reflexivity].
    + cbn. do 3 f_equal. lia.
    + replace (front ++ inner ++ tk.RPAREN :: rest)
        with ((front ++ inner) ++ tk.RPAREN :: rest) by (now rewrite <- app_assoc).
      rewrite <- length_app. apply skipn_app_length.
  - apply (@skipToClosingParenFrom_over T _ dummy inner _ [] 0 d 0);
      [rewrite app_nil_r; apply skipn_app_length | exact Hdepth | discriminate |].
    cbn [skipToClosingParenFrom]. unfold nextMeaningfulToken.
    rewrite <- length_app, skipn_all. reflexivity.
Qed.

Lemma skipToClosingParen_matches_witness :
  skipToClosingParen 5
    ([tk.LPAREN] ++ [tk.Word (str "f"); tk.LPAREN; tk.SPACE; tk.RPAREN]
       ++ tk.RPAREN :: [tk.COMMA]) 1 tt
  = Ok (Fin 6, tt).
Proof.
  exact (proj1 (@skipToClosingParen_matches unit tt 5 [tk.LPAREN]
                  [tk.Word (str "f"); tk.LPAREN; tk.SPACE; tk.RPAREN] [tk.COMMA] 0
                  ltac:(simpl; lia)) eq_refl).
Defined.

(** ** The tokenizer as a whole *)

(** X1: [tokenize] terminates on every source.  Every token the rules
    build has at least one character, so the index of the loop grows in
    every iteration, and as many iterations as the source has UTF-16 units
    are enough: the call returns the tokens or throws. *)
Theorem tokenize_returns_or_throws (src : jsstring) :
  (exists tokens, tk.tokenize src = Ok tokens) \/ (exists e, tk.tokenize src = Throw e).
Proof.
  destruct (tk.tokenize src) as [tokens|e|] eqn:E.
  - left. now exists tokens.
  - right. now exists e.
  - exfalso. revert E. apply tokenizeLoop_total. arith.
Qed.

(** X2: within the Basic Multilingual Plane the tokens keep the whole
    source: when such a source tokenizes, the texts of the tokens, joined in
    order, are the source, comments and whitespace included, and the length
    of every token is the number of characters of its text. *)
Theorem tokenize_keeps_the_source (src : jsstring) (tokens : tk.TokenSet) :
  bmp src = true ->
  tk.tokenize src = Ok tokens ->
  tk.joinValues tokens = src /\ Forall lengthIsCharacters tokens.
Proof.
  intros Hbmp H.
  eapply tokenizeLoop_lossless with (i := 0) (tokens := []);
    [exact Hbmp | arith | reflexivity | constructor | exact H].
Qed.

Lemma tokenize_keeps_the_source_witness :
  tk.joinValues [tk.Word (str "a"); tk.SPACE; tk.Cmmnt (str "--b"); tk.LF; tk.Num (str "1.5");
                 tk.SEMICOLON]
  = str "a --b
1.5;".
Proof.
  exact (proj1 (@tokenize_keeps_the_source (str "a --b
1.5;") [tk.Word (str "a"); tk.SPACE; tk.Cmmnt (str "--b"); tk.LF; tk.Num (str "1.5");
        tk.SEMICOLON] eq_refl eq_refl)).
Defined.

(** ** Column lists of tokenized sources *)

Lemma jseqb_eq (a b : jsstring) : jseqb a b = true -> a = b.
Proof.
  revert b; induction a as [|x a IH]; intros [|y b]; simpl; try discriminate; [reflexivity|].
  intros H. apply andb_true_iff in H as [Hx Hab].
  apply N.eqb_eq in Hx. now rewrite Hx, (IH _ Hab).
Qed.

Lemma applyRule_opensAsConstant (c : jschar) (rest : list jschar) (token : tk.Token) :
  tk.applyRule c (c :: rest) = Ok token -> opensAsConstant token.
Proof.
  intros H Hvalue. apply jseqb_eq in Hvalue.
  destruct (applyRule_startsWith _ _ H) as [_ [tail Htail]].
  rewrite Hvalue in Htail. injection Htail as -> _.
  vm_compute in H. now injection H as <-.
Qed.

Lemma tokenize_opensAsConstant (src : jsstring) (tokens : tk.TokenSet) :
  tk.tokenize src = Ok tokens -> Forall opensAsConstant tokens.
Proof.
  intros H.
  eapply tokenizeLoop_Forall; [exact applyRule_opensAsConstant | constructor | exact H].
Qed.

Lemma nextMeaningfulToken_In (tokenSet : TokenSet) (start idx : number) (t : tk.Token) :
  nextMeaningfulToken tokenSet start = (idx, Tok t) -> In t tokenSet.
Proof.
  destruct start as [i|]; simpl; [|discriminate].
  intros H. destruct (nextFrom_found _ _ H) as (ws & rest & Hsplit & _).
  rewrite <- (firstn_skipn i tokenSet), Hsplit.
  apply in_or_app. right. apply in_elt.
Qed.

Lemma parseColumns_returns_nothing (tokenSet : TokenSet) (fuel : nat) (start idx : number)
  (columns : list ColumnDef) (constraints : list TableConstraint) :
  Forall opensAsConstant tokenSet ->
  parseColumns fuel tokenSet start = Ok (idx, (columns, constraints)) ->
  idx = start /\ columns = [] /\ constraints = [].
Proof.
  intros Hall.
  destruct (consumeToken tokenSet start tk.LPAREN) as [i1|] eqn:C.
  - pose proof (proj2 (consumeToken_cursor _ _ _ C)) as Htruthy.
    unfold consumeToken in C.
    destruct (nextMeaningfulToken tokenSet start) as [idx' [t|]] eqn:E; [|discriminate].
    destruct (jseqb (tk.value t) (tk.value tk.LPAREN)) eqn:J; [|discriminate].
    assert (Ht : t = tk.LPAREN).
    { exact (proj1 (Forall_forall _ _) Hall t (nextMeaningfulToken_In _ _ E) J). }
    subst t.
    assert (Hpeek : peekToken tokenSet start = Tok tk.LPAREN)
      by (now rewrite peekToken_nextMeaningfulToken, E).
    destruct fuel as [|fuel].
    + unfold parseColumns, consumeToken. rewrite E. cbn. injection C as ->.
      cbn in Htruthy. rewrite Htruthy. discriminate.
    + now rewrite (parseColumns_rejects_open_paren _ _ fuel Hpeek).
  - unfold parseColumns. rewrite C. cbn. intros H; injection H as <- <- <-. now repeat split.
Qed.

(** X24: no statement parsed from the tokens of a source has a column or
    a table constraint.  On such tokens [parseColumns] returns only where
    no opening parenthesis follows, with empty lists and the cursor
    unmoved, so every statement that [parseCreateStatement] returns has an
    empty column list and an empty constraint list. *)
Theorem statements_have_no_columns (fuel : nat) (src : jsstring) (tokenSet : TokenSet)
  (start : number) (statement : CreateTableStatement) :
  tk.tokenize src = Ok tokenSet ->
  parseCreateStatement fuel tokenSet start = Ok statement ->
  columns statement = [] /\ constraints statement = [].
Proof.
  intros Htokens H. apply tokenize_opensAsConstant in Htokens.
  unfold parseCreateStatement, parseCreateTableStatement in H. crack.
  all: subst.
  all: match goal with
       | E : parseColumns _ _ _ = Ok _ |- _ =>
           destruct (@parseColumns_returns_nothing _ _ _ _ _ _ Htokens E) as (_ & -> & ->)
       end.
  all: now injection H as <-.
Qed.

Lemma statements_have_no_columns_witness :
  columns (mkCreateTableStatement (mkObjectName [mkIdent (str "TABLE") None]) [] [] []
             false false false false) = []
  /\ constraints (mkCreateTableStatement (mkObjectName [mkIdent (str "TABLE") None]) [] [] []
                    false false false false) = [].
Proof.
  exact (@statements_have_no_columns 5 (str "CREATE TABLE t;") (tokensOf "CREATE TABLE t;") 0
           (mkCreateTableStatement (mkObjectName [mkIdent (str "TABLE") None]) [] [] []
              false false false false) eq_refl eq_refl).
Defined.

(** ** The cursor of a column option *)

Lemma parseKeywordsFrom_from (tokenSet : TokenSet) (start : number)
  (keywords : list jsstring) :
  forall cur idx,
    parseKeywordsFrom tokenSet start cur keywords = (idx, true) -> notAfter cur idx.
Proof.
  induction keywords as [|k kws IH]; intros cur idx; simpl.
  - intros H; injection H as <-. apply notAfter_refl.
  - destruct (ltb cur (List.length tokenSet));
      [|intros H; injection H as <-; apply notAfter_refl].
    destruct (parseKeyword tokenSet cur k) as [idx' found] eqn:E.
    apply parseKeyword_cursor in E. destruct found; simpl; [|discriminate].
    intros H. apply IH in H. cursor_solve.
Qed.

Lemma parseKeywords_before (tokenSet : TokenSet) (start idx : number) (k : jsstring)
  (keywords : list jsstring) :
  ltb start (List.length tokenSet) = true ->
  parseKeywords tokenSet start (k :: keywords) = (idx, true) -> before start idx.
Proof.
  unfold parseKeywords. simpl. intros ->.
  destruct (parseKeyword tokenSet start k) as [idx' found] eqn:E.
  apply parseKeyword_cursor in E. destruct found; simpl; [|discriminate].
  intros H. apply parseKeywordsFrom_from in H. cursor_solve.
Qed.

Lemma parseReferencialAction_notAfter (tokenSet : TokenSet) (start idx : number)
  (action : ReferencialAction) :
  parseReferencialAction tokenSet start = Ok (idx, action) -> notAfter start idx.
Proof. unfold parseReferencialAction. intros H. crack; facts; cursor_solve. Qed.

Lemma parseParenthesizedColumnList_notAfter (fuel : nat) (tokenSet : TokenSet)
  (start idx : number) (isOptional : bool) (idents : list Ident) :
  parseParenthesizedColumnList fuel tokenSet start isOptional = Ok (idx, idents) ->
  notAfter start idx.
Proof.
  unfold parseParenthesizedColumnList. intros H. crack.
  - consumed.
    match goal with
    | E : parseCommaSeparated _ _ _ _ = Ok _ |- _ =>
        apply parseCommaSeparated_before in E; [|exact (parseIdentifier_before tokenSet)]
    end.
    facts. cursor_solve.
  - cursor_solve.
Qed.

Lemma parseReferencesFrom_notAfter (tokenSet : TokenSet) (fuel : nat) :
  forall (idx idx' : number) (onDelete onUpdate onDelete' onUpdate' : option ReferencialAction),
    parseReferencesFrom fuel tokenSet idx onDelete onUpdate = Ok (idx', onDelete', onUpdate') ->
    notAfter idx idx'.
Proof.
  induction fuel as [|fuel IH]; intros idx idx' onDelete onUpdate onDelete' onUpdate';
    simpl; [discriminate|].
  intros H. crack.
  all: repeat match goal with
         | E : parseReferencesFrom _ _ _ _ _ = Ok _ |- _ => apply IH in E
         | E : parseReferencialAction _ _ = Ok _ |- _ => apply parseReferencialAction_notAfter in E
         end.
  all: facts; cursor_solve.
Qed.

(** X25: the cursor of [parseOptionalColumnOption].  When no option is
    found the cursor returned is [start]: the keywords that were tried have
    consumed nothing.  When an option is returned the cursor has not moved
    back, and it has moved forward whenever [start] lies inside the tokens:
    only at the end of the tokens is an option reported without anything
    being consumed. *)
Theorem parseOptionalColumnOption_cursor (fuel : nat) (tokenSet : TokenSet)
  (start idx : number) (option : option colOpts.ColumnOption) :
  parseOptionalColumnOption fuel tokenSet start = Ok (idx, option) ->
  match option with
  | None => idx = start
  | Some _ =>
      notAfter start idx
      /\ (ltb start (List.length tokenSet) = true -> before start idx)
  end.
Proof.
  unfold parseOptionalColumnOption. intros H. crack.
  all: injection H as <- <-.
  all: try match goal with
         | |- _ /\ (_ -> _) => split; [|intros Hin]
         end.
  all: repeat match goal with
         | E : parseKeyword _ _ _ = (_, false) |- _ =>
             apply parseKeyword_cursor in E; cbn beta iota in E; subst
         | E : parseKeywords _ _ _ = (_, false) |- _ =>
             apply parseKeywords_cursor in E; cbn beta iota in E; subst
         end.
  all: repeat match goal with
         | Hin : ltb ?s _ = true, E : parseKeywords _ ?s (_ :: _) = (_, true) |- _ =>
             apply (@parseKeywords_before _ _ _ _ _ Hin) in E
         | E : parseExpr _ _ _ _ = Ok _ |- _ => apply parseExpr_before in E
         | E : parseParenthesizedColumnList _ _ _ _ = Ok _ |- _ =>
             apply parseParenthesizedColumnList_notAfter in E
         | E : parseReferencesFrom _ _ _ _ _ = Ok _ |- _ =>
             apply parseReferencesFrom_notAfter in E
         end.
  all: facts2; cursor_solve.
Qed.

Lemma parseOptionalColumnOption_cursor_witness :
  notAfter (Fin 1) (Fin 5) /\ before (Fin 1) (Fin 5).
Proof.
  destruct (@parseOptionalColumnOption_cursor 3 (tokensOf "a PRIMARY KEY, b") 1 (Fin 5)
              (Some (colOpts.Unique true)) eq_refl) as [Hback Hforward].
  split; [exact Hback | exact (Hforward eq_refl)].
Defined.
